(** * CineCraft-AI: storyboard compiler, safety filter and command scheduler

    A shallow embedding of the parts of the repository that its
    specification talks about:

    - [src/app.py]: [get_all_commands] with its inline safety filter;
    - [src/src/bbs_commands.py]: [BBSCommandGenerator] (entity resolution,
      camera interpolation, scene compilation, script assembly);
    - [src/src/rcon_client.py]: [MinecraftRCON.execute_sequence].

    Python values that reach the compiler come from [json.loads]; they are
    modelled by the inductive type [pyval].  A Python [str] is a Rocq
    [string] whose characters are read as the code points 0..255.  A Python
    [int] is a [Z], a Python [float] is a primitive binary64 [float].
    Exceptions are explicit: fallible code returns [res]. *)

From Stdlib Require Import ZArith Lia Bool Ascii String List Sorting Permutation.
From Stdlib Require Import Floats.
From stdpp Require Import base option list gmap strings pretty.

Set Warnings "-register-all".

Open Scope string_scope.
Open Scope Z_scope.
Open Scope list_scope.

(** ** Python strings *)

Module PyStr.

(** [str.isspace] for one character, on the code points below 256:
    TAB..CR, FS..US, SPACE, NEL (0x85) and NBSP (0xA0). *)
Definition isspace (c : ascii) : bool :=
  let n := N_of_ascii c in
  ((9 <=? n) && (n <=? 13) || (28 <=? n) && (n <=? 32)
   || (n =? 133) || (n =? 160))%N.

(** [s.lstrip()] *)
Fixpoint lstrip (s : string) : string :=
  match s with
  | String c s' => if isspace c then lstrip s' else s
  | EmptyString => EmptyString
  end.

(** [s.rstrip()] *)
Fixpoint rstrip (s : string) : string :=
  match s with
  | String c s' =>
      match rstrip s' with
      | EmptyString => if isspace c then EmptyString else String c EmptyString
      | r => String c r
      end
  | EmptyString => EmptyString
  end.

(** [s.strip()] *)
Definition strip (s : string) : string := rstrip (lstrip s).

(** [s.startswith(p)] *)
Fixpoint startswith (p s : string) : bool :=
  match p, s with
  | EmptyString, _ => true
  | String a p', String b s' => Ascii.eqb a b && startswith p' s'
  | String _ _, EmptyString => false
  end.

(** [sub in s] *)
Fixpoint contains (sub s : string) : bool :=
  startswith sub s
  || match s with
     | String _ s' => contains sub s'
     | EmptyString => false
     end.

(** [str.lower] for one character, on the code points below 256:
    A..Z and the capital letters 0xC0..0xDE except the multiplication
    sign 0xD7 move up by 32. *)
Definition lower_char (c : ascii) : ascii :=
  let n := N_of_ascii c in
  if ((65 <=? n) && (n <=? 90)
      || (192 <=? n) && (n <=? 222) && negb (n =? 215))%N
  then ascii_of_N (n + 32) else c.

(** [s.lower()] *)
Fixpoint lower (s : string) : string :=
  match s with
  | String c s' => String (lower_char c) (lower s')
  | EmptyString => EmptyString
  end.

(** [s.replace(old, new)] for a one-character [old], the only form the
    sources use ([" "] to ["_"], ["~"] to [""]). *)
Fixpoint replace_char (old : ascii) (new : string) (s : string) : string :=
  match s with
  | String c s' =>
      if Ascii.eqb c old then new +:+ replace_char old new s'
      else String c (replace_char old new s')
  | EmptyString => EmptyString
  end.

(** [s.split()]: the maximal runs of non-whitespace characters. *)
Fixpoint split_go (cur : string) (s : string) : list string :=
  match s with
  | String c s' =>
      if isspace c
      then match cur with
           | EmptyString => split_go EmptyString s'
           | _ => String.rev cur :: split_go EmptyString s'
           end
      else split_go (String c cur) s'
  | EmptyString =>
      match cur with
      | EmptyString => []
      | _ => [String.rev cur]
      end
  end.

Definition split (s : string) : list string := split_go EmptyString s.

(** The characters of [s] as one-character strings (iteration over a
    [str]). *)
Fixpoint chars (s : string) : list string :=
  match s with
  | String c s' => String c EmptyString :: chars s'
  | EmptyString => []
  end.

Definition dquote : string := String "034"%char EmptyString.
Definition squote : string := String "039"%char EmptyString.

End PyStr.

(** ** Python values, exceptions and the built-ins the sources call *)

Module Py.
Import PyStr.

(** The values [json.loads] produces.  A dictionary keeps its items in
    document order; its keys are strings, each of them once. *)
Inductive pyval :=
| VNone
| VBool (b : bool)
| VInt (z : Z)
| VFloat (f : float)
| VStr (s : string)
| VList (l : list pyval)
| VDict (d : list (string * pyval)).

Inductive pyexc :=
| AttributeError | TypeError | ValueError | IndexError | KeyError
| ZeroDivisionError | OverflowError.

(** The outcome of an expression or statement: a value, or a raised
    exception. *)
Inductive res (A : Type) :=
| Ok (a : A)
| Raise (e : pyexc).
Arguments Ok {A} a.
Arguments Raise {A} e.

Definition res_bind {A B} (m : res A) (k : A -> res B) : res B :=
  match m with
  | Ok a => k a
  | Raise e => Raise e
  end.

Definition is_ok {A} (m : res A) : bool :=
  match m with Ok _ => true | Raise _ => false end.

Declare Scope res_scope.
Delimit Scope res_scope with res.
Notation "x <- m ;; k" := (res_bind m (fun x => k))
  (at level 20, m at level 99, k at level 200, only parsing) : res_scope.

(** [for x in l: acc = f(acc, x)], stopping at the first exception. *)
Fixpoint res_fold {A B} (f : B -> A -> res B) (l : list A) (b : B) : res B :=
  match l with
  | [] => Ok b
  | x :: l' => res_bind (f b x) (res_fold f l')
  end.

(** *** Floating point

    Arithmetic on [float] is the kernel's binary64 arithmetic, which is
    what CPython's [float] is.  The conversions between floats and text
    and the two libm functions the camera code calls are not defined
    here: they are the fields of [PyNative], and every statement below
    holds for all of them. *)
Class PyNative := {
  (** the C library's [cos] and [sin], which [math.cos] and [math.sin]
      call *)
  py_cos : float -> float;
  py_sin : float -> float;
  (** [float(s)] for a [str]; [None] is [ValueError] *)
  float_of_str : string -> option float;
  (** [repr(f)] (and [str(f)]) for a [float] *)
  float_repr : float -> string
}.

(** [float(z)] for an [int]: round to nearest even, [OverflowError]
    beyond the largest finite float. *)
Definition float_of_int (z : Z) : res float :=
  let f := SF2Prim (binary_normalize prec emax z 0 false) in
  if is_infinity f then Raise OverflowError else Ok f.

(** [int(f)]: truncation toward zero. *)
Definition int_of_float (f : float) : res Z :=
  match Prim2SF f with
  | S754_nan => Raise ValueError
  | S754_infinity _ => Raise OverflowError
  | S754_zero _ => Ok 0
  | S754_finite s m e =>
      let n := if 0 <=? e then Zpos m * 2 ^ e else Zpos m / 2 ^ (- e) in
      Ok (if s then - n else n)
  end.

(** [a / b] for two [int]s: the quotient rounded to nearest even. *)
Definition int_truediv (a b : Z) : res float :=
  if b =? 0 then Raise ZeroDivisionError
  else
    let neg := xorb (a <? 0) (b <? 0) in
    let p := Z.abs a in
    let q := Z.abs b in
    let k := Z.max 0 (64 + Z.log2 q - Z.log2 p) in
    let n := p * 2 ^ k in
    let m := 2 * (n / q) + (if n mod q =? 0 then 0 else 1) in
    let f := SF2Prim (binary_normalize prec emax m (- k - 1) false) in
    if is_infinity f then Raise OverflowError
    else Ok (if neg then (- f)%float else f).

(** [math.radians] *)
Definition radians (x : float) : float :=
  (x * (0x1.921fb54442d18p+1 / 180))%float.

(** [n / d] rounded to the nearest integer, ties to even ([0 <= n],
    [0 < d]). *)
Definition div_half_even (n d : Z) : Z :=
  let q := n / d in
  let r := n mod d in
  if 2 * r <? d then q
  else if d <? 2 * r then q + 1
  else if Z.even q then q else q + 1.

(** [f"{x:.1f}"] *)
Definition format_1f (f : float) : string :=
  match Prim2SF f with
  | S754_nan => "nan"
  | S754_infinity s => if s then "-inf" else "inf"
  | S754_zero s => if s then "-0.0" else "0.0"
  | S754_finite s m e =>
      let tenths :=
        if 0 <=? e then 10 * Zpos m * 2 ^ e
        else div_half_even (10 * Zpos m) (2 ^ (- e)) in
      (if s then "-" else "")
        +:+ pretty (tenths / 10) +:+ "." +:+ pretty (tenths mod 10)
  end.

(** *** Text of values *)

Definition hex_digit (n : N) : ascii :=
  ascii_of_N (if (n <? 10)%N then 48 + n else 87 + n)%N.

(** One character inside [repr(s)], quoted with [q]. *)
Definition repr_char (q : ascii) (c : ascii) : string :=
  let n := N_of_ascii c in
  if (n =? 92)%N then "\\"
  else if Ascii.eqb c q then String "\" (String c EmptyString)
  else if (n =? 9)%N then "\t"
  else if (n =? 10)%N then "\n"
  else if (n =? 13)%N then "\r"
  else if ((n <? 32) || (127 <=? n) && (n <=? 160) || (n =? 173))%N
  then "\x" +:+ String (hex_digit (n / 16)) (String (hex_digit (n mod 16)) EmptyString)
  else String c EmptyString.

Fixpoint repr_chars (q : ascii) (s : string) : string :=
  match s with
  | String c s' => repr_char q c +:+ repr_chars q s'
  | EmptyString => EmptyString
  end.

(** [repr(s)] for a [str] *)
Definition str_repr (s : string) : string :=
  let q := if contains squote s && negb (contains dquote s)
           then "034"%char else "039"%char in
  String q (repr_chars q s) +:+ String q EmptyString.

(** [", ".join(l)] *)
Fixpoint join_comma (l : list string) : string :=
  match l with
  | [] => ""
  | [x] => x
  | x :: l' => x +:+ ", " +:+ join_comma l'
  end.

Section WithNative.
Context {native : PyNative}.

(** [repr(v)] *)
Fixpoint py_repr (v : pyval) : string :=
  match v with
  | VNone => "None"
  | VBool b => if b then "True" else "False"
  | VInt z => pretty z
  | VFloat f => float_repr f
  | VStr s => str_repr s
  | VList l => "[" +:+ join_comma (map py_repr l) +:+ "]"
  | VDict d =>
      "{" +:+ join_comma (map (fun kv => str_repr (fst kv) +:+ ": " +:+ py_repr (snd kv)) d)
          +:+ "}"
  end.

(** [str(v)], the text an f-string puts for [{v}] *)
Definition py_str (v : pyval) : string :=
  match v with
  | VStr s => s
  | _ => py_repr v
  end.

(** [float(v)] *)
Definition py_float (v : pyval) : res float :=
  match v with
  | VBool b => Ok (if b then 1 else 0)%float
  | VInt z => float_of_int z
  | VFloat f => Ok f
  | VStr s => match float_of_str s with
              | Some f => Ok f
              | None => Raise ValueError
              end
  | VNone | VList _ | VDict _ => Raise TypeError
  end.

(** [math.cos(x)] and [math.sin(x)]: the C function answers an infinite
    argument with a NaN, which [math] turns into [ValueError]. *)
Definition math_cos (x : float) : res float :=
  if is_infinity x then Raise ValueError else Ok (py_cos x).

Definition math_sin (x : float) : res float :=
  if is_infinity x then Raise ValueError else Ok (py_sin x).
End WithNative.

(** [bool(v)] *)
Definition py_truthy (v : pyval) : bool :=
  match v with
  | VNone => false
  | VBool b => b
  | VInt z => negb (z =? 0)
  | VFloat f => negb (is_zero f)
  | VStr s => negb (String.eqb s "")
  | VList l => match l with [] => false | _ => true end
  | VDict d => match d with [] => false | _ => true end
  end.

(** Whether [hash(v)] succeeds; lists and dictionaries are unhashable. *)
Definition py_hashable (v : pyval) : bool :=
  match v with
  | VList _ | VDict _ => false
  | _ => true
  end.

(** [v == s] for a string literal [s] *)
Definition py_eq_str (v : pyval) (s : string) : bool :=
  match v with
  | VStr s' => String.eqb s' s
  | _ => false
  end.

(** [v.lower()] *)
Definition py_lower (v : pyval) : res string :=
  match v with
  | VStr s => Ok (lower s)
  | _ => Raise AttributeError
  end.

(** [v[i]] for a literal index [i >= 0] *)
Definition py_index (v : pyval) (i : nat) : res pyval :=
  match v with
  | VList l => match l !! i with Some x => Ok x | None => Raise IndexError end
  | VStr s => match chars s !! i with Some c => Ok (VStr c) | None => Raise IndexError end
  | VDict _ => Raise KeyError
  | VNone | VBool _ | VInt _ | VFloat _ => Raise TypeError
  end.

(** The items [for x in v] visits *)
Definition py_iter (v : pyval) : res (list pyval) :=
  match v with
  | VList l => Ok l
  | VStr s => Ok (map VStr (chars s))
  | VDict d => Ok (map (fun kv => VStr (fst kv)) d)
  | VNone | VBool _ | VInt _ | VFloat _ => Raise TypeError
  end.

(** [d.get(key)] on the items of a dictionary *)
Definition dict_get (d : list (string * pyval)) (key : string) : option pyval :=
  snd <$> find (fun kv => String.eqb (fst kv) key) d.

(** [v.get(key, dflt)]: a dictionary looks the key up; no other value
    has a method [get]. *)
Definition py_get (v : pyval) (key : string) (dflt : pyval) : res pyval :=
  match v with
  | VDict d => Ok (default dflt (dict_get d key))
  | VNone | VBool _ | VInt _ | VFloat _ | VStr _ | VList _ => Raise AttributeError
  end.

(** [table.get(key, dflt)] for a dictionary literal with string keys *)
Definition table_get {A} (table : list (string * A)) (key : pyval) (dflt : A) : res A :=
  if py_hashable key then
    match key with
    | VStr s => Ok (default dflt (snd <$> find (fun kv => String.eqb (fst kv) s) table))
    | _ => Ok dflt
    end
  else Raise TypeError.

(** [sorted(l, key=...)]: the stable sort by an integer key. *)
Fixpoint insert_by {A} (key : A -> Z) (x : A) (l : list A) : list A :=
  match l with
  | [] => [x]
  | y :: l' => if key x <=? key y then x :: y :: l' else y :: insert_by key x l'
  end.

Definition sorted_by {A} (key : A -> Z) (l : list A) : list A :=
  foldr (insert_by key) [] l.

(** A list in ascending order of its keys. *)
Definition ordered {A} (key : A -> Z) : list A -> Prop :=
  StronglySorted (fun x y => key x <= key y).

End Py.

(** ** The storyboard compiler ([src/src/bbs_commands.py]) *)

Module BBS.
Import PyStr Py.

(** *** Storyboard documents

    The containers of a storyboard (the mappings and the lists the
    compiler walks through), the tick and duration fields and the
    actor id are typed; a field that is absent from the mapping is
    [None], which is what [dict.get] replaces by its default.  Every
    other field is an arbitrary [pyval]; so is the setting of a scene
    with all that is inside it. *)

Record action := Action {
  a_tick : option Z;
  a_type : option pyval;
  a_position : option pyval;
  a_target_position : option pyval;
  a_target : option pyval
}.

Record actor := Actor {
  ac_id : option string;
  ac_name : option pyval;
  ac_type : option pyval;
  ac_actions : option (list action)
}.

Record movement := Movement {
  m_tick_start : option Z;
  m_tick_end : option Z;
  m_type : option pyval;
  m_position : option pyval;
  m_center : option pyval;
  m_radius : option pyval;
  m_start_angle : option pyval;
  m_end_angle : option pyval;
  m_height : option pyval;
  m_start_position : option pyval;
  m_end_position : option pyval;
  m_look_at : option pyval;
  m_target : option pyval;
  m_distance : option pyval
}.

Record fov_keyframe := FovKeyframe {
  f_tick : option Z;
  f_fov : option pyval
}.

Record camera := Camera {
  c_movements : option (list movement);
  c_fov_keyframes : option (list fov_keyframe)
}.

Record effect := Effect {
  e_tick : option Z;
  e_type : option pyval;
  e_particle_type : option pyval;
  e_position : option pyval;
  e_count : option pyval
}.

Record scene := Scene {
  sc_name : option pyval;
  sc_duration_seconds : option Z;
  sc_setting : option pyval;
  sc_actors : option (list actor);
  sc_camera : option camera;
  sc_effects : option (list effect)
}.

Record storyboard := Storyboard {
  sb_title : option pyval;
  sb_scenes : option (list scene)
}.

(** *** Commands *)

(** [@dataclass BBSCommand]; [BBSCommand.to_dict] keeps the four fields
    under the keys tick, command, description and type, so the same
    record stands for the dictionary. *)
Record BBSCommand := mkBBSCommand {
  tick : Z;
  command : string;
  description : string;
  command_type : string
}.

(** [@dataclass CommandSequence] *)
Record CommandSequence := mkCommandSequence {
  name : pyval;
  commands : list BBSCommand;
  duration_ticks : Z
}.

(** [CommandSequence(name=...)] *)
Definition new_sequence (nm : pyval) : CommandSequence :=
  mkCommandSequence nm [] 0.

(** [CommandSequence.add] *)
Definition add (seq : CommandSequence) (tk : Z) (cmd desc cmd_type : string)
  : CommandSequence :=
  mkCommandSequence (name seq)
    (commands seq ++ [mkBBSCommand tk cmd desc cmd_type])
    (Z.max (duration_ticks seq) tk).

(** [seq.commands.append(cmd)] *)
Definition append_command (seq : CommandSequence) (cmd : BBSCommand) : CommandSequence :=
  mkCommandSequence (name seq) (commands seq ++ [cmd]) (duration_ticks seq).

(** [CommandSequence.to_list] *)
Definition to_list (seq : CommandSequence) : list BBSCommand :=
  sorted_by tick (commands seq).

(** *** The generator instance

    [self.actor_registry] is the only mutable state of a
    [BBSCommandGenerator].  A method is a function from the registry
    before the call to an outcome and the registry after it; what a
    method wrote before it raised stays written. *)

Record entry := mkEntry {
  entry_name : string;
  entry_position : pyval;
  entry_type : string
}.

Abbreviation registry := (gmap string entry).

Definition gen (A : Type) : Type := registry -> res A * registry.

Definition gen_ret {A} (a : A) : gen A := fun reg => (Ok a, reg).

Definition gen_bind {A B} (m : gen A) (k : A -> gen B) : gen B :=
  fun reg =>
    match m reg with
    | (Ok a, reg') => k a reg'
    | (Raise e, reg') => (Raise e, reg')
    end.

Definition gen_lift {A} (m : res A) : gen A := fun reg => (m, reg).

(** [self.actor_registry] read as a whole *)
Definition gen_registry : gen registry := fun reg => (Ok reg, reg).

(** [self.actor_registry[k] = e] *)
Definition gen_register (k : string) (e : entry) : gen unit :=
  fun reg => (Ok tt, <[k := e]> reg).

Declare Scope gen_scope.
Delimit Scope gen_scope with gen.
Notation "x <- m ;; k" := (gen_bind m (fun x => k))
  (at level 20, m at level 99, k at level 200, only parsing) : gen_scope.

Fixpoint gen_fold {A B} (f : B -> A -> gen B) (l : list A) (b : B) : gen B :=
  match l with
  | [] => gen_ret b
  | x :: l' => gen_bind (f b x) (gen_fold f l')
  end.

(** [BBSCommandGenerator.__init__]: [self.actor_registry = {}] *)
Definition init_registry : registry := ∅.

(** [TPS] *)
Definition TPS : Z := 20.

Definition default_position (y : Z) : pyval := VList [VInt 0; VInt y; VInt 0].

(** [l[i]] on a list of floats *)
Definition float_at (l : list float) (i : nat) : res float :=
  match l !! i with
  | Some x => Ok x
  | None => Raise IndexError
  end.

Section WithNative.
Context {native : PyNative}.

(** The body of the [for] loop of [_parse_pos]: one coordinate. *)
Definition parse_coord (x : pyval) : res float :=
  let attempt :=
    match x with
    | VStr s =>
        let val := replace_char "~" "" s in
        let val := if String.eqb val "" then "0" else val in
        py_float (VStr val)
    | _ => py_float x
    end in
  match attempt with
  | Ok v => Ok v
  | Raise e =>
      match e with
      | ValueError | TypeError => Ok 0%float
      | _ => Raise e
      end
  end.

(** [_parse_pos] *)
Definition _parse_pos (pos : pyval) : res (list float) :=
  (items <- py_iter pos ;;
   res_fold (fun new_pos x => v <- parse_coord x ;; Ok (new_pos ++ [v])) items [])%res.

(** [scene.get('setting', {})] *)
Definition scene_setting (sc : scene) : pyval := default (VDict []) (sc_setting sc).

(** [_time_command] *)
Definition time_map : list (string * string) :=
  [("day", "time set day"); ("noon", "time set noon");
   ("sunset", "time set 12000"); ("night", "time set night");
   ("midnight", "time set midnight"); ("sunrise", "time set 23000")].

Definition _time_command (sc : scene) : res string :=
  (time_of_day <- py_get (scene_setting sc) "time_of_day" (VStr "day") ;;
   table_get time_map time_of_day "time set day")%res.

(** [_weather_command] *)
Definition weather_map : list (string * string) :=
  [("clear", "weather clear"); ("rain", "weather rain");
   ("thunder", "weather thunder"); ("storm", "weather thunder")].

Definition _weather_command (sc : scene) : res string :=
  (weather <- py_get (scene_setting sc) "weather" (VStr "clear") ;;
   table_get weather_map weather "weather clear")%res.

(** The world-modification branch of [generate_scene_commands]: the
    command for one label, already lower-cased in [mod_lower]. *)
Definition world_mod_command (mod_lower mod_text : string) : string :=
  if contains "castle" mod_lower
  then "execute at @p run place structure minecraft:pillager_outpost ~ ~ ~"
  else if contains "village" mod_lower
  then "execute at @p run place structure minecraft:village_plains ~ ~ ~"
  else if contains "house" mod_lower
  then "execute at @p run place structure minecraft:plains_village_shepherds_house_1 ~ ~ ~"
  else if contains "tower" mod_lower
  then "execute at @p run place structure minecraft:pillager_outpost ~ ~ ~"
  else "say [Agent] World Mod: " +:+ mod_text.

(** *** Entity resolution *)

Definition titan_entities : list (string * string) :=
  [("titan", "titans:zombie_titan");
   ("zombie_titan", "titans:zombie_titan");
   ("creeper_titan", "titans:creeper_titan");
   ("skeleton_titan", "titans:skeleton_titan");
   ("spider_titan", "titans:spider_titan");
   ("blaze_titan", "titans:blaze_titan");
   ("ghast_titan", "titans:ghast_titan");
   ("slime_titan", "titans:slime_titan");
   ("ender_colossus", "titans:ender_colossus");
   ("witherzilla", "titans:witherzilla");
   ("ultima_iron_golem", "titans:ultima_iron_golem_titan")].

Definition titan_prefixes : list string :=
  ["zombie"; "creeper"; "skeleton"; "spider"; "blaze"; "ghast"; "slime"].

(** Truth value of [entity_id], which is [None] or a string. *)
Definition entity_id_set (entity_id : option string) : bool :=
  match entity_id with
  | Some e => negb (String.eqb e "")
  | None => false
  end.

(** "Determine Entity ID" in the spawn branch of
    [_generate_actor_commands], from the normalised type and name. *)
Definition spawn_entity_id (actor_type clean_name : string) : string :=
  let entity_id : option string :=
    if negb (String.eqb actor_type "unknown") && negb (String.eqb actor_type "actor")
       && negb (contains "titan" actor_type)
    then Some ("minecraft:" +:+ actor_type)
    else None in
  if negb (entity_id_set entity_id) then
    match find (fun kv => String.eqb (fst kv) clean_name) titan_entities with
    | Some kv => snd kv
    | None =>
        if contains "titan" clean_name then
          let entity_id :=
            match find (fun prefix => contains prefix clean_name) titan_prefixes with
            | Some prefix => Some ("titans:" +:+ prefix +:+ "_titan")
            | None => entity_id
            end in
          if negb (entity_id_set entity_id) then "titans:zombie_titan"
          else default "" entity_id
        else if contains "dragon" clean_name then "minecraft:ender_dragon"
        else "minecraft:" +:+ clean_name
    end
  else default "" entity_id.

(** The text of the creation command, after the entity id is known. *)
Definition spawn_command (actor_name actor_type entity_id : string) : string :=
  let nbt_data :=
    if negb (String.eqb (lower actor_name) actor_type)
       && negb (contains (lower actor_name) entity_id)
    then "{CustomName:'{" +:+ dquote +:+ "text" +:+ dquote +:+ ":"
           +:+ dquote +:+ actor_name +:+ dquote +:+ "}'}"
    else "" in
  let cmd := "execute at @p run summon " +:+ entity_id +:+ " ~ ~ ~ " +:+ nbt_data in
  if contains "ender_dragon" entity_id
  then "execute at @p run summon " +:+ entity_id +:+ " ~ ~ ~ {DragonPhase:0}"
  else cmd.

Definition known_types : list string :=
  ["zombie"; "skeleton"; "creeper"; "cow"; "sheep"; "pig"; "chicken"; "dragon"; "titan"].

(** [_get_target_selector] *)
Definition _get_target_selector (nm actor_type : pyval) : res string :=
  (lowered <- py_lower nm ;;
   let clean_name := replace_char " " "_" lowered in
   lowered_type <- py_lower actor_type ;;
   let clean_type := replace_char " " "_" lowered_type in
   let is_generic :=
     existsb (String.eqb clean_name) known_types || String.eqb clean_name clean_type in
   if is_generic || contains "dragon" clean_name then
     let entity_type := if negb (String.eqb clean_type "unknown") then clean_type else clean_name in
     let entity_type :=
       if contains "dragon" clean_name then "minecraft:ender_dragon"
       else if contains "titan" clean_name then "titans:zombie_titan"
       else if negb (contains ":" entity_type) then "minecraft:" +:+ entity_type
       else entity_type in
     Ok ("@e[type=" +:+ entity_type +:+ ",sort=nearest,limit=1]")
   else
     Ok ("@e[name=" +:+ dquote +:+ py_str nm +:+ dquote +:+ ",sort=nearest,limit=1]"))%res.

(** [f'{v[0]} {v[1]} {v[2]}'] *)
Definition triple_text (v : pyval) : res string :=
  (x <- py_index v 0 ;;
   y <- py_index v 1 ;;
   z <- py_index v 2 ;;
   Ok (py_str x +:+ " " +:+ py_str y +:+ " " +:+ py_str z))%res.

(** [re.match(r'[\d\s\.\-~]+', target)] for a [str]: the first
    character is a digit, whitespace, a dot, a minus or a tilde. *)
Definition looks_like_coords (target : string) : bool :=
  match target with
  | String c _ =>
      let n := N_of_ascii c in
      ((48 <=? n) && (n <=? 57))%N || isspace c
      || (n =? 46)%N || (n =? 45)%N || (n =? 126)%N
  | EmptyString => false
  end.

(** *** Actors *)

(** The spawn branch of the loop of [_generate_actor_commands]. *)
Definition spawn_action (act : actor) (actor_name : pyval) (actor_id : string)
    (seq : CommandSequence) (tk : Z) (a : action) : gen CommandSequence :=
  (let raw_pos := default (default_position 64) (a_position a) in
   lowered_type <- gen_lift (py_lower (default (VStr "unknown") (ac_type act))) ;;
   let actor_type := replace_char " " "_" lowered_type in
   lowered_name <- gen_lift (py_lower actor_name) ;;
   let clean_name := replace_char " " "_" lowered_name in
   let entity_id := spawn_entity_id actor_type clean_name in
   let cmd := spawn_command (py_str actor_name) actor_type entity_id in
   let seq := add seq tk cmd ("Spawn " +:+ py_str actor_name) "minecraft" in
   _ <- gen_register actor_id (mkEntry (py_str actor_name) raw_pos entity_id) ;;
   gen_ret seq)%gen.

(** The [else] branch of the loop of [_generate_actor_commands]: every
    action that is not a spawn. *)
Definition other_action (act : actor) (actor_name action_type : pyval)
    (seq : CommandSequence) (tk : Z) (a : action) : res CommandSequence :=
  (selector <- _get_target_selector actor_name (default (VStr "unknown") (ac_type act)) ;;
   let actor_text := py_str actor_name in
   if py_eq_str action_type "walk_to" || py_eq_str action_type "run_to" then
     let target := default (default_position 64) (a_target_position a) in
     coords <- triple_text target ;;
     Ok (add seq tk ("tp " +:+ selector +:+ " " +:+ coords)
           (actor_text +:+ " moves to " +:+ py_str target) "minecraft")
   else if py_eq_str action_type "sit" then
     let cmd :=
       if contains "camel" (lower actor_text)
       then "data merge entity " +:+ selector +:+ " {Pose:sitting}"
       else "data merge entity " +:+ selector +:+ " {Sitting:1b}" in
     Ok (add seq tk cmd (actor_text +:+ " sits") "minecraft")
   else if py_eq_str action_type "teleport" then
     let pos := default (default_position 64) (a_position a) in
     coords <- triple_text pos ;;
     Ok (add seq tk ("tp " +:+ selector +:+ " " +:+ coords)
           ("Teleport " +:+ actor_text) "minecraft")
   else if py_eq_str action_type "jump" then
     Ok (add seq tk
           ("execute as " +:+ selector +:+ " run data merge entity @s {Motion:[0.0d,0.6d,0.0d]}")
           (actor_text +:+ " jumps") "minecraft")
   else if py_eq_str action_type "attack" || py_eq_str action_type "swipe" then
     let cmd1 := "execute at " +:+ selector
                   +:+ " run playsound entity.player.attack.strong master @a ~ ~ ~ 1 1" in
     let cmd2 := "execute as " +:+ selector
                   +:+ " run data merge entity @s {Motion:[0.0d,0.2d,0.4d]}" in
     let seq := add seq tk cmd1 (actor_text +:+ " attacks (sound)") "minecraft" in
     Ok (add seq tk cmd2 (actor_text +:+ " attacks (motion)") "minecraft")
   else if py_eq_str action_type "interact" then
     Ok (add seq tk
           ("execute at " +:+ selector
              +:+ " run playsound entity.villager.trade master @a ~ ~ ~ 1 1")
           (actor_text +:+ " interacts") "minecraft")
   else if py_eq_str action_type "look_at" then
     let target := default (VStr "0 0 0") (a_target a) in
     let as_coords :=
       match target with
       | VList _ => Some target
       | VStr s => if looks_like_coords s then Some (VList (map VStr (split s))) else None
       | _ => None
       end in
     match as_coords with
     | Some target =>
         coords <- triple_text target ;;
         Ok (add seq tk ("execute as " +:+ selector +:+ " at @s run facing " +:+ coords)
               (actor_text +:+ " looks at " +:+ py_str target) "minecraft")
     | None =>
         target_sel <- _get_target_selector target (VStr "unknown") ;;
         Ok (add seq tk
               ("execute as " +:+ selector +:+ " at @s run facing entity "
                  +:+ target_sel +:+ " eyes")
               (actor_text +:+ " looks at " +:+ py_str target) "minecraft")
     end
   else Ok seq)%res.

(** The body of the loop of [_generate_actor_commands]. *)
Definition actor_action (act : actor) (actor_name : pyval) (actor_id : string)
    (seq : CommandSequence) (a : action) : gen CommandSequence :=
  let tk := default 0 (a_tick a) in
  let action_type := default (VStr "idle") (a_type a) in
  if py_eq_str action_type "spawn"
  then spawn_action act actor_name actor_id seq tk a
  else gen_lift (other_action act actor_name action_type seq tk a).

(** [_generate_actor_commands] *)
Definition _generate_actor_commands (act : actor) : gen CommandSequence :=
  let seq := new_sequence (VStr ("actor_" +:+ default "unknown" (ac_id act))) in
  let actor_name := default (VStr "actor") (ac_name act) in
  let actor_id := default "actor_001" (ac_id act) in
  gen_fold (actor_action act actor_name actor_id) (default [] (ac_actions act)) seq.

(** *** Camera *)

(** [min(20, (tick_end - tick_start) // 5)] *)
Definition num_frames (tick_start tick_end : Z) : Z :=
  Z.min 20 ((tick_end - tick_start) / 5).

(** [range(n)] *)
Definition range (n : Z) : list Z := seqZ 0 n.

(** [tick_start + int((tick_end - tick_start) * t)] *)
Definition frame_tick (tick_start tick_end : Z) (t : float) : res Z :=
  (span <- float_of_int (tick_end - tick_start) ;;
   n <- int_of_float (span * t)%float ;;
   Ok (tick_start + n))%res.

(** The body of the orbit loop: frame [i]. *)
Definition orbit_frame (center : list float)
    (radius start_angle end_angle height : float)
    (tick_start tick_end frames : Z) (seq : CommandSequence) (i : Z)
  : res CommandSequence :=
  (t <- int_truediv i frames ;;
   let angle := radians (start_angle + (end_angle - start_angle) * t)%float in
   c0 <- float_at center 0 ;;
   cos_angle <- math_cos angle ;;
   let x := (c0 + radius * cos_angle)%float in
   c2 <- float_at center 2 ;;
   sin_angle <- math_sin angle ;;
   let z := (c2 + radius * sin_angle)%float in
   c1 <- float_at center 1 ;;
   let y := (c1 + height)%float in
   tk <- frame_tick tick_start tick_end t ;;
   let cmd := "tp @p " +:+ format_1f x +:+ " " +:+ format_1f y +:+ " " +:+ format_1f z
                +:+ " facing " +:+ float_repr c0 +:+ " " +:+ float_repr c1
                +:+ " " +:+ float_repr c2 in
   Ok (add seq tk cmd ("Orbit frame " +:+ pretty i) "camera"))%res.

(** [start[k] + (end[k] - start[k]) * t] *)
Definition lerp_at (start_pos end_pos : list float) (k : nat) (t : float) : res float :=
  (s0 <- float_at start_pos k ;;
   e0 <- float_at end_pos k ;;
   s1 <- float_at start_pos k ;;
   Ok (s0 + (e0 - s1) * t)%float)%res.

(** [look_at and look_at in self.actor_registry], then the entry read
    by [self.actor_registry[look_at]]. *)
Definition look_at_entry (reg : registry) (look_at : pyval) : res (option entry) :=
  if py_truthy look_at then
    if py_hashable look_at then
      match look_at with
      | VStr k => Ok (reg !! k)
      | _ => Ok None
      end
    else Raise TypeError
  else Ok None.

(** The body of the dolly loop: frame [i]. *)
Definition dolly_frame (reg : registry) (start_pos end_pos : list float)
    (look_at : pyval) (tick_start tick_end frames : Z)
    (seq : CommandSequence) (i : Z) : res CommandSequence :=
  (t <- int_truediv i frames ;;
   x <- lerp_at start_pos end_pos 0 t ;;
   y <- lerp_at start_pos end_pos 1 t ;;
   z <- lerp_at start_pos end_pos 2 t ;;
   tk <- frame_tick tick_start tick_end t ;;
   found <- look_at_entry reg look_at ;;
   let here := "tp @p " +:+ format_1f x +:+ " " +:+ format_1f y +:+ " " +:+ format_1f z in
   let cmd :=
     match found with
     | Some e => here +:+ " facing entity @e[name=" +:+ dquote +:+ entry_name e
                   +:+ dquote +:+ "]"
     | None => here
     end in
   Ok (add seq tk cmd ("Dolly frame " +:+ pretty i) "camera"))%res.

(** The body of the movement loop of [_generate_camera_commands]. *)
Definition camera_movement (reg : registry) (seq : CommandSequence) (mv : movement)
  : res CommandSequence :=
  (let tick_start := default 0 (m_tick_start mv) in
   let tick_end := default 100 (m_tick_end mv) in
   let move_type := default (VStr "static") (m_type mv) in
   if py_eq_str move_type "static" then
     coords <- triple_text (default (default_position 70) (m_position mv)) ;;
     Ok (add seq tick_start ("tp @p " +:+ coords) "Static camera position" "camera")
   else if py_eq_str move_type "orbit" then
     center <- _parse_pos (default (default_position 64) (m_center mv)) ;;
     radius <- py_float (default (VInt 10) (m_radius mv)) ;;
     start_angle <- py_float (default (VInt 0) (m_start_angle mv)) ;;
     end_angle <- py_float (default (VInt 360) (m_end_angle mv)) ;;
     height <- py_float (default (VInt 5) (m_height mv)) ;;
     let frames := num_frames tick_start tick_end in
     res_fold (orbit_frame center radius start_angle end_angle height
                 tick_start tick_end frames)
       (range (frames + 1)) seq
   else if py_eq_str move_type "dolly" then
     start_pos <- _parse_pos (default (default_position 70) (m_start_position mv)) ;;
     end_pos <- _parse_pos
                  (default (VList [VInt 10; VInt 70; VInt 0]) (m_end_position mv)) ;;
     let look_at := default VNone (m_look_at mv) in
     let frames := num_frames tick_start tick_end in
     res_fold (dolly_frame reg start_pos end_pos look_at tick_start tick_end frames)
       (range (frames + 1)) seq
   else if py_eq_str move_type "follow" then
     let target := default VNone (m_target mv) in
     let distance := default (VInt 5) (m_distance mv) in
     Ok (add seq tick_start
           ("# Camera follows " +:+ py_str target +:+ " at distance " +:+ py_str distance)
           "Follow camera setup" "camera")
   else Ok seq)%res.

(** The body of the FOV loop of [_generate_camera_commands]. *)
Definition fov_command (seq : CommandSequence) (kf : fov_keyframe) : CommandSequence :=
  add seq (default 0 (f_tick kf))
    ("# Set FOV to " +:+ py_str (default (VInt 70) (f_fov kf)))
    "FOV keyframe" "aperture".

(** [_generate_camera_commands] *)
Definition _generate_camera_commands (cam : camera) : gen CommandSequence :=
  (reg <- gen_registry ;;
   seq <- gen_lift (res_fold (camera_movement reg)
                      (default [] (c_movements cam)) (new_sequence (VStr "camera"))) ;;
   gen_ret (fold_left fov_command (default [] (c_fov_keyframes cam)) seq))%gen.

(** *** Effects *)

Definition particle_map : list (string * pyval) :=
  [("explosion", VStr "explosion"); ("smoke", VStr "smoke"); ("fire", VStr "flame");
   ("magic", VStr "enchant"); ("portal", VStr "portal"); ("heart", VStr "heart");
   ("cloud", VStr "cloud"); ("dust", VStr "dust 1 0 0 1");
   ("growth", VStr "happy_villager")].

(** [_generate_effect_command] *)
Definition _generate_effect_command (eff : effect) : res BBSCommand :=
  (let tk := default 0 (e_tick eff) in
   let effect_type := default (VStr "particles") (e_type eff) in
   if py_eq_str effect_type "particles" then
     let particle := default (VStr "cloud") (e_particle_type eff) in
     let pos := default (default_position 64) (e_position eff) in
     let count := default (VInt 10) (e_count eff) in
     mc_particle <- table_get particle_map particle particle ;;
     coords <- triple_text pos ;;
     Ok (mkBBSCommand tk
           ("particle " +:+ py_str mc_particle +:+ " " +:+ coords
              +:+ " 1 1 1 0 " +:+ py_str count)
           (py_str particle +:+ " effect") "minecraft")
   else Ok (mkBBSCommand tk "# Unknown effect" "Placeholder" "comment"))%res.

(** *** Scenes *)

(** The body of the world-modification loop: label [mod_] at index [i]. *)
Definition world_modification (seq : CommandSequence) (im : nat * pyval)
  : res CommandSequence :=
  (let '(i, mod_) := im in
   mod_lower <- py_lower mod_ ;;
   let cmd := world_mod_command mod_lower (py_str mod_) in
   if negb (String.eqb cmd "")
   then Ok (add seq (Z.of_nat i * 5) cmd ("Build " +:+ py_str mod_) "minecraft")
   else Ok seq)%res.

(** [generate_scene_commands] *)
Definition generate_scene_commands (sc : scene) : gen CommandSequence :=
  (let seq := new_sequence (default (VStr "unnamed_scene") (sc_name sc)) in
   time_cmd <- gen_lift (_time_command sc) ;;
   let seq := add seq 0 time_cmd "Set time of day" "minecraft" in
   weather_cmd <- gen_lift (_weather_command sc) ;;
   let seq := add seq 0 weather_cmd "Set weather" "minecraft" in
   seq <- gen_lift
            (world_modifications <- py_get (scene_setting sc) "world_modifications"
                                      (VList []) ;;
             mods <- py_iter world_modifications ;;
             res_fold world_modification (imap pair mods) seq)%res ;;
   seq <- gen_fold
            (fun seq act =>
               actor_cmds <- _generate_actor_commands act ;;
               gen_ret (fold_left append_command (commands actor_cmds) seq))
            (default [] (sc_actors sc)) seq ;;
   camera_cmds <- _generate_camera_commands (default (Camera None None) (sc_camera sc)) ;;
   let seq := fold_left append_command (commands camera_cmds) seq in
   seq <- gen_lift
            (res_fold
               (fun seq eff =>
                  (effect_cmd <- _generate_effect_command eff ;;
                   Ok (append_command seq effect_cmd))%res)
               (default [] (sc_effects sc)) seq) ;;
   let duration_seconds := default 30 (sc_duration_seconds sc) in
   gen_ret (mkCommandSequence (name seq) (commands seq) (duration_seconds * TPS)))%gen.

(** *** The assembled script *)

(** One item of [result["scenes"]] *)
Record scene_script := mkSceneScript {
  ss_name : pyval;
  start_tick : Z;
  ss_duration_ticks : Z;
  ss_commands : list BBSCommand
}.

(** The dictionary [generate_full_script] returns *)
Record script := mkScript {
  title : pyval;
  total_duration_ticks : Z;
  scenes : list scene_script;
  total_duration_seconds : float
}.

(** [cmd.tick += current_tick_offset] *)
Definition offset_tick (current_tick_offset : Z) (cmd : BBSCommand) : BBSCommand :=
  mkBBSCommand (tick cmd + current_tick_offset)
    (command cmd) (description cmd) (command_type cmd).

(** The body of the scene loop of [generate_full_script]; the state is
    [current_tick_offset] and [result["scenes"]]. *)
Definition assemble_scene (st : Z * list scene_script) (sc : scene)
  : gen (Z * list scene_script) :=
  (let '(current_tick_offset, result_scenes) := st in
   scene_seq <- generate_scene_commands sc ;;
   let scene_seq :=
     mkCommandSequence (name scene_seq)
       (map (offset_tick current_tick_offset) (commands scene_seq))
       (duration_ticks scene_seq) in
   gen_ret (current_tick_offset + duration_ticks scene_seq,
            result_scenes ++
              [mkSceneScript (name scene_seq) current_tick_offset
                 (duration_ticks scene_seq) (to_list scene_seq)]))%gen.

(** [generate_full_script] *)
Definition generate_full_script (sb : storyboard) : gen script :=
  (let title := default (VStr "Untitled") (sb_title sb) in
   st <- gen_fold assemble_scene (default [] (sb_scenes sb)) (0, []) ;;
   let '(current_tick_offset, result_scenes) := st in
   seconds <- gen_lift (int_truediv current_tick_offset TPS) ;;
   gen_ret (mkScript title current_tick_offset result_scenes seconds))%gen.

End WithNative.
End BBS.

(** ** The safety filter of [get_all_commands] ([src/app.py]) *)

Module SafetyFilter.
Import PyStr.

Definition blocked_tag : string := "# BLOCKED UNSAFE COMMAND: ".

(** The condition of the [if] in the inner loop:
    [cmd.strip().startswith("tp @") or " tp @a" in cmd or " tp @p" in cmd]. *)
Definition is_blocked (cmd : string) : bool :=
  startswith "tp @" (strip cmd) || contains " tp @a" cmd || contains " tp @p" cmd.

(** Whether the placeholder of [c] is matched by the filter again: the
    tag ends in a blank, so [c] re-matches when it starts with a player
    teleport or contains one after a blank. *)
Definition retagged (c : string) : bool :=
  startswith "tp @a" c || contains " tp @a" c || (startswith "tp @p" c || contains " tp @p" c).

(** One iteration of the inner loop: what is appended to [safe_cmds]. *)
Definition filter_cmd (cmd : string) : string :=
  if is_blocked cmd then blocked_tag +:+ cmd else cmd.

(** The inner loop over [scene.get('commands', [])], appending to
    [safe_cmds] from left to right. *)
Definition safety_filter (cmds : list string) : list string :=
  fold_left (fun safe_cmds cmd => safe_cmds ++ [filter_cmd cmd]) cmds [].

(** A scene of the chat application's storyboard: an optional name and
    its commands. *)
Record app_scene := AppScene {
  as_name : option string;
  as_commands : option (list string)
}.

(** [get_all_commands]: [None] stands for a storyboard that is falsy
    or has no ['scenes'] key. *)
Definition get_all_commands (storyboard : option (list app_scene)) : list string :=
  match storyboard with
  | None => []
  | Some scenes =>
      fold_left
        (fun commands scene =>
           (commands ++ ["# === " +:+ default "Scene" (as_name scene) +:+ " ==="])
             ++ safety_filter (default [] (as_commands scene)))
        scenes []
  end.

End SafetyFilter.

(** ** The command scheduler ([src/src/rcon_client.py]) *)

Module RCON.
Import PyStr Py.

(** One item of the [commands] argument: a dictionary read through
    [get('tick', 0)] and [get('command', '')]. *)
Record timed_command := TimedCommand {
  tc_tick : option Z;
  tc_command : option string
}.

Definition tick_of (cmd_data : timed_command) : Z := default 0 (tc_tick cmd_data).
Definition command_of (cmd_data : timed_command) : string := default "" (tc_command cmd_data).

(** [@dataclass CommandResult] *)
Record CommandResult := mkCommandResult {
  success : bool;
  response : string;
  tick : Z;
  command : string
}.

(** What the scheduler does to the outside world, in order: a call
    [time.sleep(ms / 1000.0)] and a call [mcr.command(cmd)]. *)
Inductive event :=
| Slept (ms : Z)
| Submitted (cmd : string).

(** [command.startswith('#')] *)
Definition is_comment (cmd : string) : bool := startswith "#" cmd.

Section Transport.
(** The server behind an open connection: [mcr.command(cmd)] answers
    with a response ([inl]) or raises ([inr], the text of the
    exception), and the server moves on. *)
Variable conn : Type.
Variable mcr_command : conn -> string -> conn * (string + string).

(** The clock: what [time.sleep(ms / 1000.0)] does for an integer
    [ms].  It returns ([None]) or raises ([Some], the text of the
    exception): [ValueError] for a negative length, [OverflowError] for
    an integer beyond the floats or a length beyond the clock's range. *)
Variable time_sleep : Z -> option string.

(** The variables of the loop of [execute_sequence] *)
Record loop_state := mkLoopState {
  server : conn;
  last_tick : Z;
  results : list CommandResult;
  trace : list event
}.

(** The loop either goes on, or an exception has left the [with]
    block and reached the outer [except]. *)
Inductive loop_outcome :=
| Running (st : loop_state)
| Escaped (st : loop_state) (message : string).

(** The body of the loop of [execute_sequence].  An exception of
    [time.sleep] is not inside the inner [try]: it leaves the loop. *)
Definition loop_body (tick_delay_ms : Z) (realtime : bool)
    (st : loop_state) (cmd_data : timed_command) : loop_outcome :=
  let tk := tick_of cmd_data in
  let cmd := command_of cmd_data in
  let waits := realtime && (last_tick st <? tk) in
  let wait_ms := (tk - last_tick st) * tick_delay_ms in
  match (if waits then time_sleep wait_ms else None) with
  | Some message => Escaped st message
  | None =>
      let trace := if waits then trace st ++ [Slept wait_ms] else trace st in
      if is_comment cmd then
        Running (mkLoopState (server st) (last_tick st)
                   (results st ++ [mkCommandResult true "Skipped" tk cmd]) trace)
      else
        let '(server', reply) := mcr_command (server st) cmd in
        let result :=
          match reply with
          | inl resp => mkCommandResult true resp tk cmd
          | inr err => mkCommandResult false err tk cmd
          end in
        Running (mkLoopState server' tk (results st ++ [result])
                   (trace ++ [Submitted cmd]))
  end.

Fixpoint run_loop (tick_delay_ms : Z) (realtime : bool)
    (cmds : list timed_command) (st : loop_state) : loop_outcome :=
  match cmds with
  | [] => Running st
  | cmd_data :: rest =>
      match loop_body tick_delay_ms realtime st cmd_data with
      | Running st' => run_loop tick_delay_ms realtime rest st'
      | Escaped st' message => Escaped st' message
      end
  end.

(** [execute_sequence].  [MCRCON_AVAILABLE] is the module's import
    flag; [connect] is what entering [with MCRcon(...)] does: it
    raises ([inl], the text of the exception) or yields the open
    connection.  The outcome is the returned list and the events. *)
Definition execute_sequence (MCRCON_AVAILABLE : bool) (connect : string + conn)
    (commands : list timed_command) (tick_delay_ms : Z) (realtime : bool)
  : list CommandResult * list event :=
  if negb MCRCON_AVAILABLE
  then ([mkCommandResult false "RCON not available" 0 ""], [])
  else
    let sorted_cmds := sorted_by tick_of commands in
    match connect with
    | inl e => ([mkCommandResult false ("Connection error: " +:+ e) 0 ""], [])
    | inr mcr =>
        match run_loop tick_delay_ms realtime sorted_cmds (mkLoopState mcr 0 [] []) with
        | Running st => (results st, trace st)
        | Escaped st e =>
            (results st ++ [mkCommandResult false ("Connection error: " +:+ e) 0 ""],
             trace st)
        end
    end.

(** *** The scheduler's contract, in the words of the specification

    "A single logical last_tick cursor starts at 0.  For each command
    in order: if realtime is true and the command's tick exceeds the
    cursor, suspend execution for (tick - last_tick) * tick_delay_ms
    milliseconds before submission.  Comment-tagged commands are
    recorded as skipped results without submission.  Each real command
    is submitted exactly once; a failure is recorded and execution
    continues.  After each submitted command, last_tick advances to
    that command's tick." *)

Fixpoint contract_events (tick_delay_ms : Z) (cursor : Z)
    (cmds : list timed_command) : list event :=
  match cmds with
  | [] => []
  | cmd_data :: rest =>
      let tk := tick_of cmd_data in
      let cmd := command_of cmd_data in
      (if cursor <? tk then [Slept ((tk - cursor) * tick_delay_ms)] else [])
        ++ (if is_comment cmd then [] else [Submitted cmd])
        ++ contract_events tick_delay_ms (if is_comment cmd then cursor else tk) rest
  end.

Fixpoint contract_results (mcr : conn) (cmds : list timed_command)
  : list CommandResult :=
  match cmds with
  | [] => []
  | cmd_data :: rest =>
      let tk := tick_of cmd_data in
      let cmd := command_of cmd_data in
      if is_comment cmd
      then mkCommandResult true "Skipped" tk cmd :: contract_results mcr rest
      else
        match fst (mcr_command mcr cmd), snd (mcr_command mcr cmd) with
        | mcr', inl resp => mkCommandResult true resp tk cmd :: contract_results mcr' rest
        | mcr', inr err => mkCommandResult false err tk cmd :: contract_results mcr' rest
        end
  end.

(** The commands an event list submits, in order. *)
Definition submissions (events : list event) : list string :=
  omap (fun e => match e with Submitted cmd => Some cmd | Slept _ => None end) events.

(** The lengths an event list sleeps, in order. *)
Definition sleeps (events : list event) : list Z :=
  omap (fun e => match e with Slept ms => Some ms | Submitted _ => None end) events.

End Transport.
Arguments mkLoopState {conn} server last_tick results trace.
Arguments server {conn} l.
Arguments last_tick {conn} l.
Arguments results {conn} l.
Arguments trace {conn} l.
Arguments Running {conn} st.
Arguments Escaped {conn} st message.
Arguments loop_body {conn} mcr_command time_sleep tick_delay_ms realtime st cmd_data.
Arguments run_loop {conn} mcr_command time_sleep tick_delay_ms realtime cmds st.
Arguments execute_sequence {conn} mcr_command time_sleep MCRCON_AVAILABLE connect
  commands tick_delay_ms realtime.
Arguments contract_results {conn} mcr_command mcr cmds.
End RCON.

(** ** The other methods of the RCON client ([src/src/rcon_client.py]) *)

Module Client.
Import PyStr Py RCON.

Section Transport.
Variable conn : Type.
Variable mcr_command : conn -> string -> conn * (string + string).
Variable time_sleep : Z -> option string.

(** [MinecraftRCON.execute]: one command on a connection of its own.
    [connect] is what entering [with MCRcon(...)] does, as in
    [execute_sequence]; it is entered only for a command that is no
    comment.  The outcome is the result and the events. *)
Definition execute (MCRCON_AVAILABLE : bool) (connect : string + conn) (command : string)
  : CommandResult * list event :=
  if negb MCRCON_AVAILABLE
  then (mkCommandResult false "RCON not available" 0 command, [])
  else if is_comment command
  then (mkCommandResult true "Skipped (comment)" 0 command, [])
  else
    match connect with
    | inl e => (mkCommandResult false e 0 command, [])
    | inr mcr =>
        match snd (mcr_command mcr command) with
        | inl response => (mkCommandResult true response 0 command, [Submitted command])
        | inr e => (mkCommandResult false e 0 command, [Submitted command])
        end
    end.

(** The [commands] list of [setup_world] *)
Definition setup_commands (gamemode difficulty : string) : list timed_command :=
  [TimedCommand (Some 0) (Some ("gamemode " +:+ gamemode));
   TimedCommand (Some 1) (Some ("difficulty " +:+ difficulty));
   TimedCommand (Some 2) (Some "gamerule doDaylightCycle false");
   TimedCommand (Some 3) (Some "gamerule doWeatherCycle false");
   TimedCommand (Some 4) (Some "gamerule doMobSpawning false")].

(** [MinecraftRCON.setup_world]: [execute_sequence(commands,
    realtime=False)], with the default of 50 ms per tick. *)
Definition setup_world (MCRCON_AVAILABLE : bool) (connect : string + conn)
    (gamemode difficulty : string) : list CommandResult * list event :=
  execute_sequence mcr_command time_sleep MCRCON_AVAILABLE connect
    (setup_commands gamemode difficulty) 50 false.
End Transport.
Arguments execute {conn} mcr_command MCRCON_AVAILABLE connect command.
Arguments setup_world {conn} mcr_command time_sleep MCRCON_AVAILABLE connect
  gamemode difficulty.
End Client.

(** ** Files

    The exporters write text files.  The file system is a finite map
    from paths to contents together with what the platform decides:
    how [os.path.join] puts two components together, whether
    [os.makedirs(path, exist_ok=True)] succeeds and whether
    [open(path, 'w')] does.  A refused call raises [OSError], which no
    exporter catches; the files written before stay written.  A path
    of more than two components is joined from the left, as
    [posixpath.join] does it, and a file that opens takes the whole
    text: a text the platform's encoding refuses and a full device are
    left out. *)

Module Files.
Import PyStr Py.

Class FileSystem := {
  path_join : string -> string -> string;
  makedirs : string -> bool;
  writable : string -> bool
}.

Abbreviation files := (gmap string string).

Inductive exc :=
| PyError (e : pyexc)
| OSError.

Inductive outcome (A : Type) :=
| Returned (a : A)
| Raised (e : exc).
Arguments Returned {A} a.
Arguments Raised {A} e.

Definition io (A : Type) : Type := files -> outcome A * files.

Definition io_ret {A} (a : A) : io A := fun fs => (Returned a, fs).

Definition io_raise {A} (e : exc) : io A := fun fs => (Raised e, fs).

Definition io_bind {A B} (m : io A) (k : A -> io B) : io B :=
  fun fs =>
    match m fs with
    | (Returned a, fs') => k a fs'
    | (Raised e, fs') => (Raised e, fs')
    end.

Declare Scope io_scope.
Delimit Scope io_scope with io.
Notation "x <- m ;; k" := (io_bind m (fun x => k))
  (at level 20, m at level 99, k at level 200, only parsing) : io_scope.

Fixpoint io_fold {A B} (f : B -> A -> io B) (l : list A) (b : B) : io B :=
  match l with
  | [] => io_ret b
  | x :: l' => io_bind (f b x) (io_fold f l')
  end.

(** The newline character and ['\n'.join(lines)] *)
Definition nl : string := String (ascii_of_nat 10) EmptyString.

Fixpoint join_lines (lines : list string) : string :=
  match lines with
  | [] => ""
  | [x] => x
  | x :: rest => x +:+ nl +:+ join_lines rest
  end.

Section WithFileSystem.
Context {fsys : FileSystem}.

(** [os.makedirs(path, exist_ok=True)] *)
Definition io_makedirs (path : string) : io unit :=
  fun fs => if makedirs path then (Returned tt, fs) else (Raised OSError, fs).

(** [with open(path, 'w') as f: f.write(text)] *)
Definition io_write (path text : string) : io unit :=
  fun fs => if writable path then (Returned tt, <[path := text]> fs) else (Raised OSError, fs).
End WithFileSystem.
End Files.

(** ** The file executor ([src/src/rcon_client.py]) *)

Module FileExecutor.
Import PyStr Py RCON Files.

(** [json.dump(mcmeta, f, indent=2)] for the [mcmeta] of
    [save_as_datapack] *)
Definition mcmeta_text : string :=
  join_lines
    ["{";
     "  " +:+ dquote +:+ "pack" +:+ dquote +:+ ": {";
     "    " +:+ dquote +:+ "pack_format" +:+ dquote +:+ ": 15,";
     "    " +:+ dquote +:+ "description" +:+ dquote +:+ ": " +:+ dquote
       +:+ "BBS AI Agent Generated Animation" +:+ dquote;
     "  }";
     "}"].

Section WithFileSystem.
Context {fsys : FileSystem}.

(** [CommandFileExecutor.__init__]; the instance is its
    [output_dir]. *)
Definition new_executor (output_dir : string) : io string :=
  (_ <- io_makedirs output_dir ;;
   io_ret output_dir)%io.

(** The loop of [save_as_datapack] over the sorted commands *)
Definition datapack_lines (commands : list timed_command) : list string :=
  fold_left
    (fun main_lines cmd_data =>
       let command := command_of cmd_data in
       if negb (startswith "#" command) then main_lines ++ [command] else main_lines)
    (sorted_by tick_of commands)
    ["# BBS AI Agent - Main Animation Controller"; ""].

(** [CommandFileExecutor.save_as_datapack] *)
Definition save_as_datapack (output_dir : string) (commands : list timed_command)
    (pack_name : string) : io string :=
  (let pack_dir := path_join output_dir pack_name in
   let func_dir := path_join (path_join (path_join pack_dir "data") pack_name) "functions" in
   _ <- io_makedirs func_dir ;;
   _ <- io_write (path_join pack_dir "pack.mcmeta") mcmeta_text ;;
   let main_lines := datapack_lines commands in
   _ <- io_write (path_join func_dir "main.mcfunction") (join_lines main_lines) ;;
   io_ret pack_dir)%io.
End WithFileSystem.
End FileExecutor.

(** ** Export of a script ([export_to_mcfunction], [src/src/bbs_commands.py]) *)

Module Exporter.
Import PyStr Py BBS Files.

Section WithFileSystem.
Context {fsys : FileSystem}.

(** The inner loop over [scene['commands']] *)
Definition scene_lines (nm : string) (ss : scene_script) : list string :=
  fold_left
    (fun lines cmd_data =>
       if negb (String.eqb (command_type cmd_data) "comment")
       then lines ++ ["# Tick " +:+ pretty (tick cmd_data) +:+ ": " +:+ description cmd_data;
                      command cmd_data; ""]
       else lines)
    (ss_commands ss)
    ["# Scene: " +:+ nm; "# Duration: " +:+ pretty (ss_duration_ticks ss) +:+ " ticks"; ""].

(** The body of the loop over [script.get('scenes', [])]; the state is
    [files_created] and [main_lines].  [scene['name'].replace] raises
    [AttributeError] unless the name is a text. *)
Definition export_scene (output_dir : string) (st : list string * list string)
    (ss : scene_script) : io (list string * list string) :=
  (let '(files_created, main_lines) := st in
   match ss_name ss with
   | VStr nm =>
       let scene_name := lower (replace_char " " "_" nm) in
       let filename := scene_name +:+ ".mcfunction" in
       let filepath := path_join output_dir filename in
       let lines := scene_lines nm ss in
       _ <- io_write filepath (join_lines lines) ;;
       io_ret (files_created ++ [filepath],
               main_lines
                 ++ ["# Scene: " +:+ nm +:+ " - " +:+ pretty (ss_duration_ticks ss) +:+ " ticks";
                     "function bbs_agent:" +:+ scene_name; ""])
   | _ => io_raise (PyError AttributeError)
   end)%io.

(** [export_to_mcfunction] *)
Definition export_to_mcfunction (r : script) (output_dir : string) : io (list string) :=
  (_ <- io_makedirs output_dir ;;
   st <- io_fold (export_scene output_dir) (scenes r)
           ([], ["# Auto-generated by BBS AI Agent"; ""]) ;;
   let '(files_created, main_lines) := st in
   let main_path := path_join output_dir "main.mcfunction" in
   _ <- io_write main_path (join_lines main_lines) ;;
   io_ret (files_created ++ [main_path]))%io.
End WithFileSystem.
End Exporter.

(** ** Running the commands of the chat application ([src/app.py]) *)

Module App.
Import PyStr Py SafetyFilter.

(** An item of [results]: the text [f"✓ {cmd[:50]}... → {response}"]
    of a command that ran, given by its two variable parts, or the
    text [f"❌ Connection error: {e}"]. *)
Inductive report :=
| Executed (shown response : string)
| ConnectionError (message : string).

(** What [execute_commands_realtime] does to the outside world: a call
    [mcr.command(cmd)] and a call [time.sleep(delay)]. *)
Inductive app_event :=
| Sent (cmd : string)
| Paused (delay : float).

(** [cmd[:n]] *)
Fixpoint str_take (n : nat) (s : string) : string :=
  match n, s with
  | S n', String c s' => String c (str_take n' s')
  | _, _ => EmptyString
  end.

(** [cmd.startswith("#") or not cmd.strip()] *)
Definition skipped (cmd : string) : bool :=
  startswith "#" cmd || String.eqb (strip cmd) "".

Section Transport.
Variable conn : Type.
Variable mcr_command : conn -> string -> conn * (string + string).

(** The clock: [time.sleep(delay)] returns ([None]) or raises
    ([Some], the text of the exception). *)
Variable time_sleep : float -> option string.

(** The variables of the loop of [execute_commands_realtime] *)
Record run_state := mkRunState {
  server : conn;
  results : list report;
  trace : list app_event
}.

(** The loop: an exception of [mcr.command] or of [time.sleep] leaves
    it, and the [except] clause appends the connection error. *)
Fixpoint run_commands (delay : float) (commands : list string) (st : run_state)
  : list report * list app_event :=
  match commands with
  | [] => (results st, trace st)
  | cmd :: rest =>
      if skipped cmd then run_commands delay rest st
      else
        let '(server', reply) := mcr_command (server st) cmd in
        let trace := trace st ++ [Sent cmd] in
        match reply with
        | inr e => (results st ++ [ConnectionError e], trace)
        | inl response =>
            let results := results st ++ [Executed (str_take 50 cmd) response] in
            match time_sleep delay with
            | Some e => (results ++ [ConnectionError e], trace)
            | None =>
                run_commands delay rest (mkRunState server' results (trace ++ [Paused delay]))
            end
        end
  end.

(** [execute_commands_realtime]; [connect] is what entering
    [with MCRcon(...)] does: it raises ([inl]) or yields the open
    connection. *)
Definition execute_commands_realtime (connect : string + conn) (commands : list string)
    (delay : float) : list report * list app_event :=
  match connect with
  | inl e => ([ConnectionError e], [])
  | inr mcr => run_commands delay commands (mkRunState mcr [] [])
  end.

(** The commands [execute_commands_realtime] sent, in order. *)
Definition sent (events : list app_event) : list string :=
  omap (fun ev => match ev with Sent cmd => Some cmd | Paused _ => None end) events.
End Transport.
Arguments mkRunState {conn} server results trace.
Arguments server {conn} r.
Arguments results {conn} r.
Arguments trace {conn} r.
Arguments run_commands {conn} mcr_command time_sleep delay commands st.
Arguments execute_commands_realtime {conn} mcr_command time_sleep connect commands delay.
End App.

(** ** Reading aids for the statements

    Nothing below is translated from the sources: these are the
    vocabulary of the theorems (sums of declared durations, the keys a
    storyboard can register, well-formed storyboards, documented
    defaults) and the concrete inputs of the examples. *)

Module Timeline.
Import Py BBS.

Definition sumZ (l : list Z) : Z := foldr Z.add 0 l.

(** The duration a scene declares, in ticks: [duration_seconds * 20],
    30 seconds when the field is absent. *)
Definition declared_ticks (sc : scene) : Z := default 30 (sc_duration_seconds sc) * TPS.

(** [c'] is the command [c] moved by [off] ticks: its tick is that of
    [c] plus [off], and nothing else differs. *)
Definition moved_by (off : Z) (c c' : BBSCommand) : Prop :=
  tick c' = tick c + off
  /\ command c' = command c
  /\ description c' = description c
  /\ command_type c' = command_type c.

(** What [generate_full_script] appends to [result["scenes"]] for the
    compiled scenes [seqs], starting at offset [off]. *)
Fixpoint scripts_from (off : Z) (seqs : list CommandSequence) : list scene_script :=
  match seqs with
  | [] => []
  | seq :: rest =>
      mkSceneScript (name seq) off (duration_ticks seq)
        (sorted_by tick (map (offset_tick off) (commands seq)))
        :: scripts_from (off + duration_ticks seq) rest
  end.

Section WithNative.
Context {native : PyNative}.

(** The runs of [generate_scene_commands] that [generate_full_script]
    makes: the scenes in order, on the same generator. *)
Fixpoint compile_scenes (scs : list scene) : gen (list CommandSequence) :=
  match scs with
  | [] => gen_ret []
  | sc :: rest =>
      (seq <- generate_scene_commands sc ;;
       seqs <- compile_scenes rest ;;
       gen_ret (seq :: seqs))%gen
  end.
End WithNative.
End Timeline.

Module RegistryKeys.
Import Py BBS.

(** The key under which a spawn of [act] registers. *)
Definition actor_key (act : actor) : string := default "actor_001" (ac_id act).



End RegistryKeys.

Module Defaults.
Import Py BBS.

(** Each record with every absent field written out with the default
    that the corresponding [get] names. *)
Definition action_defaults (a : action) : action :=
  Action (Some (default 0 (a_tick a)))
    (Some (default (VStr "idle") (a_type a)))
    (Some (default (default_position 64) (a_position a)))
    (Some (default (default_position 64) (a_target_position a)))
    (Some (default (VStr "0 0 0") (a_target a))).

(** The actor id has two defaults (['unknown'] in the sequence name,
    ['actor_001'] as registry key), so it stays as it is. *)
Definition actor_defaults (act : actor) : actor :=
  Actor (ac_id act)
    (Some (default (VStr "actor") (ac_name act)))
    (Some (default (VStr "unknown") (ac_type act)))
    (Some (map action_defaults (default [] (ac_actions act)))).

Definition movement_defaults (mv : movement) : movement :=
  Movement (Some (default 0 (m_tick_start mv)))
    (Some (default 100 (m_tick_end mv)))
    (Some (default (VStr "static") (m_type mv)))
    (Some (default (default_position 70) (m_position mv)))
    (Some (default (default_position 64) (m_center mv)))
    (Some (default (VInt 10) (m_radius mv)))
    (Some (default (VInt 0) (m_start_angle mv)))
    (Some (default (VInt 360) (m_end_angle mv)))
    (Some (default (VInt 5) (m_height mv)))
    (Some (default (default_position 70) (m_start_position mv)))
    (Some (default (VList [VInt 10; VInt 70; VInt 0]) (m_end_position mv)))
    (Some (default VNone (m_look_at mv)))
    (Some (default VNone (m_target mv)))
    (Some (default (VInt 5) (m_distance mv))).

Definition fov_defaults (kf : fov_keyframe) : fov_keyframe :=
  FovKeyframe (Some (default 0 (f_tick kf))) (Some (default (VInt 70) (f_fov kf))).

Definition camera_defaults (cam : camera) : camera :=
  Camera (Some (map movement_defaults (default [] (c_movements cam))))
    (Some (map fov_defaults (default [] (c_fov_keyframes cam)))).

Definition effect_defaults (eff : effect) : effect :=
  Effect (Some (default 0 (e_tick eff)))
    (Some (default (VStr "particles") (e_type eff)))
    (Some (default (VStr "cloud") (e_particle_type eff)))
    (Some (default (default_position 64) (e_position eff)))
    (Some (default (VInt 10) (e_count eff))).

(** The items of a mapping with the key [key] written out when it is
    absent. *)
Definition with_default (key : string) (dflt : pyval) (d : list (string * pyval))
  : list (string * pyval) :=
  match dict_get d key with
  | Some _ => d
  | None => d ++ [(key, dflt)]
  end.

(** A setting that is no mapping has no field to write out. *)
Definition setting_defaults (setting : pyval) : pyval :=
  match setting with
  | VDict d =>
      VDict (with_default "world_modifications" (VList [])
               (with_default "weather" (VStr "clear")
                  (with_default "time_of_day" (VStr "day") d)))
  | _ => setting
  end.

Definition scene_defaults (sc : scene) : scene :=
  Scene (Some (default (VStr "unnamed_scene") (sc_name sc)))
    (Some (default 30 (sc_duration_seconds sc)))
    (Some (setting_defaults (scene_setting sc)))
    (Some (map actor_defaults (default [] (sc_actors sc))))
    (Some (camera_defaults (default (Camera None None) (sc_camera sc))))
    (Some (map effect_defaults (default [] (sc_effects sc)))).

Definition storyboard_defaults (sb : storyboard) : storyboard :=
  Storyboard (Some (default (VStr "Untitled") (sb_title sb)))
    (Some (map scene_defaults (default [] (sb_scenes sb)))).
End Defaults.

Module WellFormed.
Import PyStr Py BBS Timeline.

(** A value with three components to index: a list or a text of at
    least three items. *)
Definition has_three (v : pyval) : bool :=
  match v with
  | VList l => (3 <=? length l)%nat
  | VStr s => (3 <=? length (chars s))%nat
  | _ => false
  end.

(** An optional field that is absent or a text. *)
Definition is_text (o : option pyval) : bool :=
  match o with
  | None | Some (VStr _) => true
  | Some _ => false
  end.

(** The target of a [look_at] action: three coordinates, or a name. *)
Definition wf_target (target : pyval) : bool :=
  match target with
  | VList l => (3 <=? length l)%nat
  | VStr s => if looks_like_coords s then (3 <=? length (split s))%nat else true
  | _ => false
  end.

Definition wf_action (a : action) : bool :=
  let ty := default (VStr "idle") (a_type a) in
  if py_eq_str ty "walk_to" || py_eq_str ty "run_to"
  then has_three (default (default_position 64) (a_target_position a))
  else if py_eq_str ty "teleport"
  then has_three (default (default_position 64) (a_position a))
  else if py_eq_str ty "look_at"
  then wf_target (default (VStr "0 0 0") (a_target a))
  else true.

Definition wf_actor (act : actor) : bool :=
  is_text (ac_name act) && is_text (ac_type act)
  && forallb wf_action (default [] (ac_actions act)).

(** The frames of an orbit or dolly over [tick_start, tick_end]: either
    there is none, or the frame count is positive and every
    interpolated tick is a finite float. *)
Definition wf_interval (tick_start tick_end : Z) : bool :=
  let frames := num_frames tick_start tick_end in
  (frames + 1 <=? 0)
  || (1 <=? frames)
     && forallb
          (fun i => is_ok (res_bind (int_truediv i frames) (frame_tick tick_start tick_end)))
          (range (frames + 1)).

Definition wf_look_at (v : pyval) : bool := negb (py_truthy v) || py_hashable v.

Definition wf_effect (eff : effect) : bool :=
  if py_eq_str (default (VStr "particles") (e_type eff)) "particles"
  then py_hashable (default (VStr "cloud") (e_particle_type eff))
       && has_three (default (default_position 64) (e_position eff))
  else true.

(** A setting: a mapping whose time of day and weather can be hashed
    and whose world modifications can be iterated and are texts. *)
Definition wf_setting (setting : pyval) : bool :=
  match setting with
  | VDict d =>
      py_hashable (default (VStr "day") (dict_get d "time_of_day"))
      && py_hashable (default (VStr "clear") (dict_get d "weather"))
      && match py_iter (default (VList []) (dict_get d "world_modifications")) with
         | Ok mods => forallb (fun v => match v with VStr _ => true | _ => false end) mods
         | Raise _ => false
         end
  | _ => false
  end.

Section WithNative.
Context {native : PyNative}.

(** A coordinate that is not a number: [None], a list, a mapping, or
    a text that [float] rejects once its tildes are dropped. *)
Definition non_numeric (x : pyval) : bool :=
  match x with
  | VNone | VList _ | VDict _ => true
  | VStr s =>
      let val := replace_char "~" "" s in
      match float_of_str (if String.eqb val "" then "0" else val) with
      | Some _ => false
      | None => true
      end
  | VBool _ | VInt _ | VFloat _ => false
  end.

(** A value [float] accepts. *)
Definition wf_number (v : pyval) : bool :=
  match v with
  | VBool _ | VFloat _ => true
  | VInt z => is_ok (float_of_int z)
  | VStr s => match float_of_str s with Some _ => true | None => false end
  | VNone | VList _ | VDict _ => false
  end.

(** A position for [_parse_pos]: at least three items, no integer
    beyond the floats. *)
Definition wf_position (v : pyval) : bool :=
  match py_iter v with
  | Ok items =>
      (3 <=? length items)%nat
      && forallb (fun x => match x with VInt z => is_ok (float_of_int z) | _ => true end)
           items
  | Raise _ => false
  end.

(** The angles of an orbit: no frame's angle is infinite, so that
    [math.cos] and [math.sin] accept it. *)
Definition wf_angles (start_angle end_angle : pyval) (tick_start tick_end : Z) : bool :=
  let frames := num_frames tick_start tick_end in
  match py_float start_angle, py_float end_angle with
  | Ok s, Ok e =>
      forallb
        (fun i =>
           match int_truediv i frames with
           | Ok t => negb (is_infinity (radians (s + (e - s) * t)%float))
           | Raise _ => true
           end)
        (range (frames + 1))
  | _, _ => false
  end.

Definition wf_movement (mv : movement) : bool :=
  let ty := default (VStr "static") (m_type mv) in
  let tick_start := default 0 (m_tick_start mv) in
  let tick_end := default 100 (m_tick_end mv) in
  if py_eq_str ty "static"
  then has_three (default (default_position 70) (m_position mv))
  else if py_eq_str ty "orbit"
  then wf_position (default (default_position 64) (m_center mv))
       && wf_number (default (VInt 10) (m_radius mv))
       && wf_number (default (VInt 0) (m_start_angle mv))
       && wf_number (default (VInt 360) (m_end_angle mv))
       && wf_number (default (VInt 5) (m_height mv))
       && wf_interval tick_start tick_end
       && wf_angles (default (VInt 0) (m_start_angle mv))
            (default (VInt 360) (m_end_angle mv)) tick_start tick_end
  else if py_eq_str ty "dolly"
  then wf_position (default (default_position 70) (m_start_position mv))
       && wf_position (default (VList [VInt 10; VInt 70; VInt 0]) (m_end_position mv))
       && wf_look_at (default VNone (m_look_at mv))
       && wf_interval tick_start tick_end
  else true.

Definition wf_scene (sc : scene) : bool :=
  wf_setting (scene_setting sc)
  && forallb wf_actor (default [] (sc_actors sc))
  && forallb wf_movement
       (default [] (c_movements (default (Camera None None) (sc_camera sc))))
  && forallb wf_effect (default [] (sc_effects sc)).

(** Every present field has the type the compiler indexes, lowers,
    iterates, hashes or converts it at, every integer that becomes a
    float is within the floats, and so is the total duration in
    seconds.  With the typed fields of the records ([storyboard],
    [scene], [actor], [action], [camera], [movement], [fov_keyframe],
    [effect]: lists of mappings, integer ticks and durations, text
    ids) these are all the conditions of a well-formed storyboard:

    - the setting is a mapping, its time of day and its weather can be
      hashed, its world modifications can be iterated and are texts;
    - the name and the type of an actor are texts;
    - the target position of a [walk_to] or [run_to], the position of
      a [teleport], of a static camera and of a particle effect are a
      list or a text of at least three items;
    - the target of a [look_at] is a list of at least three items or a
      text, of at least three parts when it reads as coordinates;
    - the particle type of a particle effect can be hashed;
    - the centre of an orbit and the two ends of a dolly can be
      iterated, have at least three items and no integer beyond the
      floats;
    - the radius, the height and the two angles of an orbit are
      accepted by [float], and no frame has an infinite angle;
    - the [look_at] of a dolly is empty or can be hashed;
    - the interval of an orbit or dolly has no frame at all, or a
      positive frame count and frame ticks that are finite floats;
    - the sum of the declared durations divided by 20 is a float. *)
Definition wf_storyboard (sb : storyboard) : bool :=
  forallb wf_scene (default [] (sb_scenes sb))
  && is_ok (int_truediv (sumZ (map declared_ticks (default [] (sb_scenes sb)))) TPS).
End WithNative.
End WellFormed.

Module Samples.
Import PyStr Py BBS.

(** The value of a text of decimal digits. *)
Fixpoint digits_value (acc : Z) (s : string) : option Z :=
  match s with
  | EmptyString => Some acc
  | String c s' =>
      let n := N_of_ascii c in
      if ((48 <=? n) && (n <=? 57))%N
      then digits_value (10 * acc + Z.of_N (n - 48)) s'
      else None
  end.

Definition sample_float_of_str (s : string) : option float :=
  match s with
  | EmptyString => None
  | _ => match digits_value 0 s with
         | Some z => match float_of_int z with Ok f => Some f | Raise _ => None end
         | None => None
         end
  end.

Definition sample_float_repr (f : float) : string :=
  match int_of_float f with
  | Ok z => pretty z +:+ ".0"
  | Raise _ => "nan"
  end.

(** A native layer for the closed examples.  It agrees with CPython on
    what the examples reach: a text of decimal digits is that number,
    a text with a letter is no number, an integral float prints as
    [N.0]; cosine and sine are those of angle 0. *)
Definition sample_native : PyNative :=
  {| py_cos := fun _ => 1%float; py_sin := fun _ => 0%float;
     float_of_str := sample_float_of_str; float_repr := sample_float_repr |}.

Definition spawn_at (tk : Z) : action := Action (Some tk) (Some (VStr "spawn")) None None None.

(** An orbit or dolly with only its interval given. *)
Definition plain_movement (kind : string) (ts te : Z) : movement :=
  Movement (Some ts) (Some te) (Some (VStr kind))
    None None None None None None None None None None None.

(** The custom-name attribute of a creation command. *)
Definition custom_name (nm : string) : string :=
  "{CustomName:'{" +:+ dquote +:+ "text" +:+ dquote +:+ ":" +:+ dquote +:+ nm +:+ dquote +:+ "}'}".


(** Scenes of 30 and 20 seconds; the first one has a command at tick
    900, beyond its 600 declared ticks. *)
Definition two_scene_board : storyboard :=
  Storyboard (Some (VStr "Two scenes"))
    (Some [Scene (Some (VStr "first")) (Some 30) None
             (Some [Actor (Some "z1") (Some (VStr "Zoro")) (Some (VStr "zombie"))
                      (Some [spawn_at 0;
                             Action (Some 900) (Some (VStr "walk_to")) None
                               (Some (VList [VInt 110; VInt 64; VInt 100])) None])])
             None None;
           Scene (Some (VStr "second")) (Some 20) None None None None]).

Definition board_of_actor (act : actor) : storyboard :=
  Storyboard None (Some [Scene None None None (Some [act]) None None]).

Definition walker (target_position : pyval) : actor :=
  Actor (Some "a1") (Some (VStr "Bob")) (Some (VStr "villager"))
    (Some [Action (Some 0) (Some (VStr "walk_to")) None (Some target_position) None]).

Definition rich_board : storyboard :=
  Storyboard None
    (Some [Scene (Some (VStr "Titan Awakening")) (Some 30)
             (Some (VDict [("time_of_day", VStr "sunset"); ("weather", VInt 3);
                           ("world_modifications",
                            VList [VStr "ancient castle"; VStr "moat"])]))
             (Some [Actor (Some "villager_1") (Some (VStr "farmer")) None
                      (Some [spawn_at 0;
                             Action (Some 40) (Some (VStr "walk_to")) None
                               (Some (VList [VInt 110; VInt 64; VInt 100])) None;
                             Action (Some 60) (Some (VStr "look_at")) None None
                               (Some (VStr "1 2 3"));
                             Action (Some 70) (Some (VStr "look_at")) None None
                               (Some (VStr "Zoro"));
                             Action (Some 100) (Some (VStr "morph")) None None None;
                             Action None None None None None])])
             (Some (Camera
                      (Some [Movement (Some 0) (Some 200) (Some (VStr "orbit"))
                               None (Some (VList [VStr "abc"; VInt 64; VStr "~"; VNone]))
                               (Some (VInt 15)) None (Some (VInt 180)) (Some (VStr "8"))
                               None None None None None;
                             Movement (Some 10) (Some 3) (Some (VStr "dolly"))
                               None None None None None None None None
                               (Some (VStr "villager_1")) None None;
                             Movement None None None None None None None None None
                               None None None None None])
                      (Some [FovKeyframe None None])))
             (Some [Effect (Some 100) None (Some (VStr "explosion")) None (Some (VInt 30));
                    Effect None (Some (VStr "sound")) None None None])]).



(** The command texts of a script, scene by scene. *)
Definition texts (r : script) : list (list string) :=
  map (fun ss => map command (ss_commands ss)) (scenes r).

(** A server that answers every command with its own text. *)
Definition echo (_ : unit) (cmd : string) : unit * (string + string) := (tt, inl cmd).

(** A server that refuses every command whose text is ["boom"]. *)
Definition picky (n : nat) (cmd : string) : nat * (string + string) :=
  (S n, if String.eqb cmd "boom" then inr "refused" else inl "done").

(** A clock that rejects a negative length, as [time.sleep] does, and
    accepts every other one. *)
Definition clock (ms : Z) : option string :=
  if ms <? 0 then Some "sleep length must be non-negative" else None.
End Samples.

(** ** Reading aids for the further properties *)

Module Layout.
Import PyStr Py BBS.

(** The number of commands the loop of [_generate_actor_commands] adds
    for an action of type [action_type]: two for an attack or swipe, one
    for the other kinds it knows, none for any other value. *)
Definition emitted (action_type : pyval) : nat :=
  if py_eq_str action_type "attack" || py_eq_str action_type "swipe" then 2
  else if py_eq_str action_type "spawn" || py_eq_str action_type "walk_to"
          || py_eq_str action_type "run_to" || py_eq_str action_type "sit"
          || py_eq_str action_type "teleport" || py_eq_str action_type "jump"
          || py_eq_str action_type "interact" || py_eq_str action_type "look_at"
  then 1
  else 0.

(** The ticks of the commands an action list gives rise to. *)
Definition action_ticks (actions : list action) : list Z :=
  flat_map (fun a => replicate (emitted (default (VStr "idle") (a_type a)))
                       (default 0 (a_tick a))) actions.

(** The largest of [d] and the numbers in [l]. *)
Definition max_from (d : Z) (l : list Z) : Z := fold_left Z.max l d.

(** [seq'] is [seq] with commands of type minecraft added through
    [CommandSequence.add], at the ticks [ticks]. *)
Definition adds (seq seq' : CommandSequence) (ticks : list Z) : Prop :=
  exists l,
    commands seq' = commands seq ++ l
    /\ map tick l = ticks
    /\ Forall (fun c => command_type c = "minecraft") l
    /\ name seq' = name seq
    /\ duration_ticks seq' = max_from (duration_ticks seq) ticks.

(** [seq'] is [seq] with more commands at its end. *)
Definition extends (seq seq' : CommandSequence) : Prop :=
  (exists l, commands seq' = commands seq ++ l) /\ name seq' = name seq.

(** [seq'] is [seq] with one more command, and [n] more commands, of
    type camera. *)
Definition one_more (seq seq' : CommandSequence) : Prop :=
  exists c, commands seq' = commands seq ++ [c] /\ command_type c = "camera".

Definition more (n : nat) (seq seq' : CommandSequence) : Prop :=
  exists cmds,
    commands seq' = commands seq ++ cmds /\ length cmds = n
    /\ Forall (fun c => command_type c = "camera") cmds.

(** An action of type spawn. *)
Definition is_spawn (a : action) : bool :=
  py_eq_str (default (VStr "idle") (a_type a)) "spawn".

(** [v] is a text. *)
Definition is_str (v : pyval) : bool :=
  match v with VStr _ => true | _ => false end.

(** [str.lower] followed by [replace(" ", "_")], the normal form of
    names and types. *)
Definition normalised (s : string) : string := replace_char " " "_" (lower s).

(** The entry a spawn action [a] of the actor named [nm] of type [ty]
    registers. *)
Definition spawn_entry (nm ty : string) (a : action) : entry :=
  mkEntry nm (default (default_position 64) (a_position a))
    (spawn_entity_id (normalised ty) (normalised nm)).

(** A name the selector takes for a kind of entity, not for one
    entity. *)
Definition generic_name (clean_name clean_type : string) : bool :=
  existsb (String.eqb clean_name) known_types || String.eqb clean_name clean_type.

(** The selector by entity type and the selector by name. *)
Definition by_type (entity_type : string) : string :=
  "@e[type=" +:+ entity_type +:+ ",sort=nearest,limit=1]".

Definition by_name (nm : string) : string :=
  "@e[name=" +:+ dquote +:+ nm +:+ dquote +:+ ",sort=nearest,limit=1]".

(** The items that the world-modification loop of a scene visits. *)
Definition scene_modifications (sc : scene) : res (list pyval) :=
  (world_modifications <- py_get (scene_setting sc) "world_modifications" (VList []) ;;
   py_iter world_modifications)%res.

(** The command of the world modification [label] at index [i]. *)
Definition build_command (i : nat) (label : string) : BBSCommand :=
  mkBBSCommand (Z.of_nat i * 5) (world_mod_command (lower label) label)
    ("Build " +:+ label) "minecraft".

(** The key a camera movement is dispatched on. *)
Definition movement_kind (mv : movement) : pyval := default (VStr "static") (m_type mv).

(** The frame count of a movement's interval. *)
Definition frames_of (mv : movement) : Z :=
  num_frames (default 0 (m_tick_start mv)) (default 100 (m_tick_end mv)).

End Layout.

Module SchedulerLayout.
Import PyStr Py RCON.

(** The commands of a list that are no comments. *)
Definition to_submit (cmds : list timed_command) : list string :=
  List.filter (fun c => negb (is_comment c)) (map command_of cmds).

(** The milliseconds an event list pauses for, all in all. *)
Definition total_pause (events : list event) : Z := foldr Z.add 0 (sleeps events).

(** The highest of [d] and the ticks of [cmds]. *)
Definition highest (d : Z) (cmds : list timed_command) : Z :=
  foldr (fun c m => Z.max (tick_of c) m) d cmds.

(** The tick at which a command list ends: its highest tick, and 0 for
    the empty list. *)
Definition timeline (cmds : list timed_command) : Z := highest 0 cmds.

(** No command of the list is a comment. *)
Definition no_comment (cmds : list timed_command) : Prop :=
  Forall (fun c => is_comment (command_of c) = false) cmds.
End SchedulerLayout.

Module ExportLayout.
Import PyStr Py BBS Files Exporter.

(** The name of a scene when it is a text. *)
Definition text_name (ss : scene_script) : option string :=
  match ss_name ss with
  | VStr nm => Some nm
  | _ => None
  end.

(** The lines a scene adds to the orchestrator. *)
Definition main_entry (ss : scene_script) : list string :=
  match text_name ss with
  | Some nm =>
      ["# Scene: " +:+ nm +:+ " - " +:+ pretty (ss_duration_ticks ss) +:+ " ticks";
       "function bbs_agent:" +:+ lower (replace_char " " "_" nm); ""]
  | None => []
  end.

(** The text of the orchestrator of a script. *)
Definition main_text (r : script) : string :=
  join_lines (["# Auto-generated by BBS AI Agent"; ""] ++ flat_map main_entry (scenes r)).

(** Writing the files [writes] (path and text) one after the other. *)
Definition write_all (fs : files) (writes : list (string * string)) : files :=
  fold_left (fun fs w => <[fst w := snd w]> fs) writes fs.

Section WithFileSystem.
Context {fsys : FileSystem}.

Definition scene_path (output_dir nm : string) : string :=
  path_join output_dir (lower (replace_char " " "_" nm) +:+ ".mcfunction").

Definition main_path (output_dir : string) : string :=
  path_join output_dir "main.mcfunction".

(** The file of a scene: its path and its text; none when the name is
    no text. *)
Definition scene_file (output_dir : string) (ss : scene_script) : option (string * string) :=
  match text_name ss with
  | Some nm => Some (scene_path output_dir nm, join_lines (scene_lines nm ss))
  | None => None
  end.

(** The files of [scs] are [writes], and the file system takes each of
    them. *)
Definition scene_files (output_dir : string) (scs : list scene_script)
    (writes : list (string * string)) : Prop :=
  Forall2 (fun ss w => scene_file output_dir ss = Some w /\ writable (fst w) = true) scs writes.
End WithFileSystem.
End ExportLayout.

Module AppLayout.
Import PyStr Py App.

(** The commands of a list that are neither comments nor blank. *)
Definition real (commands : list string) : list string :=
  List.filter (fun c => negb (skipped c)) commands.


(** Some report is a connection error. *)
Definition failed (results : list report) : bool :=
  existsb (fun r => match r with ConnectionError _ => true | Executed _ _ => false end) results.
End AppLayout.

Module MoreSamples.
Import PyStr Py BBS RCON Files App Samples.

(** A file system for the closed examples: components are joined with
    a slash, every directory can be made, and a path with a colon in it
    cannot be written. *)
Definition sample_fs : FileSystem :=
  {| path_join := fun a b => a +:+ "/" +:+ b;
     makedirs := fun _ => true;
     writable := fun p => negb (contains ":" p) |}.

(** A clock for [time.sleep(delay)] that rejects a negative delay. *)
Definition nap (delay : float) : option string :=
  if (delay <? 0)%float then Some "sleep length must be non-negative" else None.

(** A script of two scenes with text names, and one whose second scene
    has a number for a name. *)
Definition intro_scene : scene_script :=
  mkSceneScript (VStr "Intro") 0 600
    [mkBBSCommand 0 "time set day" "Set time of day" "minecraft";
     mkBBSCommand 5 "# Unknown effect" "Placeholder" "comment"].

Definition named_script : script :=
  mkScript (VStr "Two") 1000
    [intro_scene; mkSceneScript (VStr "The End") 600 400 []] 50%float.

Definition numbered_script : script :=
  mkScript (VStr "Two") 1000
    [intro_scene; mkSceneScript (VInt 7) 600 400 []] 50%float.

(** An actor that spawns, walks, attacks and does something unknown. *)
Definition busy_actor : actor :=
  Actor (Some "a1") (Some (VStr "Bob")) (Some (VStr "villager"))
    (Some [spawn_at 0;
           Action (Some 40) (Some (VStr "walk_to")) None None None;
           Action (Some 30) (Some (VStr "attack")) None None None;
           Action (Some 90) (Some (VStr "morph")) None None None]).
End MoreSamples.

(** ** Proof tools *)

Ltac res_inv H :=
  repeat match type of H with
    | Py.res_bind ?m _ = Py.Ok _ =>
        let E := fresh "E" in destruct m eqn:E; cbn [Py.res_bind] in H; [|discriminate H]
    | (if ?b then _ else _) = Py.Ok _ => let E := fresh "E" in destruct b eqn:E
    | Py.Ok _ = Py.Ok _ => injection H as H
    end.

(** Case analysis on the text [s] against the literal [lit]. *)
Ltac by_kind s lit :=
  destruct (String.eqb_spec s lit) as [->|?N];
  [cbn -[BBS.looks_like_coords PyStr.split BBS.add] in *
  |apply String.eqb_neq in N; rewrite ?N in *; cbn [orb] in *].

(** * Theorems *)

(** ** Sorting by tick *)

Module SortFacts.
Import Py.

Section Key.
Context {A : Type} (key : A -> Z).

Lemma insert_by_perm x l : Permutation (insert_by key x l) (x :: l).
Proof.
  induction l as [|y l IH]; simpl; [done|].
  destruct (key x <=? key y); [done|].
  rewrite IH. apply perm_swap.
Qed.

Lemma sorted_by_perm l : Permutation (sorted_by key l) l.
Proof.
  induction l as [|x l IH]; simpl; [done|].
  rewrite insert_by_perm. by constructor.
Qed.

Lemma sorted_by_length l : length (sorted_by key l) = length l.
Proof. apply Permutation_length, sorted_by_perm. Qed.


Lemma insert_by_ordered x l : ordered key l -> ordered key (insert_by key x l).
Proof.
  unfold ordered. induction 1 as [|y l Hl IH Hy]; simpl.
  - repeat constructor.
  - destruct (key x <=? key y) eqn:E.
    + apply Z.leb_le in E. constructor; [by constructor|].
      constructor; [done|]. eapply Forall_impl; [exact Hy|]. simpl. intros; lia.
    + apply Z.leb_gt in E. constructor; [done|].
      eapply Permutation_Forall; [symmetry; apply insert_by_perm|].
      constructor; [lia|done].
Qed.

Lemma sorted_by_ordered l : ordered key (sorted_by key l).
Proof.
  induction l as [|x l IH]; simpl; [constructor|]. by apply insert_by_ordered.
Qed.

(** Stability: the commands of one tick keep their order. *)
Lemma insert_by_filter (P : A -> bool) x l :
  (forall y, In y l -> P y = true -> P x = true -> key x <= key y) ->
  List.filter P (insert_by key x l) = List.filter P (x :: l).
Proof.
  induction l as [|y l IH]; intros Hle; [done|].
  simpl. destruct (key x <=? key y) eqn:E; [done|].
  apply Z.leb_gt in E. simpl.
  destruct (P y) eqn:Py, (P x) eqn:Px.
  - specialize (Hle y (or_introl eq_refl) Py eq_refl). lia.
  - rewrite IH; [simpl; by rewrite Px|]. intros; discriminate.
  - rewrite IH; [simpl; by rewrite Px|]. intros; apply Hle; [by right|done..].
  - rewrite IH; [simpl; by rewrite Px|]. intros; discriminate.
Qed.

Lemma sorted_by_stable k l :
  List.filter (fun x => key x =? k) (sorted_by key l)
  = List.filter (fun x => key x =? k) l.
Proof.
  induction l as [|x l IH]; [done|].
  simpl sorted_by. rewrite insert_by_filter.
  - simpl. by rewrite IH.
  - intros y _ Hy Hx. apply Z.eqb_eq in Hy, Hx. lia.
Qed.
End Key.
End SortFacts.


(** ** The safety filter *)

Module FilterFacts.
Import PyStr Py SafetyFilter.

Lemma append_cons a s t : String a s +:+ t = String a (s +:+ t).
Proof. reflexivity. Qed.

Lemma append_nil_l t : "" +:+ t = t.
Proof. reflexivity. Qed.

Lemma startswith_refl s : startswith s s = true.
Proof. induction s as [|a s IH]; simpl; [done|]. by rewrite Ascii.eqb_refl. Qed.

Lemma append_assoc a b c : (a +:+ b) +:+ c = a +:+ (b +:+ c).
Proof. induction a as [|x a IH]; [done|]. rewrite !append_cons. by rewrite IH. Qed.

Lemma startswith_app p s : startswith p (p +:+ s) = true.
Proof. induction p as [|a p IH]; [done|]. rewrite append_cons. cbn. by rewrite Ascii.eqb_refl. Qed.

Lemma contains_startswith sub s : startswith sub s = true -> contains sub s = true.
Proof. intros H. destruct s; unfold contains; fold contains; rewrite H; done. Qed.

Lemma contains_self s : contains s s = true.
Proof. apply contains_startswith, startswith_refl. Qed.

Lemma contains_app_r sub x : contains sub (x +:+ sub) = true.
Proof.
  induction x as [|a x IH]; simpl.
  - apply contains_self.
  - rewrite IH. apply orb_true_r.
Qed.

Lemma rstrip_cons c s :
  rstrip s <> "" \/ isspace c = false -> rstrip (String c s) = String c (rstrip s).
Proof.
  intros H. simpl. destruct (rstrip s) eqn:E; [|done].
  destruct H as [H|H]; [done|]. by rewrite H.
Qed.

Lemma safety_filter_map l : safety_filter l = map filter_cmd l.
Proof.
  unfold safety_filter.
  enough (forall acc, fold_left (fun safe_cmds cmd => safe_cmds ++ [filter_cmd cmd]) l acc
                      = acc ++ map filter_cmd l) as H by apply (H []).
  induction l as [|c l IH]; intros acc; simpl.
  - by rewrite app_nil_r.
  - rewrite IH, <- app_assoc. done.
Qed.

Lemma startswith_tp_strip s :
  startswith "tp @" s = true -> startswith "tp @" (strip s) = true.
Proof.
  intros H.
  destruct s as [|a [|b [|c [|d rest]]]]; cbn [startswith] in H;
    rewrite ?andb_false_r in H; try discriminate H.
  rewrite andb_true_r in H.
  apply andb_true_iff in H as [Ha H]. apply andb_true_iff in H as [Hb H].
  apply andb_true_iff in H as [Hc Hd].
  apply Ascii.eqb_eq in Ha, Hb, Hc, Hd. subst.
  unfold strip.
  change (lstrip (String "t" (String "p" (String " " (String "@" rest)))))
    with (String "t" (String "p" (String " " (String "@" rest)))).
  assert (Hat : rstrip (String "@" rest) = String "@" (rstrip rest))
    by (apply rstrip_cons; right; done).
  rewrite (rstrip_cons "t") by (right; done).
  rewrite (rstrip_cons "p") by (right; done).
  rewrite (rstrip_cons " ") by (left; rewrite Hat; done).
  rewrite Hat. done.
Qed.

Lemma tagged_blocked c :
  is_blocked (blocked_tag +:+ c)
  = startswith "tp @a" c || contains " tp @a" c || (startswith "tp @p" c || contains " tp @p" c).
Proof.
  unfold is_blocked, blocked_tag, strip.
  rewrite !append_cons, append_nil_l.
  match goal with |- context [lstrip ?s] => change (lstrip s) with s end.
  rewrite rstrip_cons by (right; done).

  simpl. done.
Qed.

Lemma append_length s t : String.length (s +:+ t) = (String.length s + String.length t)%nat.
Proof. induction s as [|a s IH]; [done|]. rewrite append_cons. simpl. by rewrite IH. Qed.

Lemma tag_not_fixed s : blocked_tag +:+ s <> s.
Proof.
  intros H. apply (f_equal String.length) in H.
  rewrite append_length in H. simpl in H. lia.
Qed.


Lemma filter_cmd_idem_iff c :
  filter_cmd (filter_cmd c) = filter_cmd c <-> (is_blocked c = true -> retagged c = false).
Proof.
  unfold filter_cmd at 2 3. destruct (is_blocked c) eqn:E.
  - unfold filter_cmd. rewrite tagged_blocked. fold (retagged c).
    destruct (retagged c); split; try done.
    + intros H. by apply tag_not_fixed in H.
    + intros H. by specialize (H eq_refl).
  - unfold filter_cmd. rewrite E. split; done.
Qed.

(** C3 (amended). Filtering the output of the filter again yields the
    identical list exactly when no blocked command of the input starts
    with "tp @a" or "tp @p" or contains " tp @a" or " tp @p": the
    placeholder of such a command is matched once more. *)
Theorem safety_filter_idempotent_iff (cmds : list string) :
  safety_filter (safety_filter cmds) = safety_filter cmds
  <-> Forall (fun c => is_blocked c = true -> retagged c = false) cmds.
Proof.
  rewrite !safety_filter_map.
  induction cmds as [|c cmds IH]; simpl.
  - split; [constructor|done].
  - split.
    + intros H. injection H as Hc Hl. constructor.
      * by apply filter_cmd_idem_iff.
      * by apply IH.
    + intros H. inversion H as [|? ? Hc Hl]; subst.
      f_equal; [by apply filter_cmd_idem_iff | by apply IH].
Qed.

Lemma safety_filter_idempotent_iff_witness :
  safety_filter (safety_filter ["tp @e[type=minecraft:cow,sort=nearest,limit=1] 1 2 3"; "say hi"])
  = safety_filter ["tp @e[type=minecraft:cow,sort=nearest,limit=1] 1 2 3"; "say hi"].
Proof.
  apply safety_filter_idempotent_iff.
  repeat constructor; intros _; vm_compute; reflexivity.
Defined.

(** C3 (counterexample). The blocked command "tp @p 1 2 3" is tagged a
    second time by a second pass. *)
Lemma safety_filter_not_idempotent :
  safety_filter ["tp @p 1 2 3"] = ["# BLOCKED UNSAFE COMMAND: tp @p 1 2 3"]
  /\ safety_filter (safety_filter ["tp @p 1 2 3"])
     = ["# BLOCKED UNSAFE COMMAND: # BLOCKED UNSAFE COMMAND: tp @p 1 2 3"].
Proof. split; vm_compute; reflexivity. Qed.

Lemma blocked_of_startswith cmd :
  startswith "tp @" cmd = true -> is_blocked cmd = true.
Proof. intros H. unfold is_blocked. by rewrite (startswith_tp_strip _ H). Qed.

Lemma tp_player_blocked rest : is_blocked ("tp @p " +:+ rest) = true.
Proof. apply blocked_of_startswith. rewrite !append_cons. done. Qed.

(** C4 (amended). The filter keeps length and order; a blocked command
    is replaced in place by one comment-tagged placeholder that
    contains "BLOCKED" and the original text; every output command that
    still matches the blocked pattern is such a placeholder, so no
    command that passed unchanged matches it; a command starting with
    "tp @p " is replaced. *)
Theorem safety_filter_in_place (cmds : list string) :
  length (safety_filter cmds) = length cmds
  /\ (forall (k : nat) cmd, cmds !! k = Some cmd ->
        safety_filter cmds !! k
        = Some (if is_blocked cmd then blocked_tag +:+ cmd else cmd))
  /\ (forall cmd, is_blocked cmd = true ->
        startswith "#" (filter_cmd cmd) = true
        /\ contains "BLOCKED" (filter_cmd cmd) = true
        /\ contains cmd (filter_cmd cmd) = true)
  /\ (forall out, In out (safety_filter cmds) -> is_blocked out = true ->
        startswith "#" out = true
        /\ exists cmd, In cmd cmds /\ is_blocked cmd = true /\ out = blocked_tag +:+ cmd)
  /\ (forall rest, filter_cmd ("tp @p " +:+ rest) = blocked_tag +:+ ("tp @p " +:+ rest)).
Proof.
  rewrite safety_filter_map. repeat split.
  - apply length_map.
  - intros k cmd Hk. rewrite list_lookup_fmap, Hk. done.
  - unfold filter_cmd. rewrite H. unfold blocked_tag. rewrite !append_cons. done.
  - unfold filter_cmd. rewrite H. unfold blocked_tag. rewrite !append_cons. done.
  - unfold filter_cmd. rewrite H. apply contains_app_r.
  - apply in_map_iff in H as (cmd & <- & Hin). unfold filter_cmd in *.
    destruct (is_blocked cmd) eqn:E; [|congruence].
    unfold blocked_tag. rewrite !append_cons. done.
  - apply in_map_iff in H as (cmd & <- & Hin). unfold filter_cmd in *.
    destruct (is_blocked cmd) eqn:E; [|congruence]. eauto.
  - intros rest. unfold filter_cmd. by rewrite tp_player_blocked.
Qed.

(** C4 (counterexample). The placeholder of "tp @p 1 2 3" is in the
    output and matches the blocked pattern: it contains " tp @p". *)
Lemma safety_filter_output_matches_pattern :
  safety_filter ["tp @p 1 2 3"] = ["# BLOCKED UNSAFE COMMAND: tp @p 1 2 3"]
  /\ is_blocked "# BLOCKED UNSAFE COMMAND: tp @p 1 2 3" = true.
Proof. split; vm_compute; reflexivity. Qed.
End FilterFacts.


(** ** The scheduler *)

Module SchedulerFacts.
Import PyStr Py RCON SortFacts Samples.

Section Transport.
Context {conn : Type} (mcr_command : conn -> string -> conn * (string + string)).
Context (time_sleep : Z -> option string).

Abbreviation run_loop := (run_loop mcr_command time_sleep).
Abbreviation loop_body := (loop_body mcr_command time_sleep).
Abbreviation contract_results := (contract_results mcr_command).

(** The clock accepts every length in [lengths]. *)
Abbreviation accepted lengths := (Forall (fun ms => time_sleep ms = None) lengths).

(** One pass of the body does not escape when the clock accepts the
    length it sleeps, and appends exactly what the contract says. *)
Lemma loop_body_runs delay realtime st cmd_data :
  (realtime = true -> accepted (sleeps (contract_events delay (last_tick st) [cmd_data]))) ->
  exists st',
    loop_body delay realtime st cmd_data = Running st'
    /\ results st' = results st ++ contract_results (server st) [cmd_data]
    /\ server st' = (if is_comment (command_of cmd_data) then server st
                     else fst (mcr_command (server st) (command_of cmd_data)))
    /\ last_tick st' = (if is_comment (command_of cmd_data) then last_tick st
                        else tick_of cmd_data)
    /\ trace st' = trace st
         ++ (if realtime
             then contract_events delay (last_tick st) [cmd_data]
             else if is_comment (command_of cmd_data) then []
                  else [Submitted (command_of cmd_data)]).
Proof.
  intros Hd. unfold loop_body. cbn [contract_results contract_events].
  assert ((if realtime && (last_tick st <? tick_of cmd_data)
           then time_sleep ((tick_of cmd_data - last_tick st) * delay) else None)
          = None) as ->.
  { destruct realtime; [|done]. specialize (Hd eq_refl).
    cbn [andb contract_events] in Hd |- *.
    destruct (last_tick st <? tick_of cmd_data); [|done].
    cbn in Hd. by apply Forall_inv in Hd. }
  destruct (is_comment (command_of cmd_data)) eqn:Ec.
  - eexists. split; [reflexivity|]. cbn. repeat split.
    destruct realtime; cbn; [|by rewrite app_nil_r].
    destruct (last_tick st <? tick_of cmd_data); by rewrite ?app_nil_r.
  - destruct (mcr_command (server st) (command_of cmd_data)) as [mcr' reply] eqn:Em.
    eexists. split; [reflexivity|]. cbn. repeat split.
    + by destruct reply.
    + destruct realtime; cbn; [|done].
      destruct (last_tick st <? tick_of cmd_data); cbn; by rewrite <- ?app_assoc.
Qed.

Lemma contract_results_cons mcr cmd_data rest :
  contract_results mcr (cmd_data :: rest)
  = contract_results mcr [cmd_data]
      ++ contract_results
           (if is_comment (command_of cmd_data) then mcr
            else fst (mcr_command mcr (command_of cmd_data))) rest.
Proof.
  cbn [contract_results]. destruct (is_comment _); [done|].
  destruct (mcr_command _ _) as [mcr' [r|e]]; done.
Qed.

Lemma contract_events_cons delay cursor cmd_data rest :
  contract_events delay cursor (cmd_data :: rest)
  = contract_events delay cursor [cmd_data]
      ++ contract_events delay
           (if is_comment (command_of cmd_data) then cursor else tick_of cmd_data) rest.
Proof.
  cbn [contract_events]. rewrite app_nil_r, <- !app_assoc. done.
Qed.

Lemma sleeps_app (l1 l2 : list event) : sleeps (l1 ++ l2) = sleeps l1 ++ sleeps l2.
Proof. apply omap_app. Qed.

Lemma run_loop_runs delay realtime cmds st :
  (realtime = true -> accepted (sleeps (contract_events delay (last_tick st) cmds))) ->
  exists st',
    run_loop delay realtime cmds st = Running st'
    /\ results st' = results st ++ contract_results (server st) cmds
    /\ trace st' = trace st
         ++ (if realtime then contract_events delay (last_tick st) cmds
             else map Submitted
                    (List.filter (fun c => negb (is_comment c)) (map command_of cmds))).
Proof.
  revert st. induction cmds as [|cmd_data rest IH]; intros st Hd.
  - exists st. cbn. destruct realtime; by rewrite !app_nil_r.
  - assert (Hsplit : realtime = true ->
              accepted (sleeps (contract_events delay (last_tick st) [cmd_data]))
              /\ accepted (sleeps (contract_events delay
                                     (if is_comment (command_of cmd_data)
                                      then last_tick st else tick_of cmd_data) rest))).
    { intros Hr. specialize (Hd Hr).
      rewrite contract_events_cons, sleeps_app in Hd. by apply Forall_app in Hd. }
    destruct (loop_body_runs delay realtime st cmd_data (fun Hr => proj1 (Hsplit Hr)))
      as (st1 & Hb & Hr & Hs & Hl & Ht).
    destruct (IH st1) as (st' & Hrun & Hr' & Ht').
    { intros Hrt. rewrite Hl. exact (proj2 (Hsplit Hrt)). }
    exists st'. cbn [RCON.run_loop]. rewrite Hb. split; [done|]. split.
    + rewrite Hr', Hr, Hs, <- app_assoc. by rewrite <- contract_results_cons.
    + rewrite Ht', Ht, Hl, <- app_assoc. f_equal.
      destruct realtime.
      * by rewrite <- contract_events_cons.
      * cbn [map List.filter]. by destruct (is_comment (command_of cmd_data)).
Qed.

Lemma submissions_contract delay cursor cmds :
  submissions (contract_events delay cursor cmds)
  = List.filter (fun c => negb (is_comment c)) (map command_of cmds).
Proof.
  revert cursor. induction cmds as [|c rest IH]; intros cursor; [done|].
  cbn [contract_events map List.filter]. unfold submissions in *.
  rewrite !omap_app, IH.
  destruct (cursor <? tick_of c), (is_comment (command_of c)); done.
Qed.

Lemma submissions_map l : submissions (map Submitted l) = l.
Proof. induction l as [|x l IH]; [done|]. unfold submissions in *. cbn. by rewrite IH. Qed.

Lemma contract_results_length mcr cmds :
  length (contract_results mcr cmds) = length cmds.
Proof.
  revert mcr. induction cmds as [|c rest IH]; intros mcr; [done|].
  cbn [contract_results]. destruct (is_comment _); [cbn; by rewrite IH|].
  destruct (mcr_command _ _) as [mcr' [r|e]]; cbn; by rewrite IH.
Qed.

Lemma execute_sequence_runs mcr commands delay realtime :
  (realtime = true ->
   accepted (sleeps (contract_events delay 0 (sorted_by tick_of commands)))) ->
  let sorted_cmds := sorted_by tick_of commands in
  let out := execute_sequence mcr_command time_sleep true (inr mcr) commands delay realtime in
  fst out = contract_results mcr sorted_cmds
  /\ snd out = (if realtime then contract_events delay 0 sorted_cmds
                else map Submitted
                       (List.filter (fun c => negb (is_comment c))
                          (map command_of sorted_cmds))).
Proof.
  intros Hd. cbv zeta. unfold execute_sequence. cbn [negb].
  destruct (run_loop_runs delay realtime (sorted_by tick_of commands)
              (mkLoopState mcr 0 [] []) Hd) as (st' & -> & Hr & Ht).
  cbn in Hr, Ht. by rewrite Hr, Ht.
Qed.
End Transport.

Lemma filter_perm {A} (f : A -> bool) l l' :
  Permutation l l' -> Permutation (List.filter f l) (List.filter f l').
Proof.
  induction 1 as [|x l l' _ IH|x y l|l1 l2 l3 _ IH1 _ IH2]; simpl.
  - done.
  - destruct (f x); [by constructor|done].
  - destruct (f x), (f y); try done. apply perm_swap.
  - by etrans.
Qed.

Lemma contract_results_lookup {conn} (mcr_command : conn -> string -> conn * (string + string))
    mcr cmds (k : nat) c :
  cmds !! k = Some c ->
  exists r, contract_results mcr_command mcr cmds !! k = Some r
    /\ tick r = tick_of c /\ command r = command_of c
    /\ (is_comment (command_of c) = true -> success r = true /\ response r = "Skipped")
    /\ (is_comment (command_of c) = false ->
        exists mcr_k,
          match snd (mcr_command mcr_k (command_of c)) with
          | inl resp => success r = true /\ response r = resp
          | inr err => success r = false /\ response r = err
          end).
Proof.
  revert mcr k. induction cmds as [|c0 rest IH]; intros mcr k Hk; [done|].
  destruct k as [|k].
  - injection Hk as ->. cbn [contract_results].
    destruct (is_comment (command_of c)) eqn:Ec.
    + eexists. split; [reflexivity|]. cbn. repeat split; done.
    + destruct (mcr_command mcr (command_of c)) as [mcr' reply] eqn:Em.
      destruct reply as [resp|err]; cbn; eexists; (split; [reflexivity|]);
        cbn; repeat split; try done; intros _; exists mcr; rewrite Em; done.
  - cbn in Hk. cbn [contract_results].
    destruct (is_comment (command_of c0)).
    + apply (IH mcr k Hk).
    + destruct (mcr_command mcr (command_of c0)) as [mcr' [resp|err]]; cbn;
        apply (IH mcr' k Hk).
Qed.

(** A sleep that raises is outside the inner [try]: with a negative
    [tick_delay_ms] the first wait abandons the sequence, and the
    commands from there on are neither submitted nor reported. *)
Example negative_delay_abandons_sequence :
  execute_sequence echo clock true (inr tt)
    [TimedCommand (Some 0) (Some "say a"); TimedCommand (Some 20) (Some "say b")] (-50) true
  = ([mkCommandResult true "say a" 0 "say a";
      mkCommandResult false "Connection error: sleep length must be non-negative" 0 ""],
     [Submitted "say a"]).
Proof. reflexivity. Qed.




(** C8. On an open connection (and, with [realtime], a clock that
    accepts the lengths asked of it) [execute_sequence] returns one
    result per command, in tick order: a comment-tagged command gives
    the successful result "Skipped" and is not submitted; every other
    command is submitted exactly once, in order, and its result is the
    server's response or, when the submission raised, a failed result
    with the error text, after which the loop goes on with the next
    command. *)
Theorem execute_sequence_results {conn}
    (mcr_command : conn -> string -> conn * (string + string))
    (time_sleep : Z -> option string)
    (mcr : conn) (commands : list timed_command) (tick_delay_ms : Z) (realtime : bool) :
  (realtime = true ->
   Forall (fun ms => time_sleep ms = None)
     (sleeps (contract_events tick_delay_ms 0 (sorted_by tick_of commands)))) ->
  let sorted_cmds := sorted_by tick_of commands in
  let out := execute_sequence mcr_command time_sleep true (inr mcr) commands
               tick_delay_ms realtime in
  fst out = contract_results mcr_command mcr sorted_cmds
  /\ length (fst out) = length commands
  /\ submissions (snd out)
     = List.filter (fun c => negb (is_comment c)) (map command_of sorted_cmds)
  /\ Permutation (submissions (snd out))
       (List.filter (fun c => negb (is_comment c)) (map command_of commands))
  /\ forall (k : nat) c, sorted_cmds !! k = Some c ->
       exists r, fst out !! k = Some r
         /\ tick r = tick_of c /\ command r = command_of c
         /\ (is_comment (command_of c) = true ->
             success r = true /\ response r = "Skipped")
         /\ (is_comment (command_of c) = false ->
             exists mcr_k,
               match snd (mcr_command mcr_k (command_of c)) with
               | inl resp => success r = true /\ response r = resp
               | inr err => success r = false /\ response r = err
               end).
Proof.
  intros Hd sorted_cmds out.
  destruct (execute_sequence_runs mcr_command time_sleep mcr commands tick_delay_ms
              realtime Hd) as [Hres Hev].
  fold sorted_cmds out in Hres, Hev.
  assert (Hsub : submissions (snd out)
                 = List.filter (fun c => negb (is_comment c)) (map command_of sorted_cmds)).
  { rewrite Hev. destruct realtime;
      [apply submissions_contract | apply submissions_map]. }
  split; [done|]. split.
  { rewrite Hres, contract_results_length. apply sorted_by_length. }
  split; [done|]. split.
  { rewrite Hsub. apply filter_perm, Permutation_map, sorted_by_perm. }
  intros k c Hk. rewrite Hres. by apply contract_results_lookup.
Qed.


Lemma execute_sequence_results_witness :
  fst (execute_sequence picky clock true (inr 0%nat)
         [TimedCommand (Some 0) (Some "boom"); TimedCommand (Some 1) (Some "# note");
          TimedCommand (Some 2) (Some "say hi")] 50 true)
  = [mkCommandResult false "refused" 0 "boom"; mkCommandResult true "Skipped" 1 "# note";
     mkCommandResult true "done" 2 "say hi"].
Proof.
  refine (proj1 (execute_sequence_results picky clock 0%nat
                   [TimedCommand (Some 0) (Some "boom"); TimedCommand (Some 1) (Some "# note");
                    TimedCommand (Some 2) (Some "say hi")] 50 true _)).
  intros _. vm_compute. repeat constructor.
Defined.
End SchedulerFacts.


(** ** Entity resolution and the commands the filter meets *)

Module EntityFacts.
Import PyStr Py BBS SafetyFilter FilterFacts Samples.

Lemma spawn_entity_id_declared actor_type clean_name :
  actor_type <> "unknown" -> actor_type <> "actor" -> contains "titan" actor_type = false ->
  spawn_entity_id actor_type clean_name = "minecraft:" +:+ actor_type.
Proof.
  intros Hu Ha Ht. unfold spawn_entity_id.
  apply String.eqb_neq in Hu, Ha. rewrite Hu, Ha, Ht. cbn [negb andb entity_id_set].
  rewrite !append_cons. cbn [String.eqb]. done.
Qed.

(** C9 (amended). For a spawn action of an actor whose declared type,
    lower-cased and with blanks as underscores, is not "unknown", not
    "actor" and has no "titan" in it, the entity identifier is
    "minecraft:" followed by that normalised type: the creation command
    summons it and the registry entry records it.  When the lower-cased
    display name differs from the normalised type, does not occur
    inside the identifier, and the identifier has no "ender_dragon" in
    it, the command carries a custom name equal to the display name.
    Declared type "zombie" with display name "Zoro" gives the zombie
    identifier with custom name "Zoro". *)
Theorem spawn_declared_type `{PyNative} (act : actor) (actor_id : string)
    (seq : CommandSequence) (tk : Z) (a : action) (reg : registry)
    (declared display : string) :
  ac_type act = Some (VStr declared) ->
  let actor_type := replace_char " " "_" (lower declared) in
  let entity_id := "minecraft:" +:+ actor_type in
  actor_type <> "unknown" -> actor_type <> "actor" ->
  contains "titan" actor_type = false ->
  exists cmd,
    spawn_action act (VStr display) actor_id seq tk a reg
    = (Ok (add seq tk cmd ("Spawn " +:+ display) "minecraft"),
       <[actor_id := mkEntry display (default (default_position 64) (a_position a)) entity_id]> reg)
    /\ startswith ("execute at @p run summon " +:+ entity_id +:+ " ~ ~ ~ ") cmd = true
    /\ (lower display <> actor_type ->
        contains (lower display) entity_id = false ->
        contains "ender_dragon" entity_id = false ->
        cmd = "execute at @p run summon " +:+ entity_id +:+ " ~ ~ ~ "
                +:+ custom_name display)
    /\ (declared = "zombie" -> display = "Zoro" ->
        cmd = "execute at @p run summon minecraft:zombie ~ ~ ~ " +:+ custom_name "Zoro").
Proof.
  intros Hty actor_type entity_id Hu Ha Ht.
  unfold spawn_action, gen_bind, gen_lift, gen_register, gen_ret. rewrite Hty.
  cbn [from_option id py_lower py_str]. fold actor_type. rewrite (spawn_entity_id_declared _ _ Hu Ha Ht). fold entity_id.
  eexists. split; [reflexivity|]. split; [|split].
  - unfold spawn_command. destruct (contains "ender_dragon" entity_id).
    + change " ~ ~ ~ {DragonPhase:0}" with (" ~ ~ ~ " +:+ "{DragonPhase:0}").
      rewrite <- !append_assoc. apply startswith_app.
    + rewrite <- !append_assoc. apply startswith_app.
  - intros Hne Hsub Hdragon. unfold spawn_command.
    apply String.eqb_neq in Hne. rewrite Hne, Hsub, Hdragon. done.
  - intros -> ->. subst actor_type entity_id. vm_compute. done.
Qed.

Lemma spawn_declared_type_witness :
  exists cmd,
    spawn_action (native := sample_native) (Actor (Some "a1") (Some (VStr "Zoro")) (Some (VStr "zombie")) None)
      (VStr "Zoro") "a1" (new_sequence VNone) 0 (Action (Some 0) (Some (VStr "spawn")) None None None) ∅
    = (Ok (add (new_sequence VNone) 0 cmd "Spawn Zoro" "minecraft"),
       <["a1" := mkEntry "Zoro" (default_position 64) "minecraft:zombie"]> ∅)
    /\ cmd = "execute at @p run summon minecraft:zombie ~ ~ ~ " +:+ custom_name "Zoro".
Proof.
  destruct (spawn_declared_type (H := sample_native)
              (Actor (Some "a1") (Some (VStr "Zoro")) (Some (VStr "zombie")) None)
              "a1" (new_sequence VNone) 0 (Action (Some 0) (Some (VStr "spawn")) None None None) ∅
              "zombie" "Zoro" eq_refl) as (cmd & Hrun & _ & _ & Hz); [done..|].
  exists cmd. split; [exact Hrun|]. by apply Hz.
Defined.

(** C9 (counterexample). Display name "Zom" differs from the declared
    type "zombie" and from the identifier "minecraft:zombie", yet the
    creation command carries no custom name: "zom" occurs inside the
    identifier. *)
Lemma custom_name_needs_more_than_difference :
  spawn_entity_id "zombie" "zom" = "minecraft:zombie"
  /\ spawn_command "Zom" "zombie" "minecraft:zombie"
     = "execute at @p run summon minecraft:zombie ~ ~ ~ "
  /\ fst (_generate_actor_commands (native := sample_native)
            (Actor (Some "a1") (Some (VStr "Zom")) (Some (VStr "zombie"))
               (Some [Action (Some 0) (Some (VStr "spawn")) None None None])) ∅)
     = Ok (mkCommandSequence (VStr "actor_a1")
             [mkBBSCommand 0 "execute at @p run summon minecraft:zombie ~ ~ ~ "
                "Spawn Zom" "minecraft"] 0).
Proof. repeat split; vm_compute; reflexivity. Qed.







End EntityFacts.


(** ** Camera interpolation *)

Module CameraFacts.
Import PyStr Py BBS Samples.

Lemma parse_default_position `{PyNative} (y : Z) :
  (y = 64 \/ y = 70) -> exists fy, _parse_pos (default_position y) = Ok [0%float; fy; 0%float].
Proof. intros [-> | ->]; eexists; vm_compute; reflexivity. Qed.

Lemma num_frames_short ts te : 0 <= te - ts < 5 -> num_frames ts te = 0.
Proof. intros. unfold num_frames. rewrite Z.div_small by done. done. Qed.

Lemma num_frames_backwards ts te : te < ts -> num_frames ts te + 1 <= 0.
Proof.
  intros. unfold num_frames.
  assert ((te - ts) / 5 < 0) by (apply Z.div_lt_upper_bound; lia). lia.
Qed.

(** C2 (what the code does where the claim fails). For an orbit or a
    dolly whose interval is shorter than five ticks, [tick_end ==
    tick_start] included, the frame count [min(20, (tick_end -
    tick_start) // 5)] is 0, not clamped to 1, and the first
    interpolation fraction [0 / 0] raises [ZeroDivisionError]: no
    keyframe is emitted. *)
Theorem short_interval_divides_by_zero `{PyNative} (reg : registry) (seq : CommandSequence)
    (kind : string) (ts te : Z) :
  kind = "orbit" \/ kind = "dolly" ->
  0 <= te - ts < 5 ->
  num_frames ts te = 0
  /\ camera_movement reg seq (plain_movement kind ts te) = Raise ZeroDivisionError.
Proof.
  intros Hk Hspan. split; [by apply num_frames_short|].
  unfold camera_movement, plain_movement.
  cbn [m_tick_start m_tick_end m_type m_center m_radius m_start_angle m_end_angle m_height
         m_start_position m_end_position m_look_at from_option id].
  rewrite (num_frames_short _ _ Hspan).
  destruct Hk as [-> | ->]; vm_compute; reflexivity.
Qed.

Lemma short_interval_divides_by_zero_witness :
  num_frames 0 0 = 0
  /\ camera_movement (native := sample_native) ∅ (new_sequence (VStr "camera"))
       (plain_movement "orbit" 0 0) = Raise ZeroDivisionError.
Proof.
  apply (short_interval_divides_by_zero (H := sample_native)); [by left | lia].
Defined.

Lemma backwards_interval_emits_nothing `{PyNative} (reg : registry) (seq : CommandSequence)
    (kind : string) (ts te : Z) :
  kind = "orbit" \/ kind = "dolly" -> te < ts ->
  camera_movement reg seq (plain_movement kind ts te) = Ok seq.
Proof.
  intros Hk Hlt. unfold camera_movement, plain_movement.
  cbn [m_tick_start m_tick_end m_type m_center m_radius m_start_angle m_end_angle m_height
         m_start_position m_end_position m_look_at from_option id].
  assert (range (num_frames ts te + 1) = []) as Hr.
  { unfold range, seqZ. pose proof (num_frames_backwards ts te Hlt).
    replace (Z.to_nat (num_frames ts te + 1)) with 0%nat by lia. done. }
  rewrite Hr.
  destruct Hk as [-> | ->]; vm_compute; reflexivity.
Qed.

Example storyboard_with_still_orbit_raises :
  fst (generate_full_script (native := sample_native)
         (Storyboard None
            (Some [Scene None None None None
                     (Some (Camera (Some [plain_movement "orbit" 0 0]) None)) None]))
         init_registry)
  = Raise ZeroDivisionError.
Proof. vm_compute. reflexivity. Qed.
End CameraFacts.


(** ** Script assembly *)

Module AssemblyFacts.
Import PyStr Py BBS Timeline Samples.

Lemma gen_bind_ok {A B} (m : gen A) (k : A -> gen B) reg b reg' :
  gen_bind m k reg = (Ok b, reg') <->
  exists a reg1, m reg = (Ok a, reg1) /\ k a reg1 = (Ok b, reg').
Proof.
  unfold gen_bind. destruct (m reg) as [[a|e] reg1]; split.
  - eauto.
  - intros (a' & reg1' & [= -> ->] & Hk). done.
  - intros [=].
  - intros (a' & reg1' & [=] & _).
Qed.

Ltac gen_inv H :=
  repeat match type of H with
    | gen_bind _ _ _ = (Ok _, _) =>
        let a := fresh "a" in let r := fresh "reg" in
        let H1 := fresh "Hm" in
        apply gen_bind_ok in H as (a & r & H1 & H)
    | gen_ret _ _ = (Ok _, _) => unfold gen_ret in H; injection H as H ?
    end.

Section WithNative.
Context {native : PyNative}.

Lemma scene_duration sc reg seq reg' :
  generate_scene_commands sc reg = (Ok seq, reg') ->
  duration_ticks seq = declared_ticks sc.
Proof.
  unfold generate_scene_commands. intros Hg. gen_inv Hg. by subst seq.
Qed.


Lemma assemble_fold scs : forall off acc reg seqs reg',
  compile_scenes scs reg = (Ok seqs, reg') ->
  gen_fold assemble_scene scs (off, acc) reg
  = (Ok (off + sumZ (map duration_ticks seqs), acc ++ scripts_from off seqs), reg').
Proof.
  induction scs as [|sc rest IH]; intros off acc reg seqs reg' Hc.
  - cbn in Hc. injection Hc as <- <-. cbn. by rewrite Z.add_0_r, app_nil_r.
  - cbn [compile_scenes] in Hc. gen_inv Hc. subst seqs.
    cbn [gen_fold]. unfold gen_bind at 1. unfold assemble_scene at 1.
    unfold gen_bind at 1. rewrite Hm. unfold gen_ret at 1.
    rewrite (IH _ _ _ _ _ Hm0). cbn [duration_ticks name commands map sumZ foldr scripts_from].
    unfold to_list. cbn [commands]. rewrite <- app_assoc. cbn [app].
    f_equal; [|done]. f_equal. f_equal. unfold sumZ. lia.
Qed.

Lemma compile_scenes_durations scs : forall reg seqs reg',
  compile_scenes scs reg = (Ok seqs, reg') ->
  map duration_ticks seqs = map declared_ticks scs.
Proof.
  induction scs as [|sc rest IH]; intros reg seqs reg' Hc.
  - cbn in Hc. by injection Hc as <- <-.
  - cbn [compile_scenes] in Hc. gen_inv Hc. subst seqs. cbn [map].
    f_equal; [by eapply scene_duration | by eapply IH].
Qed.

Lemma compile_scenes_lookup scs : forall reg seqs reg' (k : nat) sc,
  compile_scenes scs reg = (Ok seqs, reg') ->
  scs !! k = Some sc ->
  exists seq reg_k reg_k',
    seqs !! k = Some seq /\ generate_scene_commands sc reg_k = (Ok seq, reg_k').
Proof.
  induction scs as [|sc0 rest IH]; intros reg seqs reg' k sc Hc Hk; [done|].
  cbn [compile_scenes] in Hc. gen_inv Hc. subst seqs. destruct k as [|k].
  - injection Hk as ->. eauto.
  - cbn in Hk. destruct (IH _ _ _ _ _ Hm0 Hk) as (seq & rk & rk' & ? & ?). eauto.
Qed.

Lemma scripts_from_lookup seqs : forall off (k : nat) seq,
  seqs !! k = Some seq ->
  scripts_from off seqs !! k
  = Some (mkSceneScript (name seq) (off + sumZ (map duration_ticks (take k seqs)))
            (duration_ticks seq)
            (sorted_by tick
               (map (offset_tick (off + sumZ (map duration_ticks (take k seqs))))
                  (commands seq)))).
Proof.
  induction seqs as [|s rest IH]; intros off k seq Hk; [done|]. destruct k as [|k].
  - injection Hk as ->. cbn. by rewrite Z.add_0_r.
  - cbn in Hk. cbn [scripts_from lookup list_lookup]. cbn. rewrite (IH _ _ _ Hk).
    cbn. replace (off + duration_ticks s + sumZ (map duration_ticks (take k rest)))
      with (off + (duration_ticks s + sumZ (map duration_ticks (take k rest)))) by lia.
    done.
Qed.

Lemma insert_by_offset off c l :
  insert_by tick (offset_tick off c) (map (offset_tick off) l)
  = map (offset_tick off) (insert_by tick c l).
Proof.
  induction l as [|y l IH]; [done|]. cbn [map insert_by offset_tick tick].
  replace (tick c + off <=? tick y + off) with (tick c <=? tick y)
    by (destruct (Z.leb_spec (tick c) (tick y)), (Z.leb_spec (tick c + off) (tick y + off));
        try done; lia).
  destruct (tick c <=? tick y); [done|]. cbn [map]. f_equal. exact IH.
Qed.

Lemma sorted_by_offset off l :
  sorted_by tick (map (offset_tick off) l) = map (offset_tick off) (sorted_by tick l).
Proof.
  induction l as [|c l IH]; [done|]. cbn [map sorted_by foldr].
  change (foldr (insert_by tick) [] (map (offset_tick off) l))
    with (sorted_by tick (map (offset_tick off) l)).
  rewrite IH. apply insert_by_offset.
Qed.

Lemma offset_moves off l : Forall2 (moved_by off) l (map (offset_tick off) l).
Proof. induction l as [|c l IH]; constructor; [by repeat split|exact IH]. Qed.

Lemma moved_ticks off l l' :
  Forall2 (moved_by off) l l' -> map tick l' = map (fun c => tick c + off) l.
Proof. induction 1 as [|c c' l l' [Ht _] _ IH]; [done|]. cbn [map]. by rewrite Ht, IH. Qed.

Lemma scripts_from_length off seqs : length (scripts_from off seqs) = length seqs.
Proof. revert off. induction seqs as [|s rest IH]; intros off; cbn; [done|]. by rewrite IH. Qed.

Lemma compile_scenes_length scs : forall reg seqs reg',
  compile_scenes scs reg = (Ok seqs, reg') -> length seqs = length scs.
Proof.
  intros reg seqs reg' Hc. apply compile_scenes_durations in Hc.
  apply (f_equal length) in Hc. by rewrite !length_map in Hc.
Qed.

(** C1. When the scenes of a storyboard compile and the total is a
    float in seconds, [generate_full_script] returns a script in which
    scene [k] starts at the sum of the declared durations
    ([duration_seconds * 20], an integer) of the scenes before it,
    advertises its own declared duration, and carries the commands of
    its compiled scene in tick order, each one with its tick raised by
    that start and with its command, description and type as they
    were; [total_duration_ticks] is the sum of all declared durations,
    whatever ticks the commands have.  Scenes of 600 and 400 declared
    ticks give a total of 1000 and a second start of 600. *)
Theorem generate_full_script_timeline (sb : storyboard) (reg : registry)
    (seqs : list CommandSequence) (reg' : registry) :
  let scs := default [] (sb_scenes sb) in
  compile_scenes scs reg = (Ok seqs, reg') ->
  is_ok (int_truediv (sumZ (map declared_ticks scs)) TPS) = true ->
  exists r,
    generate_full_script sb reg = (Ok r, reg')
    /\ total_duration_ticks r = sumZ (map declared_ticks scs)
    /\ length (scenes r) = length scs
    /\ (forall (k : nat) sc, scs !! k = Some sc ->
          exists ss seq reg_k reg_k',
            scenes r !! k = Some ss
            /\ generate_scene_commands sc reg_k = (Ok seq, reg_k')
            /\ start_tick ss = sumZ (map declared_ticks (take k scs))
            /\ ss_duration_ticks ss = declared_ticks sc
            /\ ss_commands ss
               = sorted_by tick (map (offset_tick (start_tick ss)) (commands seq))
            /\ Forall2 (moved_by (start_tick ss)) (to_list seq) (ss_commands ss)
            /\ ordered tick (ss_commands ss))
    /\ (forall s1 s2, scs = [s1; s2] ->
          declared_ticks s1 = 600 -> declared_ticks s2 = 400 ->
          total_duration_ticks r = 1000
          /\ exists ss, scenes r !! 1%nat = Some ss /\ start_tick ss = 600).
Proof.
  intros scs Hc Hdiv.
  pose proof (compile_scenes_durations _ _ _ _ Hc) as Hdur.
  destruct (int_truediv (sumZ (map declared_ticks scs)) TPS) as [secs|] eqn:Es;
    [clear Hdiv|discriminate Hdiv].
  assert (Hrun : generate_full_script sb reg
                 = (Ok (mkScript (default (VStr "Untitled") (sb_title sb))
                          (sumZ (map declared_ticks scs)) (scripts_from 0 seqs) secs), reg')).
  { unfold generate_full_script. fold scs. unfold gen_bind at 1.
    rewrite (assemble_fold scs 0 [] reg seqs reg' Hc). rewrite Hdur. cbn [app].
    rewrite Z.add_0_l. unfold gen_bind, gen_lift. rewrite Es. done. }
  eexists. split; [exact Hrun|]. cbn [total_duration_ticks scenes].
  assert (Hlook : forall (k : nat) sc, scs !! k = Some sc ->
            exists ss seq reg_k reg_k',
              scripts_from 0 seqs !! k = Some ss
              /\ generate_scene_commands sc reg_k = (Ok seq, reg_k')
              /\ start_tick ss = sumZ (map declared_ticks (take k scs))
              /\ ss_duration_ticks ss = declared_ticks sc
              /\ ss_commands ss
                 = sorted_by tick (map (offset_tick (start_tick ss)) (commands seq))
              /\ Forall2 (moved_by (start_tick ss)) (to_list seq) (ss_commands ss)
              /\ ordered tick (ss_commands ss)).
  { intros k sc Hk.
    destruct (compile_scenes_lookup _ _ _ _ _ _ Hc Hk) as (seq & rk & rk' & Hs & Hg).
    eexists _, seq, rk, rk'. split; [by apply scripts_from_lookup|].
    split; [done|]. cbn. rewrite Z.add_0_l.
    rewrite <- firstn_map, Hdur, firstn_map. split; [done|].
    split; [by eapply scene_duration|]. split; [done|].
    split; [|apply SortFacts.sorted_by_ordered].
    rewrite sorted_by_offset. apply offset_moves. }
  split; [done|]. split.
  { rewrite scripts_from_length. by eapply compile_scenes_length. }
  split; [exact Hlook|].
  intros s1 s2 Hscs H1 H2. split.
  - rewrite Hscs. cbn. lia.
  - destruct (Hlook 1%nat s2) as (ss & seq2 & rk & rk' & Hss & _ & Hst & _);
      [by rewrite Hscs|].
    exists ss. split; [done|]. rewrite Hst, Hscs. cbn. lia.
Qed.
End WithNative.

Lemma generate_full_script_timeline_witness :
  exists r,
    fst (generate_full_script (native := sample_native) two_scene_board init_registry) = Ok r
    /\ total_duration_ticks r = 1000
    /\ exists ss,
         scenes r !! 1%nat = Some ss /\ start_tick ss = 600
         /\ map tick (ss_commands ss) = [600; 600].
Proof.
  destruct (compile_scenes (native := sample_native)
              (default [] (sb_scenes two_scene_board)) init_registry)
    as [[seqs|e] reg'] eqn:Hc; [|vm_compute in Hc; discriminate Hc].
  destruct (generate_full_script_timeline (native := sample_native)
              two_scene_board init_registry seqs reg' Hc eq_refl)
    as (r & Hrun & _ & _ & Hlook & Hpair).
  exists r. rewrite Hrun. split; [reflexivity|].
  destruct (Hpair _ _ eq_refl eq_refl eq_refl) as (Htotal & ss & Hss & Hst).
  split; [exact Htotal|]. exists ss. split; [exact Hss|]. split; [exact Hst|].
  destruct (Hlook 1%nat _ eq_refl) as (ss' & seq & rk & rk' & Hss' & Hg & _ & _ & _ & Hmv & _).
  rewrite Hss in Hss'. injection Hss' as <-.
  rewrite (moved_ticks _ _ _ Hmv), Hst.
  vm_compute in Hg. injection Hg as <- _. reflexivity.
Defined.
End AssemblyFacts.


(** ** The entity registry *)

Module RegistryFacts.
Import PyStr Py BBS RegistryKeys Samples.








Section WithNative.
Context {native : PyNative}.




End WithNative.


End RegistryFacts.


(** ** Degradation on malformed input *)

Module DegradationFacts.
Import PyStr Py BBS Timeline WellFormed Defaults AssemblyFacts Samples.

Lemma res_fold_app {A B} (f : B -> A -> res B) l1 l2 b :
  res_fold f (l1 ++ l2) b = res_bind (res_fold f l1 b) (res_fold f l2).
Proof.
  revert b. induction l1 as [|x l1 IH]; intros b; cbn; [done|].
  destruct (f b x); cbn; [apply IH|done].
Qed.

(** A loop whose body cannot raise does not raise. *)
Lemma res_fold_total {A B} (f : B -> A -> res B) (g : B -> A -> B) l :
  (forall b x, In x l -> f b x = Ok (g b x)) ->
  forall b, res_fold f l b = Ok (fold_left g l b).
Proof.
  induction l as [|x l IH]; intros Hf b; cbn; [done|].
  rewrite Hf by (by left). cbn. apply IH. intros; apply Hf; by right.
Qed.

Lemma gen_fold_total {A B} (f : B -> A -> gen B) (g : B -> A -> B) l :
  (forall b x reg, In x l -> f b x reg = (Ok (g b x), reg)) ->
  forall b reg, gen_fold f l b reg = (Ok (fold_left g l b), reg).
Proof.
  induction l as [|x l IH]; intros Hf b reg; cbn; [done|].
  unfold gen_bind. rewrite Hf by (by left). apply IH. intros; apply Hf; by right.
Qed.

Section WithNative.
Context {native : PyNative}.

Lemma parse_coord_total x :
  (forall z, x = VInt z -> is_ok (float_of_int z) = true) ->
  exists f, parse_coord x = Ok f /\ (non_numeric x = true -> f = 0%float).
Proof.
  intros Hz. unfold parse_coord, py_float. destruct x as [|b|z|f|s|l|d]; cbn.
  - eexists; split; [reflexivity|done].
  - eexists; split; [reflexivity|discriminate].
  - specialize (Hz z eq_refl). destruct (float_of_int z) as [f|e]; [|done].
    eexists; split; [reflexivity|discriminate].
  - eexists; split; [reflexivity|discriminate].
  - destruct (float_of_str _) as [f|]; eexists; (split; [reflexivity|]);
      [discriminate|done].
  - eexists; split; [reflexivity|done].
  - eexists; split; [reflexivity|done].
Qed.

Lemma parse_loop_total items : forall acc,
  (forall z, In (VInt z) items -> is_ok (float_of_int z) = true) ->
  exists fs,
    res_fold (fun new_pos x => res_bind (parse_coord x) (fun v => Ok (new_pos ++ [v])))
      items acc = Ok (acc ++ fs)
    /\ Forall2 (fun x f => parse_coord x = Ok f /\ (non_numeric x = true -> f = 0%float))
         items fs.
Proof.
  induction items as [|x items IH]; intros acc Hz.
  - exists []. cbn. rewrite app_nil_r. split; [done|constructor].
  - destruct (parse_coord_total x) as (f & Hf & H0).
    { intros z ->. apply Hz. by left. }
    destruct (IH (acc ++ [f])) as (fs & Hfs & Hall).
    { intros z Hin. apply Hz. by right. }
    exists (f :: fs). cbn [res_fold]. rewrite Hf. cbn [res_bind].
    rewrite Hfs, <- app_assoc. split; [done|]. by constructor.
Qed.

Lemma parse_pos_total pos items :
  py_iter pos = Ok items ->
  (forall z, In (VInt z) items -> is_ok (float_of_int z) = true) ->
  exists fs,
    _parse_pos pos = Ok fs
    /\ Forall2 (fun x f => parse_coord x = Ok f /\ (non_numeric x = true -> f = 0%float))
         items fs.
Proof.
  intros Hi Hz. unfold _parse_pos. rewrite Hi. cbn [res_bind].
  destruct (parse_loop_total items [] Hz) as (fs & Hfs & Hall). eauto.
Qed.

End WithNative.

Lemma res_fold_map {A A' B} (h : A -> A') (f : B -> A' -> res B) (g : B -> A -> res B) l :
  (forall b x, f b (h x) = g b x) ->
  forall b, res_fold f (map h l) b = res_fold g l b.
Proof.
  intros Hfg. induction l as [|x l IH]; intros b; cbn; [done|].
  rewrite Hfg. destruct (g b x); cbn; [apply IH|done].
Qed.

Lemma gen_fold_map {A A' B} (h : A -> A') (f : B -> A' -> gen B) (g : B -> A -> gen B) l :
  (forall b x reg, f b (h x) reg = g b x reg) ->
  forall b reg, gen_fold f (map h l) b reg = gen_fold g l b reg.
Proof.
  intros Hfg. induction l as [|x l IH]; intros b reg; cbn; [done|].
  unfold gen_bind. rewrite Hfg. destruct (g b x reg) as [[b'|e] reg']; [apply IH|done].
Qed.

Lemma fold_left_map {A A' B} (h : A -> A') (f : B -> A' -> B) (g : B -> A -> B) l :
  (forall b x, f b (h x) = g b x) ->
  forall b, fold_left f (map h l) b = fold_left g l b.
Proof.
  intros Hfg. induction l as [|x l IH]; intros b; cbn; [done|]. rewrite Hfg. apply IH.
Qed.

Section WithNative.
Context {native : PyNative}.

Lemma actor_defaults_same act reg :
  _generate_actor_commands (actor_defaults act) reg = _generate_actor_commands act reg.
Proof.
  unfold _generate_actor_commands, actor_defaults.
  cbn [ac_id ac_name ac_type ac_actions from_option id].
  apply gen_fold_map. intros seq a reg'. reflexivity.
Qed.

Lemma movement_defaults_same reg seq mv :
  camera_movement reg seq (movement_defaults mv) = camera_movement reg seq mv.
Proof. reflexivity. Qed.

Lemma camera_defaults_same cam reg :
  _generate_camera_commands (camera_defaults cam) reg = _generate_camera_commands cam reg.
Proof.
  unfold _generate_camera_commands, camera_defaults, gen_bind, gen_registry, gen_lift.
  cbn [c_movements c_fov_keyframes from_option id].
  rewrite (res_fold_map movement_defaults _ (camera_movement reg))
    by (intros; apply movement_defaults_same).
  destruct (res_fold _ _ _); [|done]. unfold gen_ret.
  rewrite (fold_left_map fov_defaults _ fov_command) by reflexivity. done.
Qed.

Lemma dict_get_app d1 d2 key :
  dict_get (d1 ++ d2) key
  = match dict_get d1 key with Some v => Some v | None => dict_get d2 key end.
Proof.
  unfold dict_get. induction d1 as [|kv d1 IH]; [done|]. cbn [app find].
  by destruct (String.eqb (fst kv) key).
Qed.

Lemma dict_get_with_default key' dflt d key :
  dict_get (with_default key' dflt d) key
  = match dict_get d key with
    | Some v => Some v
    | None => if String.eqb key' key then Some dflt else None
    end.
Proof.
  unfold with_default. destruct (dict_get d key') as [v'|] eqn:E'.
  - destruct (dict_get d key) eqn:E; [done|].
    destruct (String.eqb_spec key' key) as [->|]; [congruence|done].
  - rewrite dict_get_app. destruct (dict_get d key); [done|].
    unfold dict_get. cbn [find fst]. by destruct (String.eqb key' key).
Qed.

Lemma setting_defaults_get setting key dflt :
  In (key, dflt) [("time_of_day", VStr "day"); ("weather", VStr "clear");
                  ("world_modifications", VList [])] ->
  py_get (setting_defaults setting) key dflt = py_get setting key dflt.
Proof.
  intros Hin. destruct setting; try reflexivity.
  unfold setting_defaults, py_get. f_equal. rewrite !dict_get_with_default.
  destruct (dict_get d key); [done|].
  destruct Hin as [[= <- <-]|[[= <- <-]|[[= <- <-]|[]]]]; reflexivity.
Qed.

Lemma scene_defaults_same sc reg :
  generate_scene_commands (scene_defaults sc) reg = generate_scene_commands sc reg.
Proof.
  unfold generate_scene_commands.
  assert (Hs : scene_setting (scene_defaults sc) = setting_defaults (scene_setting sc))
    by reflexivity.
  assert (Ht : _time_command (scene_defaults sc) = _time_command sc).
  { unfold _time_command. rewrite Hs, setting_defaults_get; [done|]. by left. }
  assert (Hw : _weather_command (scene_defaults sc) = _weather_command sc).
  { unfold _weather_command. rewrite Hs, setting_defaults_get; [done|]. right. by left. }
  rewrite Ht, Hw, Hs, setting_defaults_get by (right; right; by left).
  unfold scene_defaults at 1 2 3 4 5.
  cbn [sc_name sc_duration_seconds sc_actors sc_camera sc_effects from_option id].
  unfold gen_bind, gen_lift.
  destruct (_time_command sc); [|done]. destruct (_weather_command sc); [|done].
  destruct (res_bind (py_get _ _ _) _); [|done].
  match goal with
  | |- context [gen_fold ?f (map actor_defaults ?l) ?b reg] =>
      rewrite (gen_fold_map actor_defaults f
                 (fun seq act reg =>
                    match _generate_actor_commands act reg with
                    | (Ok a, reg') => gen_ret (fold_left append_command (commands a) seq) reg'
                    | (Raise e, reg') => (Raise e, reg')
                    end) l)
        by (intros; rewrite actor_defaults_same; reflexivity)
  end.
  destruct (gen_fold _ _ _ _) as [[seq|e] reg1]; [|done].
  rewrite camera_defaults_same.
  destruct (_generate_camera_commands _ _) as [[cam|e] reg2]; [|done].
  rewrite (res_fold_map effect_defaults _
             (fun seq eff => res_bind (_generate_effect_command eff)
                               (fun effect_cmd => Ok (append_command seq effect_cmd))))
    by reflexivity.
  reflexivity.
Qed.

Lemma storyboard_defaults_same sb reg :
  generate_full_script (storyboard_defaults sb) reg = generate_full_script sb reg.
Proof.
  unfold generate_full_script, storyboard_defaults.
  cbn [sb_title sb_scenes from_option id]. unfold gen_bind at 1 3.
  rewrite (gen_fold_map scene_defaults assemble_scene assemble_scene).
  - reflexivity.
  - intros [off acc] sc reg'. unfold assemble_scene, gen_bind.
    rewrite scene_defaults_same. reflexivity.
Qed.
End WithNative.

Lemma res_fold_ok {A B} (f : B -> A -> res B) l :
  (forall b x, In x l -> exists b', f b x = Ok b') ->
  forall b, exists b', res_fold f l b = Ok b'.
Proof.
  induction l as [|x l IH]; intros Hf b; cbn; [eauto|].
  destruct (Hf b x) as [b1 ->]; [by left|]. cbn. apply IH. intros; apply Hf; by right.
Qed.

Lemma gen_fold_ok {A B} (f : B -> A -> gen B) l :
  (forall b x reg, In x l -> exists b' reg', f b x reg = (Ok b', reg')) ->
  forall b reg, exists b' reg', gen_fold f l b reg = (Ok b', reg').
Proof.
  induction l as [|x l IH]; intros Hf b reg; cbn; [by eexists _, _|].
  destruct (Hf b x reg) as (b1 & reg1 & Hx); [by left|]. unfold gen_bind. rewrite Hx.
  apply IH. intros; apply Hf; by right.
Qed.

Lemma forallb_In {A} (p : A -> bool) l x : forallb p l = true -> In x l -> p x = true.
Proof. intros H Hin. rewrite forallb_forall in H. by apply H. Qed.

Lemma lookup_lt_ok {A} (l : list A) (k : nat) : (k < length l)%nat -> exists x, l !! k = Some x.
Proof. intros H. by apply lookup_lt_is_Some_2 in H as [x ->]; eauto. Qed.

Lemma py_index_total v (k : nat) :
  has_three v = true -> (k < 3)%nat -> exists x, py_index v k = Ok x.
Proof.
  intros H Hk. destruct v; try discriminate H; cbn [has_three py_index] in *;
    apply Nat.leb_le in H.
  - destruct (lookup_lt_ok (chars s) k) as [x ->]; [lia|]. eauto.
  - destruct (lookup_lt_ok l k) as [x ->]; [lia|]. eauto.
Qed.

Section WithNative.
Context {native : PyNative}.

Lemma triple_text_total v : has_three v = true -> exists t, triple_text v = Ok t.
Proof.
  intros H. unfold triple_text.
  destruct (py_index_total v 0 H) as [x ->]; [lia|].
  destruct (py_index_total v 1 H) as [y ->]; [lia|].
  destruct (py_index_total v 2 H) as [z ->]; [lia|]. cbn. eauto.
Qed.

Lemma selector_total a b : exists sel, _get_target_selector (VStr a) (VStr b) = Ok sel.
Proof.
  unfold _get_target_selector. cbn [py_lower res_bind].
  destruct (_ || _); eauto.
Qed.

Lemma text_default o d : is_text o = true -> exists s, default (VStr d) o = VStr s.
Proof. destruct o as [[]|]; try discriminate; cbn; eauto. Qed.

Lemma other_action_total act actor_name action_type seq tk a :
  is_text (ac_name act) = true -> is_text (ac_type act) = true ->
  actor_name = default (VStr "actor") (ac_name act) ->
  action_type = default (VStr "idle") (a_type a) ->
  wf_action a = true ->
  exists seq', other_action act actor_name action_type seq tk a = Ok seq'.
Proof.
  intros Hn Ht -> -> Hw. unfold other_action.
  destruct (text_default _ "actor" Hn) as [nm ->].
  destruct (text_default _ "unknown" Ht) as [ty ->].
  destruct (selector_total nm ty) as [sel ->]. cbn [res_bind].
  unfold wf_action in Hw. cbv zeta in Hw.
  destruct (py_eq_str _ "walk_to" || py_eq_str _ "run_to").
  { destruct (triple_text_total _ Hw) as [t ->]. cbn. eauto. }
  destruct (py_eq_str _ "sit"); [eauto|].
  destruct (py_eq_str _ "teleport").
  { destruct (triple_text_total _ Hw) as [t ->]. cbn. eauto. }
  destruct (py_eq_str _ "jump"); [eauto|].
  destruct (py_eq_str _ "attack" || py_eq_str _ "swipe"); [eauto|].
  destruct (py_eq_str _ "interact"); [eauto|].
  destruct (py_eq_str _ "look_at"); [|eauto].
  destruct (default (VStr "0 0 0") (a_target a)) as [| | | |s|l|]; try discriminate Hw.
  - cbn in Hw. destruct (looks_like_coords s).
    + destruct (triple_text_total (VList (map VStr (split s)))) as [t ->];
        [cbn; by rewrite length_map|]. cbn. eauto.
    + destruct (selector_total s "unknown") as [sel' ->]. cbn. eauto.
  - destruct (triple_text_total (VList l) Hw) as [t ->]. cbn. eauto.
Qed.

Lemma actor_total act reg :
  wf_actor act = true ->
  exists seq reg', _generate_actor_commands act reg = (Ok seq, reg').
Proof.
  unfold wf_actor. intros H. apply andb_true_iff in H as [H Ha].
  apply andb_true_iff in H as [Hn Ht].
  unfold _generate_actor_commands. apply gen_fold_ok. intros seq a reg0 Hin.
  unfold actor_action. destruct (py_eq_str _ "spawn").
  - unfold spawn_action.
    destruct (text_default _ "actor" Hn) as [nm ->].
    destruct (text_default _ "unknown" Ht) as [ty ->].
    cbn. by eexists _, _.
  - destruct (other_action_total act _ _ seq (default 0 (a_tick a)) a Hn Ht eq_refl eq_refl)
      as [seq' Hs]; [by eapply forallb_In|].
    unfold gen_lift. rewrite Hs. by eexists _, _.
Qed.

Lemma number_total v : wf_number v = true -> exists f, py_float v = Ok f.
Proof.
  destruct v as [|b|z|f|s|l|d]; cbn; try discriminate; eauto.
  - destruct (float_of_int z); [eauto|discriminate].
  - destruct (float_of_str s); [eauto|discriminate].
Qed.

Lemma position_total v :
  wf_position v = true ->
  exists fs, _parse_pos v = Ok fs /\ (3 <= length fs)%nat.
Proof.
  unfold wf_position. destruct (py_iter v) as [items|] eqn:Hi; [|discriminate].
  intros H. apply andb_true_iff in H as [Hlen Hz]. apply Nat.leb_le in Hlen.
  destruct (parse_pos_total v items Hi) as (fs & Hfs & Hall).
  { intros z Hin. apply (forallb_In _ _ _ Hz Hin). }
  exists fs. split; [done|]. apply Forall2_length in Hall. lia.
Qed.

Lemma float_at_total (fs : list float) (k : nat) :
  (3 <= length fs)%nat -> (k < 3)%nat -> exists f, float_at fs k = Ok f.
Proof.
  intros H Hk. unfold float_at.
  destruct (lookup_lt_ok fs k) as [x ->]; [lia|]. eauto.
Qed.

Lemma look_at_total reg v : wf_look_at v = true -> exists o, look_at_entry reg v = Ok o.
Proof.
  unfold wf_look_at, look_at_entry. destruct (py_truthy v); cbn; [|eauto].
  intros ->. destruct v; eauto.
Qed.

(** The frame loop of an orbit or dolly runs through when the
    interval is well-formed and the body fails only where the
    interpolation fraction or the tick does. *)
Lemma frames_total (body : CommandSequence -> Z -> res CommandSequence) ts te :
  wf_interval ts te = true ->
  (forall seq i t tk,
     In i (range (num_frames ts te + 1)) ->
     int_truediv i (num_frames ts te) = Ok t -> frame_tick ts te t = Ok tk ->
     exists seq', body seq i = Ok seq') ->
  forall seq, exists seq', res_fold body (range (num_frames ts te + 1)) seq = Ok seq'.
Proof.
  unfold wf_interval. cbv zeta. intros Hw Hbody.
  apply orb_true_iff in Hw as [Hempty|Hw].
  - apply Z.leb_le in Hempty. unfold range, seqZ.
    replace (Z.to_nat (num_frames ts te + 1)) with 0%nat by lia. cbn. eauto.
  - apply andb_true_iff in Hw as [_ Hw]. apply res_fold_ok. intros seq i Hin.
    pose proof (forallb_In _ _ _ Hw Hin) as Hi. cbn beta in Hi.
    destruct (int_truediv i (num_frames ts te)) as [t|] eqn:Et; [|discriminate Hi].
    cbn [res_bind] in Hi.
    destruct (frame_tick ts te t) as [tk|] eqn:Ek; [|discriminate Hi]. eauto.
Qed.

Lemma movement_total reg seq mv :
  wf_movement mv = true -> exists seq', camera_movement reg seq mv = Ok seq'.
Proof.
  unfold wf_movement, camera_movement. cbv zeta. intros Hw.
  destruct (py_eq_str _ "static").
  { destruct (triple_text_total _ Hw) as [t ->]. cbn. eauto. }
  destruct (py_eq_str _ "orbit").
  { apply andb_true_iff in Hw as [Hw Hang]. apply andb_true_iff in Hw as [Hw Hint].
    apply andb_true_iff in Hw as [Hw Hh]. apply andb_true_iff in Hw as [Hw He].
    apply andb_true_iff in Hw as [Hw Hs]. apply andb_true_iff in Hw as [Hc Hr].
    destruct (position_total _ Hc) as (center & -> & Hlen).
    destruct (number_total _ Hr) as [radius ->].
    destruct (number_total _ Hs) as [sa Hsa]. destruct (number_total _ He) as [ea Hea].
    destruct (number_total _ Hh) as [height ->].
    unfold wf_angles in Hang. rewrite Hsa, Hea in Hang |- *. cbv zeta in Hang.
    cbn [res_bind]. apply frames_total; [done|].
    intros seq0 i t tk Hin Ht Htk. unfold orbit_frame. rewrite Ht. cbn [res_bind].
    pose proof (forallb_In _ _ _ Hang Hin) as Hfin. cbn beta in Hfin.
    rewrite Ht in Hfin. apply negb_true_iff in Hfin.
    unfold math_cos, math_sin. rewrite Hfin.
    destruct (float_at_total center 0 Hlen) as [c0 ->]; [lia|].
    destruct (float_at_total center 2 Hlen) as [c2 ->]; [lia|].
    destruct (float_at_total center 1 Hlen) as [c1 ->]; [lia|].
    cbn [res_bind]. rewrite Htk. cbn. eauto. }
  destruct (py_eq_str _ "dolly").
  { repeat (apply andb_true_iff in Hw as [Hw ?]).
    destruct (position_total _ Hw) as (start_pos & -> & Hs).
    match goal with
    | Hp : wf_position ?v = true |- _ =>
        destruct (position_total v Hp) as (end_pos & -> & He)
    end.
    cbn [res_bind]. apply frames_total; [done|].
    intros seq0 i t tk _ Ht Htk. unfold dolly_frame, lerp_at. rewrite Ht. cbn [res_bind].
    destruct (float_at_total start_pos 0 Hs) as [s0 ->]; [lia|].
    destruct (float_at_total end_pos 0 He) as [e0 ->]; [lia|].
    destruct (float_at_total start_pos 1 Hs) as [s1 ->]; [lia|].
    destruct (float_at_total end_pos 1 He) as [e1 ->]; [lia|].
    destruct (float_at_total start_pos 2 Hs) as [s2 ->]; [lia|].
    destruct (float_at_total end_pos 2 He) as [e2 ->]; [lia|].
    cbn [res_bind]. rewrite Htk. cbn [res_bind].
    match goal with
    | Hl : wf_look_at ?v = true |- _ => destruct (look_at_total reg v Hl) as [o ->]
    end.
    cbn. eauto. }
  destruct (py_eq_str _ "follow"); eauto.
Qed.

Lemma effect_total eff : wf_effect eff = true -> exists cmd, _generate_effect_command eff = Ok cmd.
Proof.
  unfold wf_effect, _generate_effect_command. destruct (py_eq_str _ "particles"); [|eauto].
  intros H. apply andb_true_iff in H as [Hh Ht]. unfold table_get. rewrite Hh.
  destruct (triple_text_total _ Ht) as [t Htt].
  destruct (default (VStr "cloud") (e_particle_type eff)); cbn [res_bind]; rewrite Htt;
    cbn; eauto.
Qed.

Lemma scene_total sc reg :
  wf_scene sc = true ->
  exists seq reg', generate_scene_commands sc reg = (Ok seq, reg').
Proof.
  unfold wf_scene. intros H.
  apply andb_true_iff in H as [H He]. apply andb_true_iff in H as [H Hc].
  apply andb_true_iff in H as [Hs Ha].
  unfold wf_setting in Hs. destruct (scene_setting sc) as [| | | | | |d] eqn:Ed;
    try discriminate Hs.
  apply andb_true_iff in Hs as [Hs Hm]. apply andb_true_iff in Hs as [Htime Hweather].
  destruct (py_iter (default (VList []) (dict_get d "world_modifications")))
    as [mods|] eqn:Emods; [|discriminate Hm].
  unfold generate_scene_commands, gen_bind, gen_lift.
  assert (exists c, _time_command sc = Ok c) as [c1 ->].
  { unfold _time_command, table_get. rewrite Ed. cbn [py_get res_bind].
    rewrite Htime. destruct (default (VStr "day") _); eauto. }
  assert (exists c, _weather_command sc = Ok c) as [c2 ->].
  { unfold _weather_command, table_get. rewrite Ed. cbn [py_get res_bind].
    rewrite Hweather. destruct (default (VStr "clear") _); eauto. }
  rewrite Ed. cbn [py_get res_bind]. rewrite Emods. cbn [res_bind].
  match goal with
  | |- context [res_fold world_modification ?l ?acc] =>
      assert (Hwm : forall b x, In x l -> exists b', world_modification b x = Ok b');
        [|destruct (res_fold_ok _ _ Hwm acc) as [seq1 ->]]
  end.
  { intros seq [i v] Hin. apply list_elem_of_In, elem_of_lookup_imap in Hin
      as (i' & v' & [= <- <-] & Hv).
    assert (Hin : In v mods).
    { apply list_elem_of_In, list_elem_of_lookup. by exists i. }
    pose proof (forallb_In _ _ _ Hm Hin) as Hstr. destruct v; try discriminate Hstr.
    unfold world_modification. cbn [py_lower res_bind]. destruct (negb _); eauto. }
  match goal with
  | |- context [gen_fold ?f ?l ?acc reg] =>
      assert (Hac : forall b x reg, In x l -> exists b' reg', f b x reg = (Ok b', reg'));
        [|destruct (gen_fold_ok _ _ Hac acc reg) as (seq2 & reg2 & ->)]
  end.
  { intros seq act reg0 Hin.
    destruct (actor_total act reg0) as (s & r & ->); [by eapply forallb_In|].
    by eexists _, _. }
  unfold _generate_camera_commands, gen_bind, gen_registry, gen_lift.
  match goal with
  | |- context [res_fold (camera_movement ?r) ?l ?acc] =>
      assert (Hcm : forall b x, In x l -> exists b', camera_movement r b x = Ok b');
        [|destruct (res_fold_ok _ _ Hcm acc) as [seq3 ->]]
  end.
  { intros seq mv Hin. apply movement_total. by eapply forallb_In. }
  unfold gen_ret.
  match goal with
  | |- context [res_fold ?f (default [] (sc_effects sc)) ?acc] =>
      assert (Hef : forall b x, In x (default [] (sc_effects sc)) ->
                                exists b', f b x = Ok b');
        [|destruct (res_fold_ok _ _ Hef acc) as [seq4 ->]]
  end.
  { intros seq eff Hin.
    destruct (effect_total eff) as [cmd ->]; [by eapply forallb_In|]. cbn. eauto. }
  by eexists _, _.
Qed.

Lemma compile_scenes_total scs : forall reg,
  forallb wf_scene scs = true ->
  exists seqs reg', compile_scenes scs reg = (Ok seqs, reg').
Proof.
  induction scs as [|sc rest IH]; intros reg Hw; cbn [compile_scenes].
  - by eexists _, _.
  - cbn [forallb] in Hw. apply andb_true_iff in Hw as [Hsc Hrest].
    destruct (scene_total sc reg Hsc) as (seq & reg1 & Hs).
    destruct (IH reg1 Hrest) as (seqs & reg2 & Hr).
    unfold gen_bind. rewrite Hs, Hr. by eexists _, _.
Qed.

Lemma storyboard_total sb reg :
  wf_storyboard sb = true ->
  exists r reg', generate_full_script sb reg = (Ok r, reg').
Proof.
  unfold wf_storyboard. intros H. apply andb_true_iff in H as [Hw Hdiv].
  destruct (compile_scenes_total _ reg Hw) as (seqs & reg' & Hc).
  unfold generate_full_script, gen_bind.
  rewrite (assemble_fold _ 0 [] reg seqs reg' Hc).
  rewrite (compile_scenes_durations _ _ _ _ Hc), Z.add_0_l.
  unfold gen_lift. destruct (int_truediv _ _); [|discriminate Hdiv].
  by eexists _, _.
Qed.
End WithNative.


(** A number that [float] accepts can still stop an orbit: with an
    infinite end angle the angle of the second frame is infinite, and
    [math.cos] raises [ValueError]. *)
Example orbit_with_infinite_angle_raises :
  fst (generate_full_script (native := sample_native)
         (Storyboard None
            (Some [Scene None None None None
                     (Some (Camera
                              (Some [Movement (Some 0) (Some 100) (Some (VStr "orbit"))
                                       None None None None (Some (VFloat infinity))
                                       None None None None None None])
                              None))
                     None]))
         init_registry)
  = Raise ValueError.
Proof. vm_compute. reflexivity. Qed.

(** C6 (amended). A storyboard whose containers are lists of
    mappings, whose ticks and durations are integers and whose actor
    ids are texts (the types of the records), and in which every
    present field is well-formed (the conditions listed at
    [wf_storyboard]) compiles without an exception; an absent field is
    resolved to its documented default (compiling the storyboard with
    the defaults written out gives the same outcome); and [_parse_pos]
    turns every non-numeric coordinate of a sequence into 0.0, raising
    only for an integer beyond the floats. *)
Theorem compilation_of_well_formed_storyboards `{PyNative} (sb : storyboard) (reg : registry) :
  wf_storyboard sb = true ->
  (exists r reg', generate_full_script sb reg = (Ok r, reg'))
  /\ generate_full_script (storyboard_defaults sb) reg = generate_full_script sb reg
  /\ (forall pos items,
        py_iter pos = Ok items ->
        (forall z, In (VInt z) items -> is_ok (float_of_int z) = true) ->
        exists fs,
          _parse_pos pos = Ok fs
          /\ Forall2 (fun x f => non_numeric x = true -> f = 0%float) items fs).
Proof.
  intros Hw. split; [by apply storyboard_total|].
  split; [apply storyboard_defaults_same|].
  intros pos items Hi Hz. destruct (parse_pos_total pos items Hi Hz) as (fs & Hfs & Hall).
  exists fs. split; [done|]. eapply Forall2_impl; [exact Hall|]. by intros x f [_ ?].
Qed.

Lemma compilation_of_well_formed_storyboards_witness :
  (exists r reg', generate_full_script (native := sample_native) rich_board init_registry
                  = (Ok r, reg'))
  /\ _parse_pos (native := sample_native) (VList [VStr "abc"; VInt 64; VStr "~"; VNone])
     = Ok [0%float; 64%float; 0%float; 0%float].
Proof.
  destruct (compilation_of_well_formed_storyboards (H := sample_native)
              rich_board init_registry) as (Hrun & _ & _).
  - vm_compute. reflexivity.
  - split; [exact Hrun|]. vm_compute. reflexivity.
Defined.

(** C6 (counterexample). Storyboards that are mappings at the top and
    raise: a [walk_to] whose target position is the number 5
    ([TypeError]) or has two components ([IndexError]), a spawn of an
    actor whose type is null ([AttributeError]).  A non-numeric
    coordinate of a [walk_to] target is copied into the command, not
    turned into 0. *)
Lemma wrong_typed_fields_raise :
  fst (generate_full_script (native := sample_native)
         (board_of_actor (walker (VInt 5))) init_registry) = Raise TypeError
  /\ fst (generate_full_script (native := sample_native)
            (board_of_actor (walker (VList [VInt 1; VInt 2]))) init_registry)
     = Raise IndexError
  /\ fst (generate_full_script (native := sample_native)
            (board_of_actor (Actor (Some "a1") (Some (VStr "Bob")) (Some VNone)
                               (Some [spawn_at 0]))) init_registry)
     = Raise AttributeError
  /\ match fst (generate_full_script (native := sample_native)
                  (board_of_actor (walker (VList [VStr "north"; VInt 64; VInt 0])))
                  init_registry) with
     | Ok r => map (fun ss => map command (ss_commands ss)) (scenes r)
     | Raise _ => []
     end
     = [["time set day"; "weather clear";
         "tp @e[name=" +:+ dquote +:+ "Bob" +:+ dquote +:+ ",sort=nearest,limit=1] north 64 0"]].
Proof. repeat split; vm_compute; reflexivity. Qed.
End DegradationFacts.


(** * Further properties of the code *)

(** ** Actor commands *)

Module ActorFacts.
Import PyStr Py BBS Layout Samples MoreSamples AssemblyFacts.

Section WithNative.
Context {native : PyNative}.

Lemma adds_add seq tk cmd desc : adds seq (add seq tk cmd desc "minecraft") [tk].
Proof. eexists [_]. cbn. repeat split; auto. Qed.

Lemma adds_refl seq : adds seq seq [].
Proof. exists []. cbn. rewrite app_nil_r. repeat split; auto. Qed.

Lemma max_from_app d l1 l2 : max_from d (l1 ++ l2) = max_from (max_from d l1) l2.
Proof. unfold max_from. apply fold_left_app. Qed.

Lemma adds_trans s1 s2 s3 t1 t2 : adds s1 s2 t1 -> adds s2 s3 t2 -> adds s1 s3 (t1 ++ t2).
Proof.
  intros (l1 & H1 & Ht1 & Hf1 & Hn1 & Hd1) (l2 & H2 & Ht2 & Hf2 & Hn2 & Hd2).
  exists (l1 ++ l2). rewrite H2, H1, <- app_assoc, map_app, Ht1, Ht2.
  repeat split; auto.
  - by apply Forall_app.
  - congruence.
  - rewrite max_from_app. congruence.
Qed.

Lemma other_action_adds act actor_name action_type seq tk a seq' :
  py_eq_str action_type "spawn" = false ->
  other_action act actor_name action_type seq tk a = Ok seq' ->
  adds seq seq' (replicate (emitted action_type) tk).
Proof.
  intros Hsp Ho. unfold other_action in Ho. unfold emitted. rewrite Hsp.
  destruct (_get_target_selector _ _) as [selector|]; cbn [res_bind] in Ho;
    [|discriminate Ho].
  destruct action_type as [| | | |s| |];
    try (cbn in Ho |- *; injection Ho as <-; apply adds_refl).
  cbn [py_eq_str] in *.
  by_kind s "walk_to". { res_inv Ho. subst. apply adds_add. }
  by_kind s "run_to". { res_inv Ho. subst. apply adds_add. }
  by_kind s "sit". { injection Ho as <-. apply adds_add. }
  by_kind s "teleport". { res_inv Ho. subst. apply adds_add. }
  by_kind s "jump". { injection Ho as <-. apply adds_add. }
  by_kind s "attack".
  { injection Ho as <-. eapply (adds_trans _ _ _ [tk] [tk]); apply adds_add. }
  by_kind s "swipe".
  { injection Ho as <-. eapply (adds_trans _ _ _ [tk] [tk]); apply adds_add. }
  by_kind s "interact". { injection Ho as <-. apply adds_add. }
  by_kind s "look_at".
  { destruct (match default (VStr "0 0 0") (a_target a) with
              | VList _ => _ | VStr s => _ | _ => None end);
      res_inv Ho; subst; apply adds_add. }
  cbn. injection Ho as <-. apply adds_refl.
Qed.

Lemma actor_action_adds act actor_name actor_id seq a reg seq' reg' :
  actor_action act actor_name actor_id seq a reg = (Ok seq', reg') ->
  adds seq seq' (replicate (emitted (default (VStr "idle") (a_type a)))
                   (default 0 (a_tick a))).
Proof.
  unfold actor_action. destruct (py_eq_str _ "spawn") eqn:Esp.
  - intros Hs. unfold spawn_action in Hs.
    assert (emitted (default (VStr "idle") (a_type a)) = 1%nat) as ->.
    { destruct (default (VStr "idle") (a_type a)); try discriminate Esp.
      cbn in Esp. apply String.eqb_eq in Esp as ->. reflexivity. }
    gen_inv Hs. subst seq'. apply adds_add.
  - unfold gen_lift. intros [= Ho <-]. by eapply other_action_adds.
Qed.

Lemma actor_fold_adds act actor_name actor_id actions : forall seq reg seq' reg',
  gen_fold (actor_action act actor_name actor_id) actions seq reg = (Ok seq', reg') ->
  adds seq seq' (action_ticks actions).
Proof.
  induction actions as [|a rest IH]; intros seq reg seq' reg' Hf.
  - cbn in Hf. injection Hf as <- <-. apply adds_refl.
  - cbn [gen_fold] in Hf. apply gen_bind_ok in Hf as (seq1 & reg1 & Ha & Hf).
    unfold action_ticks. cbn [flat_map].
    eapply adds_trans; [by eapply actor_action_adds|by eapply IH].
Qed.

(** X1. When [_generate_actor_commands] returns, the ticks of its
    commands are those of the actor's actions, in the order of the
    actions: an attack or swipe gives two commands at its tick, every
    other kind that the loop knows gives one, any other type gives
    none.  Every command is of type minecraft, and [duration_ticks] is
    the largest tick among them, or 0 when none is positive. *)
Theorem actor_commands_follow_actions (act : actor) (reg : registry)
    (seq : CommandSequence) (reg' : registry) :
  _generate_actor_commands act reg = (Ok seq, reg') ->
  map tick (commands seq) = action_ticks (default [] (ac_actions act))
  /\ Forall (fun c => command_type c = "minecraft") (commands seq)
  /\ duration_ticks seq = max_from 0 (map tick (commands seq)).
Proof.
  unfold _generate_actor_commands. intros Hg.
  apply actor_fold_adds in Hg as (l & Hc & Ht & Hf & _ & Hd).
  cbn in Hc, Hd. subst l. rewrite Ht. done.
Qed.
End WithNative.

Lemma actor_commands_follow_actions_witness :
  exists seq,
    fst (_generate_actor_commands (native := sample_native) busy_actor init_registry) = Ok seq
    /\ map tick (commands seq) = [0; 40; 30; 30]
    /\ duration_ticks seq = 40.
Proof.
  destruct (_generate_actor_commands (native := sample_native) busy_actor init_registry)
    as [[seq|e] reg'] eqn:Hg; [|vm_compute in Hg; discriminate Hg].
  destruct (actor_commands_follow_actions (native := sample_native) _ _ _ _ Hg)
    as (Ht & _ & Hd).
  exists seq. split; [reflexivity|]. rewrite Hd, Ht. split; reflexivity.
Defined.
End ActorFacts.


(** ** Spawning and the registry *)

Module SpawnRegistryFacts.
Import PyStr Py BBS RegistryKeys Layout Samples AssemblyFacts.

Section WithNative.
Context {native : PyNative}.

Lemma actor_action_registry act nm ty actor_id seq a reg seq' reg' :
  default (VStr "unknown") (ac_type act) = VStr ty ->
  actor_action act (VStr nm) actor_id seq a reg = (Ok seq', reg') ->
  reg' = if is_spawn a then <[actor_id := spawn_entry nm ty a]> reg else reg.
Proof.
  intros Hty. unfold actor_action, is_spawn. destruct (py_eq_str _ "spawn").
  - unfold spawn_action. rewrite Hty. cbn [py_lower py_str].
    unfold gen_bind, gen_lift, gen_register, gen_ret. by intros [= _ <-].
  - unfold gen_lift. by intros [= _ <-].
Qed.

Lemma actor_fold_registry act nm ty actor_id actions : forall seq reg seq' reg',
  default (VStr "unknown") (ac_type act) = VStr ty ->
  gen_fold (actor_action act (VStr nm) actor_id) actions seq reg = (Ok seq', reg') ->
  reg' = match last (List.filter is_spawn actions) with
         | Some a => <[actor_id := spawn_entry nm ty a]> reg
         | None => reg
         end.
Proof.
  induction actions as [|a rest IH]; intros seq reg seq' reg' Hty Hf.
  - cbn in Hf. by injection Hf as _ <-.
  - cbn [gen_fold] in Hf. apply gen_bind_ok in Hf as (seq1 & reg1 & Ha & Hf).
    apply (actor_action_registry _ _ _ _ _ _ _ _ _ Hty) in Ha.
    apply (IH _ _ _ _ Hty) in Hf. cbn [List.filter].
    destruct (is_spawn a); [|subst reg1; exact Hf].
    subst reg1. destruct (List.filter is_spawn rest) as [|b l] eqn:El.
    + exact Hf.
    + change (last (a :: b :: l)) with (last (b :: l)).
      destruct (last (b :: l)) eqn:E; [|by apply last_None in E].
      rewrite Hf. apply insert_insert_eq.
Qed.

Lemma spawn_needs_texts act actor_name actor_id actions : forall seq reg seq' reg',
  gen_fold (actor_action act actor_name actor_id) actions seq reg = (Ok seq', reg') ->
  List.filter is_spawn actions <> [] ->
  exists nm ty, actor_name = VStr nm /\ default (VStr "unknown") (ac_type act) = VStr ty.
Proof.
  induction actions as [|a rest IH]; intros seq reg seq' reg' Hf Hne; [done|].
  cbn [gen_fold] in Hf. apply gen_bind_ok in Hf as (seq1 & reg1 & Ha & Hf).
  cbn [List.filter] in Hne. destruct (is_spawn a) eqn:Es; [|by eapply IH].
  unfold actor_action in Ha. unfold is_spawn in Es. rewrite Es in Ha.
  unfold spawn_action in Ha. apply gen_bind_ok in Ha as (lt & r1 & H1 & Ha).
  apply gen_bind_ok in Ha as (ln & r2 & H2 & _).
  unfold gen_lift in H1, H2.
  destruct (default (VStr "unknown") (ac_type act)); try discriminate H1.
  destruct actor_name; try discriminate H2. eauto.
Qed.

Lemma actor_fold_no_spawn act actor_name actor_id actions : forall seq reg seq' reg',
  List.filter is_spawn actions = [] ->
  gen_fold (actor_action act actor_name actor_id) actions seq reg = (Ok seq', reg') ->
  reg' = reg.
Proof.
  induction actions as [|a rest IH]; intros seq reg seq' reg' Hn Hf.
  - cbn in Hf. by injection Hf as _ <-.
  - cbn [gen_fold] in Hf. apply gen_bind_ok in Hf as (seq1 & reg1 & Ha & Hf).
    cbn [List.filter] in Hn. destruct (is_spawn a) eqn:Es; [discriminate Hn|].
    unfold actor_action in Ha. unfold is_spawn in Es. rewrite Es in Ha.
    unfold gen_lift in Ha. injection Ha as _ <-. by eapply IH.
Qed.

(** X2. When [_generate_actor_commands] returns, the registry is the
    one before with, under the actor's id (["actor_001"] when it has
    none), the entry of the actor's last spawn action: its display
    name, the position of that action as given, and the resolved entity
    identifier.  Without a spawn action the registry is unchanged.  The
    [look_at] of a dolly resolves a non-empty id to that entry. *)
Theorem spawn_registers_actor (act : actor) (reg : registry)
    (seq : CommandSequence) (reg' : registry) :
  _generate_actor_commands act reg = (Ok seq, reg') ->
  match last (List.filter is_spawn (default [] (ac_actions act))) with
  | None => reg' = reg
  | Some a =>
      exists nm ty,
        default (VStr "actor") (ac_name act) = VStr nm
        /\ default (VStr "unknown") (ac_type act) = VStr ty
        /\ reg' = <[actor_key act := spawn_entry nm ty a]> reg
        /\ (actor_key act <> "" ->
            look_at_entry reg' (VStr (actor_key act)) = Ok (Some (spawn_entry nm ty a)))
  end.
Proof.
  unfold _generate_actor_commands. intros Hg.
  destruct (last (List.filter is_spawn (default [] (ac_actions act)))) as [a|] eqn:El.
  - destruct (spawn_needs_texts _ _ _ _ _ _ _ _ Hg) as (nm & ty & Hn & Hty).
    { intros E. by rewrite E in El. }
    rewrite Hn in Hg. apply (actor_fold_registry _ _ _ _ _ _ _ _ _ Hty) in Hg.
    rewrite El in Hg. exists nm, ty. split; [done|]. split; [done|].
    split; [exact Hg|]. intros Hk. unfold look_at_entry. cbn [py_truthy py_hashable].
    apply String.eqb_neq in Hk. rewrite Hk. cbn [negb]. rewrite Hg.
    by rewrite lookup_insert_eq.
  - apply last_None in El. by eapply actor_fold_no_spawn.
Qed.
End WithNative.

Lemma spawn_registers_actor_witness :
  look_at_entry
    (snd (_generate_actor_commands (native := sample_native)
            (Actor (Some "hero") (Some (VStr "Bob")) (Some (VStr "villager"))
               (Some [spawn_at 0])) init_registry))
    (VStr "hero")
  = Ok (Some (mkEntry "Bob" (default_position 64) "minecraft:villager")).
Proof.
  destruct (_generate_actor_commands (native := sample_native)
              (Actor (Some "hero") (Some (VStr "Bob")) (Some (VStr "villager"))
                 (Some [spawn_at 0])) init_registry) as [[seq|e] reg'] eqn:Hg;
    [|vm_compute in Hg; discriminate Hg].
  pose proof (spawn_registers_actor (native := sample_native) _ _ _ _ Hg) as H.
  cbn -[look_at_entry] in H. destruct H as (nm & ty & [= <-] & [= <-] & _ & Hl).
  cbn [snd]. rewrite Hl by discriminate. reflexivity.
Defined.
End SpawnRegistryFacts.


(** ** Selectors *)

Module SelectorFacts.
Import PyStr Py BBS Layout Samples FilterFacts EntityFacts.

Section WithNative.
Context {native : PyNative}.

(** X3. The selector of an actor is always an entity selector limited
    to the single nearest match, by type or by name; a name or a type
    that is no text raises [AttributeError]. *)
Theorem selector_is_one_entity :
  (forall nm ty : string,
     exists body,
       _get_target_selector (VStr nm) (VStr ty)
       = Ok ("@e[" +:+ body +:+ ",sort=nearest,limit=1]")
       /\ (body = "name=" +:+ dquote +:+ nm +:+ dquote
           \/ exists entity_type, body = "type=" +:+ entity_type))
  /\ (forall nm ty, is_str nm && is_str ty = false ->
        _get_target_selector nm ty = Raise AttributeError).
Proof.
  split.
  - intros nm ty. unfold _get_target_selector. cbn [py_lower res_bind py_str].
    destruct (_ || _).
    + eexists. split; [|right; eexists; reflexivity].
      rewrite !append_cons, append_nil_l. reflexivity.
    + eexists. split; [|left; reflexivity].
      rewrite <- !append_assoc. rewrite !append_cons, append_nil_l. reflexivity.
  - intros nm ty H. unfold _get_target_selector.
    destruct nm; try reflexivity. destruct ty; try reflexivity. discriminate H.
Qed.

(** X4. For an actor with a usable declared type (not "unknown", not
    "actor", no "titan", no colon, no "ender_dragon") whose name has no
    "titan" and no "dragon" in it, what the later actions select is
    what the spawn created: when the name is generic (a known kind, or the type
    itself) the selector is by the spawned identifier; when it is not
    and the spawn attached the custom name, the selector is by that
    name. *)
Theorem selector_finds_spawned (declared display : string) :
  let actor_type := normalised declared in
  let clean_name := normalised display in
  let entity_id := spawn_entity_id actor_type clean_name in
  actor_type <> "unknown" -> actor_type <> "actor" ->
  contains "titan" actor_type = false -> contains ":" actor_type = false ->
  contains "titan" clean_name = false -> contains "dragon" clean_name = false ->
  contains "ender_dragon" entity_id = false ->
  entity_id = "minecraft:" +:+ actor_type
  /\ (generic_name clean_name actor_type = true ->
      _get_target_selector (VStr display) (VStr declared) = Ok (by_type entity_id))
  /\ (generic_name clean_name actor_type = false ->
      lower display <> actor_type -> contains (lower display) entity_id = false ->
      spawn_command display actor_type entity_id
      = "execute at @p run summon " +:+ entity_id +:+ " ~ ~ ~ " +:+ custom_name display
      /\ _get_target_selector (VStr display) (VStr declared) = Ok (by_name display)).
Proof.
  intros actor_type clean_name entity_id Hu Ha Ht Hc Htn Hdn Hed.
  assert (Hid : entity_id = "minecraft:" +:+ actor_type)
    by (by apply spawn_entity_id_declared).
  split; [exact Hid|].
  unfold _get_target_selector. cbn [py_lower res_bind py_str]. cbv zeta.
  fold (normalised display) (normalised declared). fold actor_type clean_name.
  fold (generic_name clean_name actor_type). rewrite Hdn, Htn, orb_false_r.
  apply String.eqb_neq in Hu as Hu'. rewrite Hu'. cbn [negb]. rewrite Hc. cbn [negb].
  split.
  - intros ->. by rewrite Hid.
  - intros -> Hne Hsub. split; [|reflexivity].
    unfold spawn_command. apply String.eqb_neq in Hne. rewrite Hne, Hsub, Hed. done.
Qed.

(** X5. For an actor with a declared type other than "unknown" and
    "actor", without "titan" and not an ender dragon, whose name has no
    "dragon" in it: a display name that is not generic but occurs
    inside the entity identifier is not attached by the spawn, while
    the later actions of the actor select by it: they name an entity
    that the spawn did not name. *)
Theorem selector_misses_unnamed_spawn (declared display : string) :
  let actor_type := normalised declared in
  let clean_name := normalised display in
  let entity_id := spawn_entity_id actor_type clean_name in
  actor_type <> "unknown" -> actor_type <> "actor" ->
  contains "titan" actor_type = false ->
  contains "dragon" clean_name = false ->
  contains "ender_dragon" entity_id = false ->
  generic_name clean_name actor_type = false ->
  contains (lower display) entity_id = true ->
  spawn_command display actor_type entity_id
  = "execute at @p run summon " +:+ entity_id +:+ " ~ ~ ~ "
  /\ _get_target_selector (VStr display) (VStr declared) = Ok (by_name display).
Proof.
  intros actor_type clean_name entity_id Hu Ha Ht Hdn Hed Hg Hsub. split.
  - unfold spawn_command. rewrite Hsub, Hed, andb_false_r.
    by change (" ~ ~ ~ " +:+ "") with " ~ ~ ~ ".
  - unfold _get_target_selector. cbn [py_lower res_bind py_str]. cbv zeta.
    fold (normalised display) (normalised declared). fold actor_type clean_name.
    fold (generic_name clean_name actor_type). by rewrite Hg, Hdn.
Qed.

End WithNative.

Lemma selector_finds_spawned_witness :
  _get_target_selector (native := sample_native) (VStr "Cow") (VStr "cow")
  = Ok "@e[type=minecraft:cow,sort=nearest,limit=1]".
Proof.
  refine (proj1 (proj2 (selector_finds_spawned (native := sample_native) "cow" "Cow" _ _ _ _ _ _ _)) _);
    first [discriminate | reflexivity].
Defined.

Lemma selector_misses_unnamed_spawn_witness :
  spawn_command "Zom" "zombie" "minecraft:zombie"
  = "execute at @p run summon minecraft:zombie ~ ~ ~ "
  /\ _get_target_selector (native := sample_native) (VStr "Zom") (VStr "zombie")
     = Ok ("@e[name=" +:+ dquote +:+ "Zom" +:+ dquote +:+ ",sort=nearest,limit=1]").
Proof.
  refine (selector_misses_unnamed_spawn (native := sample_native) "zombie" "Zom" _ _ _ _ _ _ _);
    first [discriminate | reflexivity].
Defined.
End SelectorFacts.


(** ** Looking at a target *)

Module LookAtFacts.
Import PyStr Py BBS Samples DegradationFacts.

Section WithNative.
Context {native : PyNative}.

(** X6. A [look_at] target that is a text starting with a digit, a
    blank, a dot, a minus or a tilde is read as coordinates, whatever
    follows: with fewer than three blank-separated parts the action
    raises [IndexError], otherwise the command faces the first three
    parts as they are written. *)
Theorem look_at_text_read_as_coordinates (act : actor) (nm ty target : string)
    (seq : CommandSequence) (tk : Z) (a : action) :
  default (VStr "unknown") (ac_type act) = VStr ty ->
  a_target a = Some (VStr target) ->
  looks_like_coords target = true ->
  exists selector,
    _get_target_selector (VStr nm) (VStr ty) = Ok selector
    /\ ((length (split target) < 3)%nat ->
        other_action act (VStr nm) (VStr "look_at") seq tk a = Raise IndexError)
    /\ (forall x y z rest, split target = x :: y :: z :: rest ->
          other_action act (VStr nm) (VStr "look_at") seq tk a
          = Ok (add seq tk
                  ("execute as " +:+ selector +:+ " at @s run facing "
                     +:+ x +:+ " " +:+ y +:+ " " +:+ z)
                  (nm +:+ " looks at " +:+ py_str (VList (map VStr (split target))))
                  "minecraft")).
Proof.
  intros Hty Ht Hl. destruct (selector_total nm ty) as [selector Hs].
  exists selector. split; [exact Hs|].
  unfold other_action. rewrite Hty, Hs. cbn [res_bind py_eq_str String.eqb Ascii.eqb Bool.eqb orb].
  rewrite Ht. cbn [from_option id]. rewrite Hl. unfold triple_text. split.
  - intros Hlen. destruct (split target) as [|x [|y [|z rest]]]; cbn in *; try reflexivity.
    lia.
  - intros x y z rest ->. reflexivity.
Qed.
End WithNative.

Lemma look_at_text_read_as_coordinates_witness :
  other_action (native := sample_native)
    (Actor (Some "g1") (Some (VStr "Guard")) (Some (VStr "villager")) None)
    (VStr "Guard") (VStr "look_at") (new_sequence VNone) 0
    (Action (Some 0) (Some (VStr "look_at")) None None (Some (VStr "3rd tower")))
  = Raise IndexError.
Proof.
  destruct (look_at_text_read_as_coordinates (native := sample_native)
              (Actor (Some "g1") (Some (VStr "Guard")) (Some (VStr "villager")) None)
              "Guard" "villager" "3rd tower" (new_sequence VNone) 0
              (Action (Some 0) (Some (VStr "look_at")) None None (Some (VStr "3rd tower")))
              eq_refl eq_refl eq_refl) as (selector & _ & Hshort & _).
  apply Hshort. vm_compute. lia.
Defined.
End LookAtFacts.


(** ** The layout of a scene *)

Module SceneFacts.
Import PyStr Py BBS Layout Samples FilterFacts AssemblyFacts SortFacts Timeline.

Lemma table_get_in {A} (table : list (string * A)) key dflt v :
  table_get table key dflt = Ok v -> v = dflt \/ In v (map snd table).
Proof.
  unfold table_get. destruct (py_hashable key); [|discriminate].
  destruct key; try (intros [= <-]; by left).
  destruct (find _ table) as [kv|] eqn:Ef; cbn; intros [= <-]; [right|by left].
  apply find_some in Ef as [Hin _]. by apply in_map.
Qed.

Lemma table_get_raises_iff {A} (table : list (string * A)) key dflt e :
  table_get table key dflt = Raise e <-> e = TypeError /\ py_hashable key = false.
Proof.
  unfold table_get. destruct (py_hashable key).
  - split; [destruct key; discriminate|]. by intros [_ [=]].
  - split; [by intros [= <-]|]. by intros [-> _].
Qed.

(** X7. The time and the weather command of a scene are taken from a
    fixed list, whatever the setting holds: no text of the storyboard
    reaches them.  They raise [AttributeError] exactly when the setting
    is no mapping, and [TypeError] exactly when it is a mapping whose
    value for the key cannot be hashed; they raise nothing else. *)
Theorem setting_commands_are_fixed (sc : scene) :
  (forall c, _time_command sc = Ok c ->
     In c ["time set day"; "time set noon"; "time set 12000"; "time set night";
           "time set midnight"; "time set 23000"])
  /\ (forall c, _weather_command sc = Ok c ->
        In c ["weather clear"; "weather rain"; "weather thunder"])
  /\ (forall e, _time_command sc = Raise e <->
        match scene_setting sc with
        | VDict d =>
            e = TypeError
            /\ py_hashable (default (VStr "day") (dict_get d "time_of_day")) = false
        | _ => e = AttributeError
        end)
  /\ (forall e, _weather_command sc = Raise e <->
        match scene_setting sc with
        | VDict d =>
            e = TypeError
            /\ py_hashable (default (VStr "clear") (dict_get d "weather")) = false
        | _ => e = AttributeError
        end).
Proof.
  unfold _time_command, _weather_command.
  split; [|split; [|split]].
  - intros c Hc. destruct (py_get _ _ _) as [key|]; [|discriminate Hc].
    apply table_get_in in Hc as [-> | Hin]; [by left|]. cbn in Hin. cbn. tauto.
  - intros c Hc. destruct (py_get _ _ _) as [key|]; [|discriminate Hc].
    apply table_get_in in Hc as [-> | Hin]; [by left|]. cbn in Hin. cbn. tauto.
  - intros e. destruct (scene_setting sc); cbn [py_get res_bind];
      try (split; [by intros [= <-]|by intros ->]).
    apply table_get_raises_iff.
  - intros e. destruct (scene_setting sc); cbn [py_get res_bind];
      try (split; [by intros [= <-]|by intros ->]).
    apply table_get_raises_iff.
Qed.

(** A setting that is null or a text stops the compilation of the
    scene, and world modifications given as one text are taken
    character by character. *)
Example setting_that_is_no_mapping_raises :
  fst (generate_full_script (native := sample_native)
         (Storyboard None (Some [Scene None None (Some VNone) None None None]))
         init_registry)
  = Raise AttributeError
  /\ fst (generate_full_script (native := sample_native)
            (Storyboard None (Some [Scene None None (Some (VStr "night")) None None None]))
            init_registry)
     = Raise AttributeError
  /\ match fst (generate_full_script (native := sample_native)
                  (Storyboard None
                     (Some [Scene None None
                              (Some (VDict [("world_modifications", VStr "hut")]))
                              None None None]))
                  init_registry) with
     | Ok r => map (fun ss => map description (ss_commands ss)) (scenes r)
     | Raise _ => []
     end
     = [["Set time of day"; "Set weather"; "Build h"; "Build u"; "Build t"]].
Proof. repeat split; vm_compute; reflexivity. Qed.

Lemma world_mod_command_set a b : world_mod_command a b <> "".
Proof.
  unfold world_mod_command.
  repeat match goal with |- context [if ?c then _ else _] => destruct c end;
    discriminate.
Qed.

Section WithNative.
Context {native : PyNative}.

Lemma world_modifications_fold mods : forall (k : nat) seq seq',
  res_fold world_modification (imap (fun i => pair (k + i)%nat) mods) seq = Ok seq' ->
  exists labels,
    mods = map VStr labels
    /\ commands seq' = commands seq ++ imap (fun i => build_command (k + i)) labels
    /\ name seq' = name seq.
Proof.
  induction mods as [|m rest IH]; intros k seq seq' Hf.
  - cbn in Hf. injection Hf as <-. exists []. cbn. by rewrite app_nil_r.
  - cbn [imap res_fold] in Hf.
    destruct (world_modification seq ((k + 0)%nat, m)) as [seq1|] eqn:Ew;
      cbn [res_bind] in Hf; [|discriminate Hf].
    unfold world_modification in Ew. destruct m; try discriminate Ew.
    cbn [py_lower res_bind py_str] in Ew.
    destruct (negb _) eqn:En.
    2:{ apply negb_false_iff, String.eqb_eq in En. by apply world_mod_command_set in En. }
    injection Ew as <-.
    rewrite (imap_ext _ (fun i => pair (S k + i)%nat)) in Hf
      by (intros; cbn; f_equal; lia).
    apply IH in Hf as (labels & -> & Hc & Hn).
    exists (s :: labels). split; [done|]. split; [|done].
    rewrite Hc. cbn [add commands imap]. rewrite <- app_assoc. cbn [app].
    f_equal. f_equal. apply imap_ext. intros. cbn. f_equal. lia.
Qed.

Lemma fold_append_commands l : forall seq,
  commands (fold_left append_command l seq) = commands seq ++ l
  /\ name (fold_left append_command l seq) = name seq.
Proof.
  induction l as [|c l IH]; intros seq; cbn [fold_left].
  - by rewrite app_nil_r.
  - destruct (IH (append_command seq c)) as [-> ->]. cbn. by rewrite <- app_assoc.
Qed.

Lemma extends_refl seq : extends seq seq.
Proof. split; [exists []; by rewrite app_nil_r|done]. Qed.

Lemma extends_trans s1 s2 s3 : extends s1 s2 -> extends s2 s3 -> extends s1 s3.
Proof.
  intros [[l1 H1] N1] [[l2 H2] N2]. split; [|congruence].
  exists (l1 ++ l2). by rewrite H2, H1, app_assoc.
Qed.

Lemma res_fold_extends {A} (f : CommandSequence -> A -> res CommandSequence) l :
  (forall seq x seq', f seq x = Ok seq' -> extends seq seq') ->
  forall seq seq', res_fold f l seq = Ok seq' -> extends seq seq'.
Proof.
  intros Hf. induction l as [|x l IH]; intros seq seq' H.
  - injection H as <-. apply extends_refl.
  - cbn in H. destruct (f seq x) as [s1|] eqn:E; [|discriminate H].
    eapply extends_trans; [by eapply Hf|by apply IH].
Qed.

Lemma gen_fold_extends {A} (f : CommandSequence -> A -> gen CommandSequence) l :
  (forall seq x reg seq' reg', f seq x reg = (Ok seq', reg') -> extends seq seq') ->
  forall seq reg seq' reg', gen_fold f l seq reg = (Ok seq', reg') -> extends seq seq'.
Proof.
  intros Hf. induction l as [|x l IH]; intros seq reg seq' reg' H.
  - injection H as <- <-. apply extends_refl.
  - cbn [gen_fold] in H. apply gen_bind_ok in H as (s1 & r1 & H1 & H).
    eapply extends_trans; [by eapply Hf|by eapply IH].
Qed.

(** X8. A compiled scene opens with the time and the weather command
    at tick 0, followed by one command for every item that the loop
    over the world modifications visits, the label at index [i] at
    tick [5 * i]; every label is a text, and none is skipped. *)
Theorem scene_opens_with_setting (sc : scene) (reg : registry)
    (seq : CommandSequence) (reg' : registry) :
  generate_scene_commands sc reg = (Ok seq, reg') ->
  exists time_cmd weather_cmd labels rest,
    _time_command sc = Ok time_cmd
    /\ _weather_command sc = Ok weather_cmd
    /\ scene_modifications sc = Ok (map VStr labels)
    /\ commands seq
       = mkBBSCommand 0 time_cmd "Set time of day" "minecraft"
           :: mkBBSCommand 0 weather_cmd "Set weather" "minecraft"
           :: imap build_command labels ++ rest
    /\ name seq = default (VStr "unnamed_scene") (sc_name sc).
Proof.
  unfold generate_scene_commands. intros Hg.
  apply gen_bind_ok in Hg as (time_cmd & r1 & Ht & Hg). unfold gen_lift in Ht.
  injection Ht as Ht <-.
  apply gen_bind_ok in Hg as (weather_cmd & r2 & Hw & Hg). unfold gen_lift in Hw.
  injection Hw as Hw <-.
  apply gen_bind_ok in Hg as (seq1 & r3 & Hm & Hg). unfold gen_lift in Hm.
  injection Hm as Hm <-.
  destruct (py_get (scene_setting sc) "world_modifications" (VList []))
    as [world_modifications|] eqn:Eget; cbn [res_bind] in Hm; [|discriminate Hm].
  destruct (py_iter world_modifications) as [mods|] eqn:Eiter; cbn [res_bind] in Hm;
    [|discriminate Hm].
  apply gen_bind_ok in Hg as (seq2 & r4 & Ha & Hg).
  apply gen_bind_ok in Hg as (camera_cmds & r5 & Hc & Hg).
  apply gen_bind_ok in Hg as (seq3 & r6 & He & Hg). unfold gen_lift in He.
  injection He as He <-.
  unfold gen_ret in Hg. injection Hg as <- <-. cbn [commands name].
  apply (world_modifications_fold _ 0%nat) in Hm as (labels & Hl & Hc1 & Hn1).
  cbn [add commands name new_sequence app] in Hc1, Hn1.
  assert (E2 : extends seq1 seq2).
  { eapply gen_fold_extends; [|exact Ha]. intros s act rg s' rg' Hact.
    apply gen_bind_ok in Hact as (ac & rg1 & _ & Hact).
    unfold gen_ret in Hact. injection Hact as <- <-.
    destruct (fold_append_commands (commands ac) s) as [Hx Hy].
    split; [by eexists|done]. }
  assert (E3 : extends seq2 seq3).
  { destruct (fold_append_commands (commands camera_cmds) seq2) as [Hx Hy].
    eapply extends_trans; [split; [by eexists|exact Hy]|].
    eapply res_fold_extends; [|exact He]. intros s eff s' Heff.
    cbn beta in Heff.
    destruct (_generate_effect_command eff); cbn [res_bind] in Heff; [|discriminate Heff].
    injection Heff as <-. split; [by eexists|done]. }
  destruct (extends_trans _ _ _ E2 E3) as [[rest Hr] Hn].
  exists time_cmd, weather_cmd, labels, rest.
  repeat split; try done.
  - unfold scene_modifications. rewrite Eget. cbn [res_bind]. by rewrite Eiter, Hl.
  - rewrite Hr, Hc1. reflexivity.
  - by rewrite Hn, Hn1.
Qed.
End WithNative.

Lemma scene_opens_with_setting_witness :
  exists rest,
    commands
      (match fst (generate_scene_commands (native := sample_native)
                    (Scene None None
                       (Some (VDict [("time_of_day", VStr "night");
                                     ("world_modifications",
                                      VList [VStr "Old Castle"; VStr "moat"])]))
                       None None None) init_registry) with
       | Ok seq => seq
       | Raise _ => new_sequence VNone
       end)
    = mkBBSCommand 0 "time set night" "Set time of day" "minecraft"
        :: mkBBSCommand 0 "weather clear" "Set weather" "minecraft"
        :: [mkBBSCommand 0 "execute at @p run place structure minecraft:pillager_outpost ~ ~ ~"
              "Build Old Castle" "minecraft";
            mkBBSCommand 5 "say [Agent] World Mod: moat" "Build moat" "minecraft"] ++ rest.
Proof.
  destruct (generate_scene_commands (native := sample_native)
              (Scene None None
                 (Some (VDict [("time_of_day", VStr "night");
                               ("world_modifications",
                                VList [VStr "Old Castle"; VStr "moat"])]))
                 None None None) init_registry) as [[seq|e] reg'] eqn:Hg;
    [|vm_compute in Hg; discriminate Hg].
  destruct (scene_opens_with_setting (native := sample_native) _ _ _ _ Hg)
    as (t & w & labels & rest & Ht & Hw & Hl & Hc & _).
  exists rest. cbn [fst]. rewrite Hc.
  vm_compute in Ht. injection Ht as <-. vm_compute in Hw. injection Hw as <-.
  cbn in Hl. destruct labels as [|l1 [|l2 [|]]]; try discriminate Hl.
  injection Hl as <- <-. reflexivity.
Defined.
End SceneFacts.


(** ** Keyframes *)

Module KeyframeFacts.
Import PyStr Py BBS Layout Samples FilterFacts AssemblyFacts SortFacts Timeline CameraFacts.

Lemma one_more_add seq tk cmd desc : one_more seq (add seq tk cmd desc "camera").
Proof. by eexists. Qed.

Lemma frames_more (body : CommandSequence -> Z -> res CommandSequence) l :
  (forall seq i seq', body seq i = Ok seq' -> one_more seq seq') ->
  forall seq seq', res_fold body l seq = Ok seq' -> more (length l) seq seq'.
Proof.
  intros Hb. induction l as [|i l IH]; intros seq seq' Hf.
  - injection Hf as <-. exists []. by rewrite app_nil_r.
  - cbn in Hf. destruct (body seq i) as [s1|] eqn:E; [|discriminate Hf].
    apply Hb in E as (c & Hc & Ht). apply IH in Hf as (cmds & Hcs & Hl & Hall).
    exists (c :: cmds). rewrite Hcs, Hc, <- app_assoc. cbn. split; [done|].
    split; [by rewrite Hl|by constructor].
Qed.

Lemma range_length n : length (range n) = Z.to_nat n.
Proof. unfold range. apply length_seqZ. Qed.

Lemma num_frames_le ts te : num_frames ts te <= 20.
Proof. unfold num_frames. lia. Qed.

Section WithNative.
Context {native : PyNative}.

Lemma orbit_frame_more center radius sa ea height ts te frames seq i seq' :
  orbit_frame center radius sa ea height ts te frames seq i = Ok seq' ->
  one_more seq seq'.
Proof. unfold orbit_frame. intros H. res_inv H. subst. apply one_more_add. Qed.

Lemma dolly_frame_more reg sp ep look_at ts te frames seq i seq' :
  dolly_frame reg sp ep look_at ts te frames seq i = Ok seq' -> one_more seq seq'.
Proof.
  unfold dolly_frame, lerp_at. intros H. res_inv H. subst. apply one_more_add.
Qed.

(** X9. A camera movement adds commands of type camera only: one for
    a static or follow movement, none for an unknown kind, and for an
    orbit or a dolly one per frame, which is never exactly one and
    never more than 21. *)
Theorem camera_movement_keyframes (reg : registry) (seq : CommandSequence)
    (mv : movement) (seq' : CommandSequence) :
  camera_movement reg seq mv = Ok seq' ->
  exists cmds,
    commands seq' = commands seq ++ cmds
    /\ Forall (fun c => command_type c = "camera") cmds
    /\ (length cmds <= 21)%nat
    /\ (py_eq_str (movement_kind mv) "orbit" || py_eq_str (movement_kind mv) "dolly" = true ->
        length cmds = Z.to_nat (frames_of mv + 1) /\ length cmds <> 1%nat)
    /\ (py_eq_str (movement_kind mv) "static" || py_eq_str (movement_kind mv) "follow" = true ->
        length cmds = 1%nat)
    /\ (py_eq_str (movement_kind mv) "orbit" || py_eq_str (movement_kind mv) "dolly"
        || py_eq_str (movement_kind mv) "static" || py_eq_str (movement_kind mv) "follow" = false ->
        cmds = []).
Proof.
  unfold camera_movement, movement_kind, frames_of. cbv zeta.
  set (ts := default 0 (m_tick_start mv)). set (te := default 100 (m_tick_end mv)).
  pose proof (num_frames_le ts te) as Hle.
  assert (Hone : Z.to_nat (num_frames ts te + 1) = 1%nat -> num_frames ts te = 0) by lia.
  destruct (default (VStr "static") (m_type mv)) as [| | | |kind| |];
    try (intros [= <-]; exists []; rewrite app_nil_r; cbn; repeat split; auto; try lia;
         discriminate).
  cbn [py_eq_str].
  destruct (String.eqb_spec kind "static") as [->|N1].
  { intros H. res_inv H. subst. eexists [_]. cbn. repeat split; auto; try lia; discriminate. }
  destruct (String.eqb_spec kind "orbit") as [->|N2].
  { intros H. res_inv H.
    pose proof H as Hr. apply frames_more in H as (cmds & Hc & Hl & Hall);
      [|intros ? ? ?; apply orbit_frame_more].
    rewrite range_length in Hl. exists cmds. repeat split; auto; try lia; try discriminate.
    intros H1. rewrite Hl in H1. apply Hone in H1. rewrite H1 in Hr.
    cbn in Hr. discriminate Hr. }
  destruct (String.eqb_spec kind "dolly") as [->|N3].
  { intros H. res_inv H.
    pose proof H as Hr. apply frames_more in H as (cmds & Hc & Hl & Hall);
      [|intros ? ? ?; apply dolly_frame_more].
    rewrite range_length in Hl. exists cmds. repeat split; auto; try lia; try discriminate.
    intros H1. rewrite Hl in H1. apply Hone in H1. rewrite H1 in Hr.
    cbn in Hr. discriminate Hr. }
  destruct (String.eqb_spec kind "follow") as [->|N4].
  { intros [= <-]. eexists [_]. cbn. repeat split; auto; try lia; discriminate. }
  intros [= <-]. exists []. rewrite app_nil_r. cbn. repeat split; auto; try lia; discriminate.
Qed.
End WithNative.

Lemma camera_movement_keyframes_witness :
  exists seq' cmds,
    camera_movement (native := sample_native) ∅ (new_sequence (VStr "camera"))
      (plain_movement "dolly" 0 1000) = Ok seq'
    /\ commands seq' = cmds /\ length cmds = 21%nat.
Proof.
  destruct (camera_movement (native := sample_native) ∅ (new_sequence (VStr "camera"))
              (plain_movement "dolly" 0 1000)) as [seq'|e] eqn:Hc;
    [|vm_compute in Hc; discriminate Hc].
  destruct (camera_movement_keyframes (native := sample_native) _ _ _ _ Hc)
    as (cmds & Hcs & _ & _ & Hk & _).
  exists seq', cmds. split; [done|]. split; [exact Hcs|].
  destruct (Hk eq_refl) as [-> _]. reflexivity.
Defined.

(** X10. [to_list] gives the commands of a sequence in ascending tick
    order, loses and repeats none, and keeps the commands of one tick
    in the order in which they were added. *)
Theorem to_list_sorts_by_tick (seq : CommandSequence) :
  ordered tick (to_list seq)
  /\ Permutation (to_list seq) (commands seq)
  /\ (forall tk, List.filter (fun c => tick c =? tk) (to_list seq)
                 = List.filter (fun c => tick c =? tk) (commands seq)).
Proof.
  unfold to_list. split; [apply sorted_by_ordered|].
  split; [apply sorted_by_perm|]. intros tk. apply sorted_by_stable.
Qed.
End KeyframeFacts.


(** ** Export to function files *)

Module ExportFacts.
Import PyStr Py BBS Files Exporter ExportLayout Samples MoreSamples.

Lemma write_all_app fs w1 w2 : write_all fs (w1 ++ w2) = write_all (write_all fs w1) w2.
Proof. unfold write_all. apply fold_left_app. Qed.

Lemma write_all_other fs writes p :
  ~ In p (map fst writes) -> write_all fs writes !! p = fs !! p.
Proof.
  revert fs. induction writes as [|[q t] writes IH]; intros fs Hp; [done|].
  change (write_all fs ((q, t) :: writes)) with (write_all (<[q := t]> fs) writes).
  rewrite IH by (intros Hin; apply Hp; by right).
  apply lookup_insert_ne. intros ->. apply Hp. by left.
Qed.

Lemma write_all_last fs writes (k : nat) p t :
  writes !! k = Some (p, t) ->
  (forall (j : nat) w, (k < j)%nat -> writes !! j = Some w -> fst w <> p) ->
  write_all fs writes !! p = Some t.
Proof.
  revert fs k. induction writes as [|[q u] writes IH]; intros fs k Hk Hlater; [done|].
  change (write_all fs ((q, u) :: writes)) with (write_all (<[q := u]> fs) writes).
  destruct k as [|k].
  - injection Hk as -> ->. rewrite write_all_other; [apply lookup_insert_eq|].
    intros Hin. apply in_map_iff in Hin as (w & Hw & Hin).
    apply list_elem_of_In, list_elem_of_lookup in Hin as [j Hj].
    apply (Hlater (S j) w); [lia|done|done].
  - apply (IH _ k Hk). intros j w Hj Hw. apply (Hlater (S j) w); [lia|done].
Qed.

Section WithFileSystem.
Context {fsys : FileSystem}.

Lemma export_scene_returns output_dir created lines ss w fs :
  scene_file output_dir ss = Some w -> writable (fst w) = true ->
  export_scene output_dir (created, lines) ss fs
  = (Returned (created ++ [fst w], lines ++ main_entry ss), <[fst w := snd w]> fs).
Proof.
  unfold scene_file, main_entry, text_name, export_scene.
  destruct (ss_name ss); try discriminate. intros [= <-]. cbn [fst snd]. intros Hw.
  unfold io_bind, io_write, scene_path. unfold scene_path in Hw. by rewrite Hw.
Qed.

Lemma export_scene_inv output_dir created lines ss st fs fs' :
  export_scene output_dir (created, lines) ss fs = (Returned st, fs') ->
  exists w, scene_file output_dir ss = Some w /\ writable (fst w) = true.
Proof.
  unfold scene_file, text_name, export_scene.
  destruct (ss_name ss); try discriminate.
  unfold io_bind, io_write, scene_path. destruct (writable _) eqn:Hw; [|discriminate].
  intros _. eexists. split; [reflexivity|exact Hw].
Qed.

Lemma export_fold_returns output_dir scs : forall writes created lines fs,
  scene_files output_dir scs writes ->
  io_fold (export_scene output_dir) scs (created, lines) fs
  = (Returned (created ++ map fst writes, lines ++ flat_map main_entry scs),
     write_all fs writes).
Proof.
  induction scs as [|ss scs IH]; intros writes created lines fs Hf.
  - apply Forall2_nil_inv_l in Hf as ->. cbn. by rewrite !app_nil_r.
  - apply Forall2_cons_inv_l in Hf as (w & writes' & [Hw Hok] & Hf & ->).
    cbn [io_fold]. unfold io_bind at 1.
    rewrite (export_scene_returns _ _ _ _ _ _ Hw Hok), (IH _ _ _ _ Hf).
    cbn [map flat_map write_all fold_left]. by rewrite <- !app_assoc.
Qed.

Lemma export_fold_inv output_dir scs : forall st fs st' fs',
  io_fold (export_scene output_dir) scs st fs = (Returned st', fs') ->
  exists writes, scene_files output_dir scs writes.
Proof.
  induction scs as [|ss scs IH]; intros [created lines] fs st' fs' Hf.
  - exists []. constructor.
  - cbn [io_fold] in Hf. unfold io_bind at 1 in Hf.
    destruct (export_scene output_dir (created, lines) ss fs) as [[st1|e] fs1] eqn:E;
      [|discriminate Hf].
    destruct (export_scene_inv _ _ _ _ _ _ _ E) as (w & Hw & Hok).
    apply IH in Hf as [writes Hf]. exists (w :: writes). by constructor.
Qed.

Lemma export_fold_raises output_dir pre bad post writes created lines fs :
  scene_files output_dir pre writes ->
  text_name bad = None ->
  io_fold (export_scene output_dir) (pre ++ bad :: post) (created, lines) fs
  = (Raised (PyError AttributeError), write_all fs writes).
Proof.
  revert writes created lines fs.
  induction pre as [|ss pre IH]; intros writes created lines fs Hf Hbad.
  - apply Forall2_nil_inv_l in Hf as ->. cbn [app io_fold]. unfold io_bind.
    unfold text_name in Hbad. unfold export_scene.
    destruct (ss_name bad); try discriminate Hbad; reflexivity.
  - apply Forall2_cons_inv_l in Hf as (w & writes' & [Hw Hok] & Hf & ->).
    cbn [app io_fold]. unfold io_bind at 1.
    rewrite (export_scene_returns _ _ _ _ _ _ Hw Hok).
    change (write_all fs (w :: writes')) with (write_all (<[fst w := snd w]> fs) writes').
    by apply IH.
Qed.

Lemma export_returned (r : script) (output_dir : string) (fs : files)
    (created : list string) (fs' : files) :
  export_to_mcfunction r output_dir fs = (Returned created, fs') ->
  makedirs output_dir = true
  /\ writable (main_path output_dir) = true
  /\ exists writes,
       scene_files output_dir (scenes r) writes
       /\ created = map fst writes ++ [main_path output_dir]
       /\ fs' = <[main_path output_dir := main_text r]> (write_all fs writes).
Proof.
  unfold export_to_mcfunction, io_bind at 1, io_makedirs.
  destruct (makedirs output_dir); [|discriminate]. unfold io_bind at 1.
  destruct (io_fold _ _ _ fs) as [[[cr ln]|e] fs1] eqn:Ef; [|discriminate].
  destruct (export_fold_inv _ _ _ _ _ _ Ef) as [writes Hw].
  rewrite (export_fold_returns _ _ _ _ _ _ Hw) in Ef. injection Ef as <- <- <-.
  unfold io_bind, io_write. fold (main_path output_dir).
  destruct (writable (main_path output_dir)); [|discriminate].
  intros [= <- <-]. split; [done|]. split; [done|]. exists writes. done.
Qed.

(** X11. [export_to_mcfunction] returns exactly when the directory can
    be made, every scene name is a text and every file can be written.
    It then lists one path per scene and the orchestrator's path last,
    and the files are the scene files written in order with the
    orchestrator written over them. *)
Theorem export_returns_iff (r : script) (output_dir : string) (fs : files)
    (created : list string) (fs' : files) :
  export_to_mcfunction r output_dir fs = (Returned created, fs')
  <-> makedirs output_dir = true
      /\ writable (main_path output_dir) = true
      /\ exists writes,
           scene_files output_dir (scenes r) writes
           /\ created = map fst writes ++ [main_path output_dir]
           /\ fs' = <[main_path output_dir := main_text r]> (write_all fs writes).
Proof.
  split; [apply export_returned|].
  intros (Hd & Hm & writes & Hw & -> & ->).
  unfold export_to_mcfunction, io_bind at 1, io_makedirs. rewrite Hd.
  unfold io_bind at 1. rewrite (export_fold_returns _ _ _ _ _ _ Hw).
  unfold io_bind, io_write. fold (main_path output_dir). by rewrite Hm.
Qed.

(** X12. After an export, the file of a scene holds the lines of that
    scene provided no later scene and not the orchestrator has the same
    path; the orchestrator's file always holds the orchestrator; no
    file outside the returned list is touched. *)
Theorem export_reads_back (r : script) (output_dir : string) (fs : files)
    (created : list string) (fs' : files) :
  export_to_mcfunction r output_dir fs = (Returned created, fs') ->
  fs' !! main_path output_dir = Some (main_text r)
  /\ (forall (k : nat) ss nm,
        scenes r !! k = Some ss -> ss_name ss = VStr nm ->
        scene_path output_dir nm <> main_path output_dir ->
        (forall (j : nat) ss' nm', (k < j)%nat -> scenes r !! j = Some ss' ->
           ss_name ss' = VStr nm' -> scene_path output_dir nm' <> scene_path output_dir nm) ->
        fs' !! scene_path output_dir nm = Some (join_lines (scene_lines nm ss)))
  /\ (forall p, ~ In p created -> fs' !! p = fs !! p).
Proof.
  intros He. apply export_returned in He as (_ & _ & writes & Hw & -> & ->).
  split; [apply lookup_insert_eq|]. split.
  - intros k ss nm Hk Hn Hmain Hlater. rewrite lookup_insert_ne by done.
    destruct (Forall2_lookup_l _ _ _ _ _ Hw Hk) as (w & Hwk & Hf & _).
    unfold scene_file, text_name in Hf. rewrite Hn in Hf. injection Hf as <-.
    apply (write_all_last _ _ k); [done|].
    intros j w Hj Hwj Heq.
    destruct (Forall2_lookup_r _ _ _ _ _ Hw Hwj) as (ss' & Hss' & Hf' & _).
    unfold scene_file, text_name in Hf'.
    destruct (ss_name ss') eqn:Hn'; try discriminate Hf'. injection Hf' as <-.
    by apply (Hlater j ss' s).
  - intros p Hp. rewrite lookup_insert_ne.
    + apply write_all_other. intros Hin. apply Hp, in_or_app. by left.
    + intros <-. apply Hp, in_or_app. right. by left.
Qed.

(** X13. A scene whose name is no text stops the export with
    [AttributeError]: the files of the scenes before it are written and
    stay, the scenes after it and the orchestrator are not written. *)
Theorem export_stops_half_way (r : script) (output_dir : string) (fs : files)
    (pre post : list scene_script) (bad : scene_script) (writes : list (string * string)) :
  makedirs output_dir = true ->
  scenes r = pre ++ bad :: post ->
  scene_files output_dir pre writes ->
  text_name bad = None ->
  export_to_mcfunction r output_dir fs
  = (Raised (PyError AttributeError), write_all fs writes)
  /\ (forall p, ~ In p (map fst writes) -> write_all fs writes !! p = fs !! p).
Proof.
  intros Hd Hs Hw Hbad. split; [|intros p; apply write_all_other].
  unfold export_to_mcfunction, io_bind at 1, io_makedirs. rewrite Hd, Hs.
  unfold io_bind at 1. by rewrite (export_fold_raises _ _ _ _ _ _ _ _ Hw Hbad).
Qed.
End WithFileSystem.

Lemma export_returns_iff_witness :
  exists fs',
    export_to_mcfunction (fsys := sample_fs) named_script "out" ∅
    = (Returned ["out/intro.mcfunction"; "out/the_end.mcfunction"; "out/main.mcfunction"],
       fs').
Proof.
  eexists. apply (export_returns_iff (fsys := sample_fs)).
  split; [reflexivity|]. split; [reflexivity|].
  exists [("out/intro.mcfunction", join_lines (scene_lines "Intro" intro_scene));
          ("out/the_end.mcfunction",
           join_lines (scene_lines "The End" (mkSceneScript (VStr "The End") 600 400 [])))].
  split; [repeat constructor|]. split; reflexivity.
Defined.

Lemma export_reads_back_witness :
  snd (export_to_mcfunction (fsys := sample_fs) named_script "out" ∅)
    !! "out/main.mcfunction"
  = Some (main_text named_script).
Proof.
  destruct (export_to_mcfunction (fsys := sample_fs) named_script "out" ∅)
    as [[created|e] fs'] eqn:He; [|vm_compute in He; discriminate He].
  exact (proj1 (export_reads_back (fsys := sample_fs) _ _ _ _ _ He)).
Defined.

Lemma export_stops_half_way_witness :
  fst (export_to_mcfunction (fsys := sample_fs) numbered_script "out" ∅)
  = Raised (PyError AttributeError).
Proof.
  refine (f_equal fst
            (proj1 (export_stops_half_way (fsys := sample_fs) numbered_script "out" ∅
                      [intro_scene] [] (mkSceneScript (VInt 7) 600 400 [])
                      [("out/intro.mcfunction", join_lines (scene_lines "Intro" intro_scene))]
                      eq_refl eq_refl _ eq_refl))).
  repeat constructor.
Defined.
End ExportFacts.


(** ** The scheduler under any clock *)

Module AbandonFacts.
Import PyStr Py RCON SchedulerLayout Samples SortFacts SchedulerFacts.

Section Transport.
Context {conn : Type} (mcr_command : conn -> string -> conn * (string + string)).
Context (time_sleep : Z -> option string).

Lemma submissions_app (l1 l2 : list event) :
  submissions (l1 ++ l2) = submissions l1 ++ submissions l2.
Proof. apply omap_app. Qed.

Lemma loop_body_any_clock delay realtime st c :
  match loop_body mcr_command time_sleep delay realtime st c with
  | Running st' =>
      results st' = results st ++ contract_results mcr_command (server st) [c]
      /\ server st' = (if is_comment (command_of c) then server st
                       else fst (mcr_command (server st) (command_of c)))
      /\ submissions (trace st') = submissions (trace st) ++ to_submit [c]
  | Escaped st' _ => st' = st /\ realtime = true
  end.
Proof.
  unfold loop_body, to_submit. cbn [map List.filter contract_results].
  destruct (realtime && (last_tick st <? tick_of c)) eqn:Ew.
  - destruct (time_sleep _) as [msg|].
    { split; [done|]. by apply andb_true_iff in Ew as [-> _]. }
    destruct (is_comment (command_of c)); cbn [negb].
    + cbn. rewrite submissions_app. cbn. by rewrite !app_nil_r.
    + destruct (mcr_command (server st) (command_of c)) as [server' reply]. cbn.
      rewrite !submissions_app. cbn. rewrite app_nil_r. by destruct reply.
  - destruct (is_comment (command_of c)); cbn [negb].
    + cbn. by rewrite !app_nil_r.
    + destruct (mcr_command (server st) (command_of c)) as [server' reply]. cbn.
      rewrite !submissions_app. cbn. by destruct reply.
Qed.

Lemma to_submit_cons c rest : to_submit (c :: rest) = to_submit [c] ++ to_submit rest.
Proof. unfold to_submit. cbn. by destruct (negb _). Qed.

Lemma run_loop_any_clock delay realtime cmds : forall st,
  exists done sub,
    done `prefix_of` contract_results mcr_command (server st) cmds
    /\ sub `prefix_of` to_submit cmds
    /\ match run_loop mcr_command time_sleep delay realtime cmds st with
       | Running st' =>
           results st' = results st ++ done
           /\ done = contract_results mcr_command (server st) cmds
           /\ submissions (trace st') = submissions (trace st) ++ sub
           /\ sub = to_submit cmds
       | Escaped st' _ =>
           results st' = results st ++ done
           /\ submissions (trace st') = submissions (trace st) ++ sub
           /\ realtime = true
       end.
Proof.
  induction cmds as [|c rest IH]; intros st.
  - exists [], []. cbn. rewrite !app_nil_r. done.
  - cbn [run_loop]. pose proof (loop_body_any_clock delay realtime st c) as Hb.
    destruct (loop_body _ _ _ _ _ _) as [st1|st1 msg].
    + destruct Hb as (Hr & Hsrv & Hsub).
      destruct (IH st1) as (done & sub & Hd & Hs & Hrun).
      rewrite Hsrv in Hd.
      exists (contract_results mcr_command (server st) [c] ++ done), (to_submit [c] ++ sub).
      rewrite (contract_results_cons mcr_command (server st) c rest), (to_submit_cons c rest).
      split; [by apply prefix_app|]. split; [by apply prefix_app|].
      destruct (run_loop _ _ _ _ _ _) as [st'|st' msg'].
      * destruct Hrun as (H1 & H2 & H3 & H4).
        rewrite H1, H3, Hr, Hsub, <- !app_assoc. rewrite H2, H4, Hsrv. done.
      * destruct Hrun as (H1 & H3 & H4). rewrite H1, H3, Hr, Hsub, <- !app_assoc. done.
    + destruct Hb as [-> Hrt]. exists [], []. rewrite !app_nil_r.
      repeat split; try apply prefix_nil; done.
Qed.

(** X14. Whatever the clock does, [execute_sequence] on an open
    connection submits a prefix of the commands that are no comments,
    in tick order.  Either it runs through, with the results of all
    commands, or a pause was refused and it returns the results of a
    prefix of the commands followed by one connection error; without
    [realtime] it always runs through. *)
Theorem execute_sequence_any_clock (mcr : conn) (commands : list timed_command)
    (tick_delay_ms : Z) (realtime : bool) :
  let sorted_cmds := sorted_by tick_of commands in
  let out := execute_sequence mcr_command time_sleep true (inr mcr) commands
               tick_delay_ms realtime in
  exists done,
    done `prefix_of` contract_results mcr_command mcr sorted_cmds
    /\ submissions (snd out) `prefix_of` to_submit sorted_cmds
    /\ (fst out = contract_results mcr_command mcr sorted_cmds
        /\ submissions (snd out) = to_submit sorted_cmds
        \/ realtime = true
           /\ exists e, fst out
                        = done ++ [mkCommandResult false ("Connection error: " +:+ e) 0 ""]).
Proof.
  cbv zeta. unfold execute_sequence. cbn [negb].
  destruct (run_loop_any_clock tick_delay_ms realtime (sorted_by tick_of commands)
              (mkLoopState mcr 0 [] [])) as (done & sub & Hd & Hs & Hrun).
  cbn [server results trace app] in Hd, Hrun. exists done. split; [done|].
  destruct (run_loop _ _ _ _ _ _) as [st'|st' msg].
  - destruct Hrun as (H1 & H2 & H3 & H4). cbn [fst snd]. cbn in H3. rewrite H1, H3.
    split; [done|]. left. by rewrite H2, H4.
  - destruct Hrun as (H1 & H3 & H4). cbn [fst snd]. cbn in H3. rewrite H1, H3.
    split; [done|]. right. split; [done|]. by exists msg.
Qed.
End Transport.
End AbandonFacts.


(** ** The length of a realtime run *)

Module PacingFacts.
Import PyStr Py RCON SchedulerLayout Samples SortFacts SchedulerFacts.

Lemma total_pause_app (l1 l2 : list event) :
  total_pause (l1 ++ l2) = total_pause l1 + total_pause l2.
Proof.
  unfold total_pause. rewrite sleeps_app.
  induction (sleeps l1) as [|x l IH]; simpl; [reflexivity|]. rewrite IH. apply Z.add_assoc.
Qed.

Lemma highest_cons d c cmds :
  highest d (c :: cmds) = Z.max (tick_of c) (highest d cmds).
Proof. reflexivity. Qed.

Lemma highest_ge d cmds : d <= highest d cmds.
Proof. induction cmds as [|c cmds IH]; [cbn; lia|]. rewrite highest_cons. lia. Qed.

Lemma highest_max t d cmds : Z.max t (highest d cmds) = highest (Z.max t d) cmds.
Proof.
  induction cmds as [|c cmds IH]; [done|]. rewrite !highest_cons, <- IH. lia.
Qed.

Lemma highest_perm d (l1 l2 : list timed_command) :
  Permutation l1 l2 -> highest d l1 = highest d l2.
Proof. induction 1; rewrite ?highest_cons; [done|lia|lia|congruence]. Qed.

Lemma contract_pause delay cmds : forall cursor,
  0 <= delay ->
  ordered tick_of cmds ->
  Forall (fun c => cursor <= tick_of c) cmds ->
  (highest cursor cmds - cursor) * delay
  <= total_pause (contract_events delay cursor cmds)
  /\ (no_comment cmds ->
      total_pause (contract_events delay cursor cmds)
      = (highest cursor cmds - cursor) * delay).
Proof.
  induction cmds as [|c rest IH]; intros cursor Hd Ho Hc.
  - cbn. split; [lia|]. intros _. unfold total_pause. cbn. lia.
  - apply StronglySorted_inv in Ho as [Ho Hle]. apply Forall_cons in Hc as [Hc Hrest].
    cbn [contract_events]. cbv zeta. rewrite !total_pause_app.
    assert (Hs : total_pause (if cursor <? tick_of c
                              then [Slept ((tick_of c - cursor) * delay)] else [])
                 = (tick_of c - cursor) * delay).
    { destruct (Z.ltb_spec cursor (tick_of c)); unfold total_pause; cbn; [lia|].
      replace (tick_of c) with cursor by lia. lia. }
    rewrite Hs.
    assert (Hn : total_pause (if is_comment (command_of c) then []
                              else [Submitted (command_of c)]) = 0).
    { by destruct (is_comment _). }
    rewrite Hn. rewrite highest_cons.
    destruct (is_comment (command_of c)) eqn:Ec.
    + destruct (IH cursor Hd Ho Hrest) as [Hlow _].
      pose proof (highest_ge cursor rest) as Hg.
      assert (0 <= (highest cursor rest - cursor) * delay) by (apply Z.mul_nonneg_nonneg; lia).
      assert (0 <= (tick_of c - cursor) * delay) by (apply Z.mul_nonneg_nonneg; lia).
      split.
      * destruct (Z.max_spec (tick_of c) (highest cursor rest)) as [[_ ->] | [_ ->]]; lia.
      * intros Hno. apply Forall_cons in Hno as [Hno _]. congruence.
    + destruct (IH (tick_of c) Hd Ho Hle) as [Hlow Heq].
      rewrite highest_max. replace (Z.max (tick_of c) cursor) with (tick_of c) by lia.
      split; [lia|]. intros Hno. apply Forall_cons in Hno as [_ Hno].
      rewrite (Heq Hno). lia.
Qed.

Section Transport.
Context {conn : Type} (mcr_command : conn -> string -> conn * (string + string)).
Context (time_sleep : Z -> option string).

(** X15. In a realtime run whose pauses the clock accepts, with ticks
    and tick length not negative, the pauses add up to at least the
    highest tick times the tick length, and to exactly that when no
    command is a comment. *)
Theorem pauses_cover_the_timeline (mcr : conn) (commands : list timed_command)
    (tick_delay_ms : Z) :
  0 <= tick_delay_ms ->
  Forall (fun c => 0 <= tick_of c) commands ->
  Forall (fun ms => time_sleep ms = None)
    (sleeps (contract_events tick_delay_ms 0 (sorted_by tick_of commands))) ->
  let out := execute_sequence mcr_command time_sleep true (inr mcr) commands
               tick_delay_ms true in
  timeline commands * tick_delay_ms <= total_pause (snd out)
  /\ (no_comment commands -> total_pause (snd out) = timeline commands * tick_delay_ms).
Proof.
  intros Hd Hticks Hclock out.
  destruct (execute_sequence_runs mcr_command time_sleep mcr commands tick_delay_ms true
              (fun _ => Hclock)) as [_ Hev].
  cbv zeta in Hev. unfold out. rewrite Hev.
  pose proof (sorted_by_perm tick_of commands) as Hp.
  destruct (contract_pause tick_delay_ms (sorted_by tick_of commands) 0 Hd
              (sorted_by_ordered tick_of commands)) as [Hlow Heq].
  { by rewrite Hp. }
  unfold timeline. rewrite <- (highest_perm 0 _ _ Hp). rewrite Z.sub_0_r in Hlow, Heq.
  split; [exact Hlow|]. intros Hno. apply Heq. unfold no_comment. by rewrite Hp.
Qed.
End Transport.

Lemma pauses_cover_the_timeline_witness :
  total_pause
    (snd (execute_sequence echo clock true (inr tt)
            [TimedCommand (Some 40) (Some "say c"); TimedCommand (Some 0) (Some "say a");
             TimedCommand (Some 20) (Some "say b")] 50 true))
  = 2000.
Proof.
  refine (proj2 (pauses_cover_the_timeline echo clock tt
                   [TimedCommand (Some 40) (Some "say c");
                    TimedCommand (Some 0) (Some "say a");
                    TimedCommand (Some 20) (Some "say b")] 50 _ _ _) _).
  - lia.
  - repeat constructor; vm_compute; discriminate.
  - vm_compute. repeat constructor.
  - repeat constructor.
Defined.

(** A comment between two commands is waited for, and the wait is made
    again before the next command: a timeline of 100 ticks takes the
    time of 200. *)
Example comment_is_waited_for_twice :
  snd (execute_sequence echo clock true (inr tt)
         [TimedCommand (Some 0) (Some "say a");
          TimedCommand (Some 100) (Some "# the camera turns");
          TimedCommand (Some 100) (Some "say b")] 50 true)
  = [Submitted "say a"; Slept 5000; Slept 5000; Submitted "say b"].
Proof. reflexivity. Qed.
End PacingFacts.


(** ** The other methods of the client *)

Module ClientFacts.
Import PyStr Py RCON Client Samples SortFacts SchedulerFacts.

Lemma contract_results_fields {conn} (mcr_command : conn -> string -> conn * (string + string))
    cmds : forall mcr,
  map tick (contract_results mcr_command mcr cmds) = map tick_of cmds
  /\ map command (contract_results mcr_command mcr cmds) = map command_of cmds.
Proof.
  induction cmds as [|c rest IH]; intros mcr; [done|].
  cbn [contract_results]. destruct (is_comment _).
  - destruct (IH mcr) as [H1 H2]. cbn. by rewrite H1, H2.
  - destruct (mcr_command mcr (command_of c)) as [mcr' [resp|err]]; cbn;
      destruct (IH mcr') as [H1 H2]; by rewrite H1, H2.
Qed.

(** X16. On an open connection [setup_world] submits its five
    commands, in this order and without a pause, whatever the game
    mode, the difficulty and the server's answers are, and returns one
    result for each. *)
Theorem setup_world_submits_five {conn}
    (mcr_command : conn -> string -> conn * (string + string))
    (time_sleep : Z -> option string) (mcr : conn) (gamemode difficulty : string) :
  let out := setup_world mcr_command time_sleep true (inr mcr) gamemode difficulty in
  let texts := ["gamemode " +:+ gamemode; "difficulty " +:+ difficulty;
                "gamerule doDaylightCycle false"; "gamerule doWeatherCycle false";
                "gamerule doMobSpawning false"] in
  snd out = map Submitted texts
  /\ map command (fst out) = texts
  /\ map tick (fst out) = [0; 1; 2; 3; 4].
Proof.
  cbv zeta. unfold setup_world.
  destruct (execute_sequence_runs mcr_command time_sleep mcr
              (setup_commands gamemode difficulty) 50 false) as [Hres Hev];
    [discriminate|].
  cbv zeta in Hres, Hev. rewrite Hres, Hev.
  destruct (contract_results_fields mcr_command
              (sorted_by tick_of (setup_commands gamemode difficulty)) mcr) as [-> ->].
  repeat split; reflexivity.
Qed.

(** X17. For a command that is no comment, [execute] does what
    [execute_sequence] does with that command alone: the same result
    and the same single submission, with no pause. *)
Theorem execute_is_a_sequence_of_one {conn}
    (mcr_command : conn -> string -> conn * (string + string))
    (time_sleep : Z -> option string) (mcr : conn) (command : string)
    (tick_delay_ms : Z) (realtime : bool) :
  is_comment command = false ->
  execute_sequence mcr_command time_sleep true (inr mcr)
    [TimedCommand None (Some command)] tick_delay_ms realtime
  = ([fst (execute mcr_command true (inr mcr) command)],
     snd (execute mcr_command true (inr mcr) command))
  /\ snd (execute mcr_command true (inr mcr) command) = [Submitted command].
Proof.
  intros Hc. unfold execute, execute_sequence. cbn [negb sorted_by foldr insert_by run_loop].
  unfold loop_body. cbn [tick_of command_of tc_tick tc_command from_option id last_tick].
  rewrite Hc, Z.ltb_irrefl, andb_false_r.
  cbn [server results trace app].
  destruct (mcr_command mcr command) as [mcr' [resp|err]]; cbn; done.
Qed.

Lemma execute_is_a_sequence_of_one_witness :
  execute_sequence echo clock true (inr tt) [TimedCommand None (Some "say hi")] 50 true
  = ([mkCommandResult true "say hi" 0 "say hi"], [Submitted "say hi"]).
Proof.
  exact (proj1 (execute_is_a_sequence_of_one echo clock tt "say hi" 50 true eq_refl)).
Defined.
End ClientFacts.


(** ** The datapack *)

Module DatapackFacts.
Import PyStr Py RCON Files FileExecutor Samples MoreSamples SortFacts SchedulerFacts.

Lemma datapack_fold cmds : forall main_lines,
  fold_left
    (fun main_lines cmd_data =>
       let command := command_of cmd_data in
       if negb (startswith "#" command) then main_lines ++ [command] else main_lines)
    cmds main_lines
  = main_lines ++ List.filter (fun c => negb (is_comment c)) (map command_of cmds).
Proof.
  induction cmds as [|c cmds IH]; intros main_lines; cbn [fold_left map List.filter].
  - by rewrite app_nil_r.
  - rewrite IH. unfold is_comment. cbv zeta.
    destruct (negb (startswith "#" (command_of c))); [|done].
    by rewrite <- app_assoc.
Qed.

Section WithFileSystem.
Context {fsys : FileSystem}.

(** X18. When the directory and the two files can be written,
    [save_as_datapack] returns the pack directory, and the main
    function lists, after its two heading lines, exactly the commands
    that [execute_sequence] submits for the same list, in the same
    order. *)
Theorem datapack_lists_what_runs {conn}
    (mcr_command : conn -> string -> conn * (string + string))
    (time_sleep : Z -> option string) (mcr : conn)
    (commands : list timed_command) (tick_delay_ms : Z) (realtime : bool)
    (output_dir pack_name : string) (fs : files) :
  (realtime = true ->
   Forall (fun ms => time_sleep ms = None)
     (sleeps (contract_events tick_delay_ms 0 (sorted_by tick_of commands)))) ->
  let pack_dir := path_join output_dir pack_name in
  let func_dir := path_join (path_join (path_join pack_dir "data") pack_name) "functions" in
  makedirs func_dir = true ->
  writable (path_join pack_dir "pack.mcmeta") = true ->
  writable (path_join func_dir "main.mcfunction") = true ->
  let submitted :=
    submissions (snd (execute_sequence mcr_command time_sleep true (inr mcr) commands
                        tick_delay_ms realtime)) in
  fst (save_as_datapack output_dir commands pack_name fs) = Returned pack_dir
  /\ snd (save_as_datapack output_dir commands pack_name fs)
       !! path_join func_dir "main.mcfunction"
     = Some (join_lines (["# BBS AI Agent - Main Animation Controller"; ""] ++ submitted)).
Proof.
  intros Hclock pack_dir func_dir Hd Hm Hf submitted.
  assert (Hsub : submitted
                 = List.filter (fun c => negb (is_comment c))
                     (map command_of (sorted_by tick_of commands))).
  { unfold submitted.
    destruct (execute_sequence_runs mcr_command time_sleep mcr commands tick_delay_ms
                realtime Hclock) as [_ Hev].
    cbv zeta in Hev. rewrite Hev.
    destruct realtime; [apply submissions_contract|apply submissions_map]. }
  unfold save_as_datapack. cbv zeta. fold pack_dir. fold func_dir.
  unfold io_bind, io_makedirs, io_write, io_ret. rewrite Hd, Hm, Hf. cbn [fst snd].
  split; [done|]. rewrite lookup_insert_eq. unfold datapack_lines.
  by rewrite datapack_fold, Hsub.
Qed.
End WithFileSystem.

Lemma datapack_lists_what_runs_witness :
  snd (save_as_datapack (fsys := sample_fs) "out"
         [TimedCommand (Some 20) (Some "say b"); TimedCommand (Some 0) (Some "# note");
          TimedCommand (Some 0) (Some "say a")] "pack" ∅)
    !! "out/pack/data/pack/functions/main.mcfunction"
  = Some (join_lines ["# BBS AI Agent - Main Animation Controller"; ""; "say a"; "say b"]).
Proof.
  refine (proj2 (datapack_lists_what_runs (fsys := sample_fs) echo clock tt
                   [TimedCommand (Some 20) (Some "say b"); TimedCommand (Some 0) (Some "# note");
                    TimedCommand (Some 0) (Some "say a")] 50 true "out" "pack" ∅
                   _ eq_refl eq_refl eq_refl)).
  intros _. vm_compute. repeat constructor.
Defined.
End DatapackFacts.


(** ** Running the application's commands *)

Module AppFacts.
Import PyStr Py SafetyFilter App AppLayout Samples MoreSamples FilterFacts.

Section Transport.
Context {conn : Type} (mcr_command : conn -> string -> conn * (string + string)).
Context (time_sleep : float -> option string).

Lemma sent_app (l1 l2 : list app_event) : sent (l1 ++ l2) = sent l1 ++ sent l2.
Proof. apply omap_app. Qed.

Lemma failed_app l1 l2 : failed (l1 ++ l2) = failed l1 || failed l2.
Proof. apply existsb_app. Qed.

Lemma run_commands_spec delay commands : forall st,
  let out := run_commands mcr_command time_sleep delay commands st in
  exists rs evs,
    fst out = results st ++ rs /\ snd out = trace st ++ evs
    /\ sent evs `prefix_of` real commands
    /\ (failed rs = false -> sent evs = real commands)
    /\ (forall (k : nat) e, rs !! k = Some (ConnectionError e) -> S k = length rs).
Proof.
  induction commands as [|cmd rest IH]; intros st; cbv zeta.
  - exists [], []. cbn. rewrite !app_nil_r. repeat split; try done.
  - cbn [run_commands]. unfold real. cbn [List.filter]. fold (real rest).
    destruct (skipped cmd) eqn:Es; cbn [negb].
    { apply IH. }
    destruct (mcr_command (server st) cmd) as [server' [response|e]].
    2:{ exists [ConnectionError e], [Sent cmd]. cbn. repeat split; try done;
          try (by exists (real rest));
          try (intros [|k] e' Hk; [done|]; by destruct k). }
    destruct (time_sleep delay) as [e|].
    { exists [Executed (str_take 50 cmd) response; ConnectionError e], [Sent cmd].
      cbn [fst snd]. rewrite <- app_assoc. repeat split; try done;
        try (by exists (real rest));
        try (intros [|[|k]] e' Hk; try done; by destruct k). }
    destruct (IH (mkRunState server' (results st ++ [Executed (str_take 50 cmd) response])
                    ((trace st ++ [Sent cmd]) ++ [Paused delay])))
      as (rs & evs & Hr & He & Hp & Hall & Hlast).
    cbv zeta in Hr, He. cbn [results trace] in Hr, He.
    exists (Executed (str_take 50 cmd) response :: rs), (Sent cmd :: Paused delay :: evs).
    rewrite Hr, He, <- !app_assoc. cbn [app]. repeat split.
    + change (sent (Sent cmd :: Paused delay :: evs)) with (cmd :: sent evs).
      by apply prefix_cons.
    + intros Hf. change (sent (Sent cmd :: Paused delay :: evs)) with (cmd :: sent evs).
      f_equal. by apply Hall.
    + intros [|k] e' Hk; [done|]. cbn in Hk. cbn [length]. f_equal. by eapply Hlast.
Qed.


Lemma in_get_all_commands scenes c :
  In c (get_all_commands (Some scenes)) ->
  startswith "#" c = true
  \/ exists scene cmd, In scene scenes /\ In cmd (default [] (as_commands scene))
                       /\ c = filter_cmd cmd.
Proof.
  unfold get_all_commands.
  assert (H : forall acc,
            In c (fold_left
                    (fun commands scene =>
                       (commands ++ ["# === " +:+ default "Scene" (as_name scene) +:+ " ==="])
                         ++ safety_filter (default [] (as_commands scene)))
                    scenes acc) ->
            In c acc \/ startswith "#" c = true
            \/ exists scene cmd, In scene scenes /\ In cmd (default [] (as_commands scene))
                                 /\ c = filter_cmd cmd).
  { induction scenes as [|sc scenes IH]; intros acc Hin; [by left|].
    cbn [fold_left] in Hin. apply IH in Hin as [Hin | [Hs | (scene & cmd & H1 & H2 & H3)]].
    - apply in_app_or in Hin as [Hin | Hin].
      + apply in_app_or in Hin as [Hin | [<- | []]]; [by left|].
        right. left. by rewrite !append_cons.
      + rewrite safety_filter_map in Hin. apply in_map_iff in Hin as (cmd & <- & Hin).
        right. right. exists sc, cmd. split; [by left|]. by split.
    - right. by left.
    - right. right. exists scene, cmd. split; [by right|]. by split. }
  intros Hin. apply H in Hin as [[] | Hin]. exact Hin.
Qed.

(** X20. Whatever the storyboard, the server and the clock are, every
    command that [execute_commands_realtime] sends out of
    [get_all_commands] is a command of a scene that the safety filter
    does not block. *)
Theorem no_blocked_command_is_sent (connect : string + conn)
    (storyboard : option (list app_scene)) (delay : float) (c : string) :
  In c (sent (snd (execute_commands_realtime mcr_command time_sleep connect
                     (get_all_commands storyboard) delay))) ->
  is_blocked c = false
  /\ exists scenes scene,
       storyboard = Some scenes /\ In scene scenes
       /\ In c (default [] (as_commands scene)).
Proof.
  intros Hin.
  assert (Hreal : In c (real (get_all_commands storyboard))).
  { unfold execute_commands_realtime in Hin. destruct connect as [e|mcr]; [destruct Hin|].
    destruct (run_commands_spec delay (get_all_commands storyboard) (mkRunState mcr [] []))
      as (rs & evs & _ & He & [rest Hp] & _).
    cbv zeta in He. cbn [trace app] in He. rewrite He in Hin.
    rewrite Hp. apply in_or_app. by left. }
  apply filter_In in Hreal as [Hall Hsk].
  apply negb_true_iff in Hsk. unfold skipped in Hsk. apply orb_false_iff in Hsk as [Hhash _].
  destruct storyboard as [scenes|]; [|destruct Hall].
  apply in_get_all_commands in Hall as [Hs | (scene & cmd & Hsc & Hcmd & ->)];
    [congruence|].
  unfold filter_cmd in *. destruct (is_blocked cmd) eqn:Eb.
  - unfold blocked_tag in Hhash. rewrite !append_cons in Hhash. discriminate Hhash.
  - split; [done|]. by exists scenes, scene.
Qed.
End Transport.

Lemma no_blocked_command_is_sent_witness :
  is_blocked "say hi" = false
  /\ exists scenes scene,
       Some [AppScene (Some "Arrival") (Some ["tp @p 1 2 3"; "say hi"])] = Some scenes
       /\ In scene scenes /\ In "say hi" (default [] (as_commands scene)).
Proof.
  apply (no_blocked_command_is_sent echo nap (inr tt)
           (Some [AppScene (Some "Arrival") (Some ["tp @p 1 2 3"; "say hi"])]) 1%float "say hi").
  vm_compute. left. reflexivity.
Defined.
End AppFacts.

